(** * chipi-backend: streaming generation orchestration

    A shallow embedding of the parts of [src/bot.py], [src/db.py] and
    [src/api.py] that split the raw model output, frame and relay the
    streamed fragments, persist the finished turn and validate requests. *)

From Stdlib Require Import ZArith Ascii String.
From stdpp Require Import gmap strings list fin_maps sorting.

(** * Python values shared by the three source files *)

(** Exceptions the modelled code raises or catches. *)
Inductive exn :=
  | ValueError (msg : string)
  | TypeError (msg : string)
  | RuntimeError (msg : string)
  | AttributeError (msg : string)
  | Psycopg2Error (msg : string)
  | HTTPException (status_code : Z) (detail : string).

(** The result of running a fallible piece of Python. *)
Inductive outcome (A : Type) :=
  | Return (a : A)
  | Raise (e : exn).
Arguments Return {A} a.
Arguments Raise {A} e.

(** The line feed, Python's ["\n"]. *)
Definition LF : ascii := "010"%char.
(** The backslash character. *)
Definition BSL : ascii := "092"%char.
(** Python's ["\\n"]: a backslash followed by the letter n. *)
Definition backslash_n : string := String BSL (String "n"%char EmptyString).
(** Python's ["\n\n"]. *)
Definition LFLF : string := String LF (String LF EmptyString).

(** [LF in s] *)
Fixpoint has_newline (s : string) : bool :=
  match s with
  | EmptyString => false
  | String c rest => Ascii.eqb c LF || has_newline rest
  end.

(** [s.split("\n")]: the lines of a text. *)
Fixpoint split_lines (s : string) : list string :=
  match s with
  | EmptyString => [EmptyString]
  | String c rest =>
      if Ascii.eqb c LF then EmptyString :: split_lines rest
      else match split_lines rest with
           | line :: lines => String c line :: lines
           | [] => [String c EmptyString]
           end
  end.

(** * The content splitter of [Bot.generate] and [run_generate] *)
Module Splitter.

(** The token id that closes the reasoning segment ([151668]). *)
Definition END_OF_REASONING : Z := 151668.

(** [list.index(x)]: the position of the first [x], or [ValueError]. *)
Fixpoint py_index (x : Z) (l : list Z) : outcome nat :=
  match l with
  | [] => Raise (ValueError "x is not in list")
  | y :: l' =>
      if Z.eqb y x then Return 0
      else match py_index x l' with
           | Return i => Return (S i)
           | Raise e => Raise e
           end
  end.

(** [[
    try:
        index = len(response_ids) - response_ids[::-1].index(151668)
    except ValueError:
        index = 0
    ]] *)
Definition split_index (response_ids : list Z) : outcome nat :=
  match py_index END_OF_REASONING (rev response_ids) with
  | Return r => Return (length response_ids - r)
  | Raise (ValueError _) => Return 0
  | Raise e => Raise e
  end.

(** [s.lstrip("\n")] *)
Fixpoint lstrip_newlines (s : string) : string :=
  match s with
  | String c s' => if Ascii.eqb c LF then lstrip_newlines s' else s
  | EmptyString => EmptyString
  end.

(** [s.rstrip("\n")] *)
Fixpoint rstrip_newlines (s : string) : string :=
  match s with
  | String c s' =>
      match rstrip_newlines s' with
      | EmptyString => if Ascii.eqb c LF then EmptyString else String c EmptyString
      | r => String c r
      end
  | EmptyString => EmptyString
  end.

(** [s.strip("\n")] *)
Definition strip_newlines (s : string) : string :=
  rstrip_newlines (lstrip_newlines s).

Section WithTokenizer.

(** [tokenizer.decode(ids, skip_special_tokens=True)] of the external
    tokenizer. *)
Variable decode : list Z -> string.

(** The reasoning text and the answer text computed from the raw output:
    [[
    thinking_content = tokenizer.decode(response_ids[:index], ...).strip("\n")
    content = tokenizer.decode(response_ids[index:], ...).strip("\n")
    ]] *)
Definition split_output (response_ids : list Z) : outcome (string * string) :=
  match split_index response_ids with
  | Return index =>
      Return (strip_newlines (decode (take index response_ids)),
              strip_newlines (decode (drop index response_ids)))
  | Raise e => Raise e
  end.

End WithTokenizer.

(** [p] is the position of the last marker of [ids]. *)
Definition last_marker_at (ids : list Z) (p : nat) : Prop :=
  ids !! p = Some END_OF_REASONING /\
  forall q, p < q -> ids !! q <> Some END_OF_REASONING.

End Splitter.

(** * The conversation store of [db.py] *)
Module DB.

(** A row of table [conversations] (the key [session_id] is the key of the
    map below). *)
Record conversation := {
  title : string;
  created_at : nat;
  updated_at : nat
}.

(** A row of table [conversation_details]. *)
Record message := {
  session_id : string;
  role : string;
  content : string;
  reasoning : string;
  timestamp : nat
}.

(** A [ConversationDB] object together with the database behind it.
    [connection] tells whether [self.connection] is set; [conversations] is
    the table keyed by its primary key; [conversation_details] lists the rows
    in insertion ([id SERIAL]) order; [now] is the [CURRENT_TIMESTAMP] the
    next transaction sees.  Text is a [string] whose characters stand for the
    characters of the Python [str]. *)
Record db := {
  connection : bool;
  conversations : gmap string conversation;
  conversation_details : list message;
  now : nat
}.

(** Ending a transaction ([commit] or [rollback]): the next transaction
    starts at a later time. *)
Definition end_transaction (st : db) : db :=
  {| connection := connection st;
     conversations := conversations st;
     conversation_details := conversation_details st;
     now := S (now st) |}.

Definition set_conversations (st : db) (c : gmap string conversation) : db :=
  {| connection := connection st;
     conversations := c;
     conversation_details := conversation_details st;
     now := now st |}.

Definition set_conversation_details (st : db) (l : list message) : db :=
  {| connection := connection st;
     conversations := conversations st;
     conversation_details := l;
     now := now st |}.

(** [s[:100] + "..." if len(s) > 100 else s], the expression both
    [create_conversation] and [add_message] derive a title with. *)
Definition derived_title (s : string) : string :=
  if 100 <? String.length s then String.substring 0 100 s +:+ "..." else s.

(** [[
    if not initial_prompt:
        initial_prompt = "New Conversation"
    ]] *)
Definition prompt_or_default (initial_prompt : option string) : string :=
  match initial_prompt with
  | None | Some EmptyString => "New Conversation"
  | Some p => p
  end.

(** [[
    if len(title) > 255:
        title = title[:252] + "..."
    ]] *)
Definition fitted_title (title : string) : string :=
  if 255 <? String.length title
  then String.substring 0 252 title +:+ "..." else title.

(** [ConversationDB.create_conversation].  [uuid4] is the value
    [str(uuid.uuid4())] draws.  An insert that hits an existing key raises
    (the [psycopg2.Error] is re-raised after the rollback). *)
Definition create_conversation (uuid4 : string) (st : db)
    (initial_prompt : option string) : db * outcome string :=
  let initial_prompt := prompt_or_default initial_prompt in
  let title := derived_title initial_prompt in
  if negb (connection st) then (st, Return EmptyString)
  else match conversations st !! uuid4 with
       | None =>
           let row := {| title := title; created_at := now st;
                         updated_at := now st |} in
           (end_transaction
              (set_conversations st (<[uuid4 := row]> (conversations st))),
            Return uuid4)
       | Some _ =>
           (end_transaction st, Raise (Psycopg2Error "duplicate key"))
       end.

(** [ConversationDB.update_conversation_title]: the [UPDATE] and the
    [BEFORE UPDATE] trigger that refreshes [updated_at]; the result is
    [cursor.rowcount > 0]. *)
Definition update_conversation_title (st : db) (session_id title : string)
    : db * bool :=
  let title := fitted_title title in
  if negb (connection st) then (st, false)
  else match conversations st !! session_id with
       | Some c =>
           let row := {| title := title; created_at := created_at c;
                         updated_at := now st |} in
           (end_transaction
              (set_conversations st (<[session_id := row]> (conversations st))),
            true)
       | None => (end_transaction st, false)
       end.

(** The constraints of table [conversation_details]: the foreign key on
    [session_id] and the [CHECK] on [role]. *)
Definition insert_accepted (st : db) (session_id role : string) : bool :=
  bool_decide (is_Some (conversations st !! session_id))
  && (String.eqb role "user" || String.eqb role "assistant"
      || String.eqb role "system").

(** [SELECT COUNT( * ) FROM conversation_details WHERE session_id = %s] *)
Definition count_messages (st : db) (sid : string) : nat :=
  length (filter (fun m => session_id m = sid) (conversation_details st)).

(** [ConversationDB.add_message].  A rejected insert is rolled back and
    answered with [False]. *)
Definition add_message (st : db) (sid role content : string)
    (reasoning : option string) : db * bool :=
  if negb (connection st) then (st, false)
  else
    let reasoning := default EmptyString reasoning in
    if insert_accepted st sid role then
      let row := {| session_id := sid; role := role; content := content;
                    reasoning := reasoning; timestamp := now st |} in
      let st1 := set_conversation_details st (conversation_details st ++ [row]) in
      let st2 :=
        if String.eqb role "user" then
          if count_messages st1 sid =? 1
          then (update_conversation_title st1 sid (derived_title content)).1
          else st1
        else st1 in
      (end_transaction st2, true)
    else (end_transaction st, false).

(** [ORDER BY timestamp ASC]: the rows by increasing timestamp.  Rows with
    the same timestamp, which the query may list in any order, are kept in
    the order of insertion. *)
Fixpoint insert_by_timestamp (m : message) (sorted : list message)
    : list message :=
  match sorted with
  | [] => [m]
  | x :: rest =>
      if decide (timestamp m <= timestamp x) then m :: sorted
      else x :: insert_by_timestamp m rest
  end.

Definition order_by_timestamp (rows : list message) : list message :=
  foldr insert_by_timestamp [] rows.

(** [ConversationDB.get_conversation]: the conversation and its messages,
    [[
    SELECT role, content, timestamp, reasoning FROM conversation_details
    WHERE session_id = %s ORDER BY timestamp ASC
    ]] *)
Definition get_conversation (st : db) (sid : string)
    : option (conversation * list message) :=
  if negb (connection st) then None
  else match conversations st !! sid with
       | None => None
       | Some c =>
           Some (c, order_by_timestamp
                      (filter (fun m => session_id m = sid)
                         (conversation_details st)))
       end.

(** [ConversationDB.delete_conversation], with the [ON DELETE CASCADE] of the
    messages. *)
Definition delete_conversation (st : db) (sid : string) : db * bool :=
  if negb (connection st) then (st, false)
  else match conversations st !! sid with
       | Some _ =>
           (end_transaction
              (set_conversation_details
                 (set_conversations st (delete sid (conversations st)))
                 (filter (fun m => session_id m <> sid) (conversation_details st))),
            true)
       | None => (end_transaction st, false)
       end.

(** The title stored for a session, if the session exists. *)
Definition stored_title (st : db) (sid : string) : option string :=
  title <$> conversations st !! sid.

(** A connected store with no row. *)
Definition empty_db : db :=
  {| connection := true; conversations := ∅; conversation_details := [];
     now := 0 |}.

(** [ConversationDB.close] *)
Definition close (st : db) : db :=
  {| connection := false;
     conversations := conversations st;
     conversation_details := conversation_details st;
     now := now st |}.

(** [ConversationDB.connect], when the server accepts the connection.  The
    statements of [_initialize_tables] are all [IF NOT EXISTS]: on a
    database that has the tables they change nothing. *)
Definition connect (st : db) : db :=
  {| connection := true;
     conversations := conversations st;
     conversation_details := conversation_details st;
     now := now st |}.

(** A dictionary [list_conversations] returns: the four columns of a
    conversation, or the empty dictionary. *)
Inductive summary :=
  | EmptyDict
  | Summary (session_id title : string) (created_at updated_at : nat).

Definition summary_of (row : string * conversation) : summary :=
  Summary row.1 (title row.2) (created_at row.2) (updated_at row.2).

(** [ORDER BY updated_at DESC]: [a] may come before [b]. *)
Definition newer_first (a b : string * conversation) : Prop :=
  updated_at b.2 <= updated_at a.2.

Global Instance newer_first_dec a b : Decision (newer_first a b).
Proof. unfold newer_first. apply _. Defined.

(** [ConversationDB.list_conversations]:
    [[
    SELECT session_id, title, created_at, updated_at FROM conversations
    ORDER BY updated_at DESC LIMIT %s OFFSET %s
    ]]
    Without a connection the answer is [[{}]]; a negative [LIMIT] or
    [OFFSET] is an error of the database, answered with [[]].  Conversations
    updated at the same time come in the order the sort leaves them in. *)
Definition list_conversations (st : db) (limit offset : Z) : list summary :=
  if negb (connection st) then [EmptyDict]
  else if (limit <? 0)%Z || (offset <? 0)%Z then []
  else
    summary_of
    <$> take (Z.to_nat limit)
          (drop (Z.to_nat offset)
             (merge_sort newer_first (map_to_list (conversations st)))).

(** A call that may change the store. *)
Inductive call :=
  | CreateConversation (uuid4 : string) (initial_prompt : option string)
  | UpdateConversationTitle (session_id title : string)
  | AddMessage (session_id role content : string) (reasoning : option string)
  | DeleteConversation (session_id : string)
  | Close
  | Connect.

(** The store after a call. *)
Definition perform (st : db) (c : call) : db :=
  match c with
  | CreateConversation uuid4 initial_prompt =>
      (create_conversation uuid4 st initial_prompt).1
  | UpdateConversationTitle sid title =>
      (update_conversation_title st sid title).1
  | AddMessage sid role content reasoning =>
      (add_message st sid role content reasoning).1
  | DeleteConversation sid => (delete_conversation st sid).1
  | Close => close st
  | Connect => connect st
  end.

(** The store a history of calls builds from the empty database. *)
Definition history (calls : list call) : db := foldl perform empty_db calls.

(** Referential integrity and the [CHECK] on roles: every message belongs
    to a stored conversation and has one of the three roles. *)
Definition consistent (st : db) : Prop :=
  Forall (fun m =>
            is_Some (conversations st !! session_id m)
            /\ (role m = "user" \/ role m = "assistant" \/ role m = "system"))
         (conversation_details st).

(** The order of time: every stored time is before the time of the next
    transaction, no conversation is updated before it is created, and the
    messages are stored in the order of their timestamps. *)
Definition chronological (st : db) : Prop :=
  Forall (fun m => timestamp m < now st) (conversation_details st)
  /\ (forall sid c, conversations st !! sid = Some c ->
        created_at c <= updated_at c /\ updated_at c < now st)
  /\ StronglySorted (fun a b => timestamp a <= timestamp b)
       (conversation_details st).

End DB.

(** * Streaming in [bot.py] *)
Module Bot.

(** [token.replace("\n", "\\n")] *)
Fixpoint escape_newlines (token : string) : string :=
  match token with
  | EmptyString => EmptyString
  | String c rest =>
      if Ascii.eqb c LF then backslash_n +:+ escape_newlines rest
      else String c (escape_newlines rest)
  end.

(** The frame [generate_stream] yields for a token: [f"data: {text}\n\n"]. *)
Definition sse_frame (token : string) : string :=
  "data: " +:+ escape_newlines token +:+ LFLF.

(** A [queue.Queue] holding texts and the sentinel [None]: [put] appends at
    the back, [get] takes the head. *)
Definition queue := list (option string).

(** [StreamingToQueue.on_finalized_text]: the items the call puts on the
    queue, in order. *)
Definition on_finalized_text (text : string) (stream_end : bool) : queue :=
  Some text :: (if stream_end then [None] else []).

(** What the external engine does during [model.generate(..., streamer)]:
    the calls [on_finalized_text(text, stream_end)] its streamer receives, and
    then either the generated token ids or an exception. *)
Inductive engine_run :=
  | Completes (calls : list (string * bool)) (response_ids : list Z)
  | Fails (calls : list (string * bool)) (error : string).

Definition calls_of (e : engine_run) : list (string * bool) :=
  match e with Completes calls _ | Fails calls _ => calls end.

(** Every item the streamer puts on the stream queue during a run. *)
Definition streamed (calls : list (string * bool)) : queue :=
  flat_map (fun c => on_finalized_text c.1 c.2) calls.

(** The texts the loop of [generate_stream] reads from the calls of a run:
    those up to the call that ends the stream. *)
Fixpoint emitted (calls : list (string * bool)) : list string :=
  match calls with
  | [] => []
  | (text, stream_end) :: rest =>
      text :: (if stream_end then [] else emitted rest)
  end.

(** Some call of the run ends the stream. *)
Definition ended (calls : list (string * bool)) : bool :=
  existsb snd calls.

(** The atomic steps of the thread that runs [run_generate]. *)
Inductive gen_action :=
  | GPut (item : option string)
  | GAddUser
  | GAddAssistant (response_ids : list Z).

(** [run_generate] as the sequence of its steps: the puts of the streamer
    while [model.generate] runs, then the two [add_message] calls.  When
    [model.generate] raises, the thread ends there. *)
Definition run_generate (e : engine_run) : list gen_action :=
  match e with
  | Completes calls response_ids =>
      map GPut (streamed calls) ++ [GAddUser; GAddAssistant response_ids]
  | Fails calls _ => map GPut (streamed calls)
  end.

(** The frames the loop of [generate_stream] yields from the items it reads:
    it stops at the first [None]. *)
Fixpoint generate_stream (items : queue) : list string :=
  match items with
  | Some token :: rest => sse_frame token :: generate_stream rest
  | None :: _ | [] => []
  end.

(** ** The [Bot] object *)

(** An entry of [history] and of [messages]:
    [{"role": role, "content": content}]. *)
Record turn := {
  turn_role : string;
  turn_content : string
}.

(** The attributes of a [Bot].  [loaded] tells whether [self.model] and
    [self.tokenizer] are set, [has_db] whether [self.db] is, and
    [session_id] is [None] while the attribute does not exist.  The database
    behind [self.db] is passed along with the object. *)
Record bot := {
  loaded : bool;
  history : list turn;
  user_input : string;
  messages : list turn;
  content : option string;
  thinking_content : option string;
  has_db : bool;
  session_id : option string
}.

(** [Bot.__init__] *)
Definition new_bot (db_config : bool) : bot :=
  {| loaded := false; history := []; user_input := EmptyString;
     messages := []; content := None; thinking_content := None;
     has_db := db_config; session_id := None |}.

(** [Bot.load_model], when both [from_pretrained] calls return. *)
Definition load_model (b : bot) : bot :=
  {| loaded := true; history := history b; user_input := user_input b;
     messages := messages b; content := content b;
     thinking_content := thinking_content b; has_db := has_db b;
     session_id := session_id b |}.

(** [Bot.unload_model] *)
Definition unload_model (b : bot) : bot :=
  {| loaded := false; history := history b; user_input := user_input b;
     messages := messages b; content := None; thinking_content := None;
     has_db := has_db b; session_id := session_id b |}.

(** [Bot.prompt] *)
Definition prompt (b : bot) (text role : string) : bot :=
  {| loaded := loaded b; history := history b; user_input := text;
     messages := history b ++ [{| turn_role := role; turn_content := text |}];
     content := content b; thinking_content := thinking_content b;
     has_db := has_db b; session_id := session_id b |}.

(** [self.history.append({"role": role, "content": text})] *)
Definition record_turn (b : bot) (role text : string) : bot :=
  {| loaded := loaded b;
     history := history b ++ [{| turn_role := role; turn_content := text |}];
     user_input := user_input b; messages := messages b;
     content := content b; thinking_content := thinking_content b;
     has_db := has_db b; session_id := session_id b |}.

(** [[
    self.thinking_content = thinking_content
    self.content = content
    ]] *)
Definition set_answer (b : bot) (thinking answer : string) : bot :=
  {| loaded := loaded b; history := history b; user_input := user_input b;
     messages := messages b; content := Some answer;
     thinking_content := Some thinking; has_db := has_db b;
     session_id := session_id b |}.

(** [Bot.get_thinking] *)
Definition get_thinking (b : bot) : outcome string :=
  match thinking_content b with
  | None =>
      Raise (AttributeError "Call `generate()` first to access thinking content.")
  | Some text => Return text
  end.

(** [Bot.get_content] *)
Definition get_content (b : bot) : outcome string :=
  match content b with
  | None =>
      Raise (AttributeError "Call `generate()` first to access response content.")
  | Some text => Return text
  end.

Section WithEngine.

(** [tokenizer.decode(ids, skip_special_tokens=True)] *)
Variable decode : list Z -> string.

(** [Bot.generate], for a call of [model.generate] that returns the new
    tokens [response_ids].  The result is the object, the database and how
    the call ends.  With a database, the user turn is stored before the
    output is split, and reading [self.session_id] raises when the
    attribute was never set. *)
Definition generate (b : bot) (st : DB.db) (response_ids : list Z)
    : bot * DB.db * outcome unit :=
  if negb (loaded b)
  then (b, st, Raise (RuntimeError "Model is not loaded. Call `load_model()` first."))
  else
    match messages b with
    | [] => (b, st, Raise (AttributeError "Set a prompt first using `prompt()`."))
    | _ :: _ =>
        let b1 := record_turn b "user" (user_input b) in
        let stored :=
          if has_db b then
            match session_id b with
            | None =>
                Raise (AttributeError "'Bot' object has no attribute 'session_id'")
            | Some sid =>
                Return (DB.add_message st sid "user" (user_input b) None).1
            end
          else Return st in
        match stored with
        | Raise e => (b1, st, Raise e)
        | Return st1 =>
            match Splitter.split_output decode response_ids with
            | Raise e => (b1, st1, Raise e)
            | Return (thinking, answer) =>
                let b2 :=
                  set_answer (record_turn b1 "assistant" answer)
                    thinking answer in
                match has_db b, session_id b with
                | true, Some sid =>
                    (b2,
                     (DB.add_message st1 sid "assistant" answer
                        (Some thinking)).1,
                     Return tt)
                | _, _ => (b2, st1, Return tt)
                end
            end
        end
    end.

(** A prompt of the user and the call of [generate] that answers it, as in
    the loop of [bot.py]: [bot.prompt(prompt)], then [bot.generate()]. *)
Definition exchange (s : bot * DB.db) (round : string * list Z)
    : bot * DB.db :=
  (generate (prompt s.1 round.1 "user") s.2 round.2).1.

(** The two entries an exchange adds to the history. *)
Definition transcript (round : string * list Z) : list turn :=
  [{| turn_role := "user"; turn_content := round.1 |};
   {| turn_role := "assistant";
      turn_content :=
        match Splitter.split_output decode round.2 with
        | Return r => r.2
        | Raise _ => EmptyString
        end |}].

End WithEngine.

(** [Bot.start_new_conversation]; [uuid4] is the identifier
    [create_conversation] draws. *)
Definition start_new_conversation (uuid4 : string) (b : bot) (st : DB.db)
    : bot * DB.db * outcome string :=
  if negb (has_db b) then (b, st, Return EmptyString)
  else
    match DB.create_conversation uuid4 st None with
    | (st', Return sid) =>
        ({| loaded := loaded b; history := []; user_input := user_input b;
            messages := messages b; content := content b;
            thinking_content := thinking_content b; has_db := has_db b;
            session_id := Some sid |},
         st', Return sid)
    | (st', Raise e) => (b, st', Raise e)
    end.

(** What [Bot.get_conversation_history] returns: [None] without a database,
    and otherwise [messages or []], where [messages] is the pair
    [get_conversation] returns, or [None]. *)
Inductive history_reply :=
  | NoReply
  | Stored (c : DB.conversation) (rows : list DB.message)
  | EmptyList.

(** [Bot.get_conversation_history] *)
Definition get_conversation_history (b : bot) (st : DB.db) (sid : string)
    : history_reply :=
  if negb (has_db b) then NoReply
  else match DB.get_conversation st sid with
       | Some (c, rows) => Stored c rows
       | None => EmptyList
       end.

(** [Bot.delete_conversation] *)
Definition delete_conversation (b : bot) (st : DB.db) (sid : string)
    : DB.db * bool :=
  if negb (has_db b) then (st, false) else DB.delete_conversation st sid.

End Bot.

(** * The HTTP layer of [api.py] *)
Module Api.

(** ** [worker_process] *)

(** Where the main thread of the worker process stands. *)
Inductive main_pc :=
  | MLoad
  | MGet
  | MPut (chunk : option string)
  | MExcept (error : string)
  | MExceptEnd
  | MReturned
  | MRaised.

(** [f"data: ERROR: {str(e)}\n\n"] *)
Definition error_frame (error : string) : string :=
  "data: ERROR: " +:+ error +:+ LFLF.

Definition main_ended (pc : main_pc) : bool :=
  match pc with MReturned | MRaised => true | _ => false end.

(** ** [event_generator] *)

Inductive exit_reason := SentinelReceived | ProducerGone.

Inductive consumer_pc :=
  | AtCheck
  | AtGet
  | Closed (why : exit_reason).

(** The state of one [event_generator]: where it stands, the responses it
    has yielded, and how many [get] calls have timed out. *)
Record consumer := {
  pc : consumer_pc;
  delivered : list string;
  timeouts : nat
}.

Definition new_consumer : consumer :=
  {| pc := AtCheck; delivered := []; timeouts := 0 |}.

(** [f"{chunk}\\n\\n\n\n"] *)
Definition response (chunk : string) : string :=
  chunk +:+ backslash_n +:+ backslash_n +:+ LFLF.

(** One step of the loop of [event_generator], given [p.is_alive()] and the
    content of [output_queue]:
    [[
    while True:
        if not p.is_alive() and output_queue.empty():
            break
        try:
            chunk = output_queue.get(timeout=0.1)
            if chunk is None:
                break
            response = f"{chunk}\\n\\n\n\n"
            yield response
        except Exception:
            continue
    ]]
    A [get] on an empty queue is the call that waits its 0.1 s and raises
    [Empty]. *)
Definition event_generator_step (alive : bool) (output_queue : Bot.queue)
    (c : consumer) : Bot.queue * consumer :=
  match pc c with
  | AtCheck =>
      if negb alive && bool_decide (output_queue = [])
      then (output_queue,
            {| pc := Closed ProducerGone; delivered := delivered c;
               timeouts := timeouts c |})
      else (output_queue,
            {| pc := AtGet; delivered := delivered c; timeouts := timeouts c |})
  | AtGet =>
      match output_queue with
      | [] =>
          (output_queue,
           {| pc := AtCheck; delivered := delivered c;
              timeouts := S (timeouts c) |})
      | None :: rest =>
          (rest,
           {| pc := Closed SentinelReceived; delivered := delivered c;
              timeouts := timeouts c |})
      | Some chunk :: rest =>
          (rest,
           {| pc := AtCheck; delivered := delivered c ++ [response chunk];
              timeouts := timeouts c |})
      end
  | Closed _ => (output_queue, c)
  end.

Definition closed (c : consumer) : bool :=
  match pc c with Closed _ => true | _ => false end.

(** ** The streaming channel seen from the consumer *)

(** The producer side of [output_queue] as [event_generator] sees it. *)
Record channel := {
  alive : bool;
  pending : Bot.queue;
  reader : consumer
}.

Inductive event :=
  | Push (item : option string)
  | Die
  | Poll.

(** A live producer can put items or die; a dead one does nothing. *)
Definition channel_step (ev : event) (ch : channel) : channel :=
  match ev with
  | Push item =>
      if alive ch
      then {| alive := true; pending := pending ch ++ [item];
              reader := reader ch |}
      else ch
  | Die => {| alive := false; pending := pending ch; reader := reader ch |}
  | Poll =>
      let r := event_generator_step (alive ch) (pending ch) (reader ch) in
      {| alive := alive ch; pending := r.1; reader := r.2 |}
  end.

Definition channel_run (evs : list event) (ch : channel) : channel :=
  foldl (fun ch ev => channel_step ev ch) ch evs.

(** The consumer step that is about to run leaves the loop. *)
Definition exit_enabled (ch : channel) : bool :=
  match pc (reader ch) with
  | AtCheck => negb (alive ch) && bool_decide (pending ch = [])
  | AtGet => bool_decide (head (pending ch) = Some None)
  | Closed _ => false
  end.

(** The number of consumer steps among the events. *)
Fixpoint polls (evs : list event) : nat :=
  match evs with
  | [] => 0
  | Poll :: evs => S (polls evs)
  | _ :: evs => polls evs
  end.

(** Once the producer is dead: a bound on the consumer steps the loop still
    takes before it is left. *)
Definition polls_left (ch : channel) : nat :=
  match pc (reader ch), pending ch with
  | Closed _, _ => 0
  | AtCheck, items => 2 * length items + 1
  | AtGet, [] => 2
  | AtGet, items => 2 * length items
  end.

(** Once the producer is dead: the number of [get] calls that can still time
    out, namely the one that is waiting on the empty queue. *)
Definition timeouts_left (ch : channel) : nat :=
  match pc (reader ch), pending ch with
  | AtGet, [] => 1
  | _, _ => 0
  end.

(** What [worker_process] puts on [output_queue] while [generate_stream]
    reads [items] from the stream queue: a frame per token, and [None] once
    the loop has seen the sentinel. *)
Fixpoint relay (items : Bot.queue) : Bot.queue :=
  match items with
  | [] => []
  | None :: _ => [None]
  | Some token :: rest => Some (Bot.sse_frame token) :: relay rest
  end.

(** What [event_generator] yields while it reads [items] from
    [output_queue]: a response per chunk, up to the first [None]. *)
Fixpoint deliveries (items : Bot.queue) : list string :=
  match items with
  | Some chunk :: rest => response chunk :: deliveries rest
  | None :: _ | [] => []
  end.

(** What holds of the channel from the death of the producer on, when no
    sentinel is pending: the responses yielded and still to yield make up
    [total], and if the loop was left, it was left for the dead producer with
    nothing pending. *)
Definition drained_to (total : list string) (ch : channel) : Prop :=
  alive ch = false /\
  (None ∉ pending ch) /\
  delivered (reader ch) ++ deliveries (pending ch) = total /\
  forall why, pc (reader ch) = Closed why ->
    why = ProducerGone /\ pending ch = [].

(** ** The session-scoped endpoints *)

(** The canonical text of a UUID, 8-4-4-4-12 hexadecimal digits: a sample of
    what [uuid.UUID] accepts. *)
Definition is_hex_digit (c : ascii) : bool :=
  let n := nat_of_ascii c in
  (48 <=? n) && (n <=? 57) || (65 <=? n) && (n <=? 70)
  || (97 <=? n) && (n <=? 102).

Fixpoint canonical_from (i : nat) (s : string) : bool :=
  match s with
  | EmptyString => i =? 36
  | String c rest =>
      (if (i =? 8) || (i =? 13) || (i =? 18) || (i =? 23)
       then Ascii.eqb c "-" else is_hex_digit c)
      && canonical_from (S i) rest
  end.

Definition canonical_uuid (s : string) : bool := canonical_from 0 s.

(** The message of an exception, a sample of [str(e)]. *)
Definition message_of (e : exn) : string :=
  match e with
  | ValueError msg | TypeError msg | RuntimeError msg | AttributeError msg
  | Psycopg2Error msg => msg
  | HTTPException _ detail => detail
  end.

Inductive effect :=
  | StorageAccess
  | ManagerStarted
  | WorkerStarted (session_id prompt : string) (thinking : bool).

Inductive body :=
  | ConversationBody (c : DB.conversation) (messages : list DB.message)
  | TitleUpdated (session_id title : string)
  | ConversationDeleted (session_id : string)
  | MessageAdded (session_id : string)
  | EventStream.

(** What a request leaves behind: the response (or the exception FastAPI
    turns into an error response), the store, and what the handler did. *)
Record reply := {
  result : outcome body;
  store_after : DB.db;
  effects : list effect
}.

Section Endpoints.

(** [uuid.UUID(s)] returns ([true]) or raises [ValueError] ([false]). *)
Variable uuid_ok : string -> bool.
(** [str(e)] *)
Variable str_exn : exn -> string.

(** [[
    try:
        uuid.UUID(session_id)
    except ValueError:
        raise HTTPException(status_code=400, detail="Invalid session ID format")
    ]] *)
Definition validate (session_id : string) : outcome unit :=
  if uuid_ok session_id then Return tt
  else Raise (HTTPException 400 "Invalid session ID format").

(** [[
    except HTTPException:
        raise
    except Exception as e:
        raise HTTPException(status_code=500, detail=str(e))
    ]] *)
Definition except_http_reraise (r : reply) : reply :=
  match result r with
  | Return _ | Raise (HTTPException _ _) => r
  | Raise e =>
      {| result := Raise (HTTPException 500 (str_exn e));
         store_after := store_after r; effects := effects r |}
  end.

(** [[
    except Exception as e:
        raise HTTPException(status_code=500, detail=str(e))
    ]] *)
Definition except_all (r : reply) : reply :=
  match result r with
  | Return _ => r
  | Raise e =>
      {| result := Raise (HTTPException 500 (str_exn e));
         store_after := store_after r; effects := effects r |}
  end.

Definition get_conversation (st : DB.db) (session_id : string) : reply :=
  except_http_reraise
    match validate session_id with
    | Raise e => {| result := Raise e; store_after := st; effects := [] |}
    | Return _ =>
        match DB.get_conversation st session_id with
        | Some (c, messages) =>
            {| result := Return (ConversationBody c messages);
               store_after := st; effects := [StorageAccess] |}
        | None =>
            {| result := Raise (TypeError "cannot unpack non-iterable NoneType object");
               store_after := st; effects := [StorageAccess] |}
        end
    end.

Definition update_conversation_title (st : DB.db) (session_id title : string)
    : reply :=
  except_http_reraise
    match validate session_id with
    | Raise e => {| result := Raise e; store_after := st; effects := [] |}
    | Return _ =>
        let r := DB.update_conversation_title st session_id title in
        {| result :=
             if r.2 then Return (TitleUpdated session_id title)
             else Raise (HTTPException 404 "Conversation not found");
           store_after := r.1; effects := [StorageAccess] |}
    end.

Definition delete_conversation (st : DB.db) (session_id : string) : reply :=
  except_http_reraise
    match validate session_id with
    | Raise e => {| result := Raise e; store_after := st; effects := [] |}
    | Return _ =>
        let r := DB.delete_conversation st session_id in
        {| result :=
             if r.2 then Return (ConversationDeleted session_id)
             else Raise (HTTPException 404 "Conversation not found");
           store_after := r.1; effects := [StorageAccess] |}
    end.

(** The handler calls [app.state.db.add_message(session_id, role, content)]
    without the [reasoning] argument the method requires. *)
Definition add_message (st : DB.db) (session_id role content : string)
    : reply :=
  except_http_reraise
    match validate session_id with
    | Raise e => {| result := Raise e; store_after := st; effects := [] |}
    | Return _ =>
        if String.eqb role "user" || String.eqb role "assistant"
           || String.eqb role "system"
        then {| result := Raise (TypeError "add_message() missing 1 required positional argument: 'reasoning'");
                store_after := st; effects := [] |}
        else {| result := Raise (HTTPException 400 "Invalid role specified");
                store_after := st; effects := [] |}
    end.

Definition stream_response (st : DB.db) (session_id prompt : string)
    (thinking : bool) : reply :=
  except_all
    match validate session_id with
    | Raise e => {| result := Raise e; store_after := st; effects := [] |}
    | Return _ =>
        {| result := Return EventStream; store_after := st;
           effects := [ManagerStarted;
                       WorkerStarted session_id prompt thinking] |}
    end.

End Endpoints.

Section Collection.

(** [str(e)] *)
Variable str_exn : exn -> string.

(** [new_conversation]; [uuid4] is the identifier [create_conversation]
    draws.
    [[
    if not title:
        title = "New Conversation"
    try:
        session_id = app.state.db.create_conversation(initial_prompt=title)
        return {"session_id": session_id, "message": "New conversation created"}
    except Exception as e:
        raise HTTPException(status_code=500, detail=str(e))
    ]] *)
Definition new_conversation (uuid4 : string) (st : DB.db)
    (title : option string) : DB.db * outcome string :=
  let title := match title with
               | None | Some EmptyString => "New Conversation"
               | Some t => t
               end in
  let r := DB.create_conversation uuid4 st (Some title) in
  match r.2 with
  | Return session_id => (r.1, Return session_id)
  | Raise e => (r.1, Raise (HTTPException 500 (str_exn e)))
  end.

(** [get_conversations]: [list_conversations] raises nothing. *)
Definition get_conversations (st : DB.db) (limit offset : Z)
    : outcome (list DB.summary) :=
  Return (DB.list_conversations st limit offset).

End Collection.

End Api.

(** * One streaming request: worker threads, queues, consumer and store *)
Module Session.

(** The request and what its environment does: the outcome of
    [bot.load_model()] ([Some] message when it raises) and the run of the
    engine. *)
Record scenario := {
  session_id : string;
  prompt : string;
  thinking : bool;
  load_error : option string;
  engine : Bot.engine_run
}.

Inductive actor := Generator | Main | Consumer.

(** The state shared by the thread of [run_generate] ([gen_todo]: the steps
    it still has to take), the main thread of [worker_process] ([main]), the
    [event_generator] of the HTTP process ([client]), the two queues and the
    store.  [stream_log] and [output_log] record every item ever put on the
    two queues, oldest first. *)
Record world := {
  gen_todo : list Bot.gen_action;
  stream_queue : Bot.queue;
  stream_log : Bot.queue;
  main : Api.main_pc;
  output_queue : Bot.queue;
  output_log : Bot.queue;
  client : Api.consumer;
  store : DB.db
}.

Definition init (st : DB.db) : world :=
  {| gen_todo := []; stream_queue := []; stream_log := []; main := Api.MLoad;
     output_queue := []; output_log := []; client := Api.new_consumer;
     store := st |}.

(** The items the thread of [run_generate] will still put on the stream
    queue. *)
Fixpoint gen_puts (todo : list Bot.gen_action) : Bot.queue :=
  match todo with
  | [] => []
  | Bot.GPut item :: rest => item :: gen_puts rest
  | _ :: rest => gen_puts rest
  end.

(** The number of steps the main thread takes in a schedule. *)
Fixpoint main_steps (schedule : list actor) : nat :=
  match schedule with
  | [] => 0
  | Main :: rest => S (main_steps rest)
  | _ :: rest => main_steps rest
  end.

(** The number of steps the thread of [run_generate] takes in a schedule. *)
Fixpoint generator_steps (schedule : list actor) : nat :=
  match schedule with
  | [] => 0
  | Generator :: rest => S (generator_steps rest)
  | _ :: rest => generator_steps rest
  end.

(** The steps the thread of [run_generate] takes once it exists: those after
    the first step of the main thread, which starts it
    ([threading.Thread(target=run_generate)], [t.start()]). *)
Fixpoint thread_steps (schedule : list actor) : nat :=
  match schedule with
  | [] => 0
  | Main :: rest => generator_steps rest
  | _ :: rest => thread_steps rest
  end.

(** Once the sentinel is on the stream queue: a bound on the steps the main
    thread of the worker still takes. *)
Definition main_left (w : world) : nat :=
  match main w with
  | Api.MGet => 2 * length (stream_queue w)
  | Api.MPut (Some _) => 1 + 2 * length (stream_queue w)
  | Api.MExcept _ => 2
  | Api.MPut None | Api.MExceptEnd => 1
  | Api.MLoad | Api.MReturned | Api.MRaised => 0
  end.

(** The main thread of the worker has started, and the sentinel is on the
    stream queue if the thread still reads from it. *)
Definition sentinel_ahead (w : world) : Prop :=
  match main w with
  | Api.MLoad => False
  | Api.MGet | Api.MPut (Some _) => None ∈ stream_queue w
  | _ => True
  end.

(** [p.is_alive()]: the process lives until its main thread has ended and
    the (non-daemon) generation thread has ended. *)
Definition worker_alive (w : world) : bool :=
  negb (Api.main_ended (main w) && bool_decide (gen_todo w = [])).

(** The channel as the consumer of this request sees it. *)
Definition view (w : world) : Api.channel :=
  {| Api.alive := worker_alive w; Api.pending := output_queue w;
     Api.reader := client w |}.

Section WithTokenizer.

Variable decode : list Z -> string.
Variable sc : scenario.

(** One step of [run_generate]. *)
Definition run_generate_step (w : world) : world :=
  match gen_todo w with
  | [] => w
  | Bot.GPut item :: rest =>
      {| gen_todo := rest;
         stream_queue := stream_queue w ++ [item];
         stream_log := stream_log w ++ [item];
         main := main w; output_queue := output_queue w;
         output_log := output_log w; client := client w; store := store w |}
  | Bot.GAddUser :: rest =>
      {| gen_todo := rest;
         stream_queue := stream_queue w; stream_log := stream_log w;
         main := main w; output_queue := output_queue w;
         output_log := output_log w; client := client w;
         store := (DB.add_message (store w) (session_id sc) "user"
                     (prompt sc) None).1 |}
  | Bot.GAddAssistant response_ids :: rest =>
      match Splitter.split_output decode response_ids with
      | Return (thinking_content, content) =>
          {| gen_todo := rest;
             stream_queue := stream_queue w; stream_log := stream_log w;
             main := main w; output_queue := output_queue w;
             output_log := output_log w; client := client w;
             store := (DB.add_message (store w) (session_id sc) "assistant"
                         content (Some thinking_content)).1 |}
      | Raise _ =>
          {| gen_todo := [];
             stream_queue := stream_queue w; stream_log := stream_log w;
             main := main w; output_queue := output_queue w;
             output_log := output_log w; client := client w;
             store := store w |}
      end
  end.

Definition set_main (w : world) (pc : Api.main_pc) : world :=
  {| gen_todo := gen_todo w; stream_queue := stream_queue w;
     stream_log := stream_log w; main := pc;
     output_queue := output_queue w; output_log := output_log w;
     client := client w; store := store w |}.

(** [output_queue.put(chunk)], after which the main thread is at [pc]. *)
Definition put_output (w : world) (chunk : option string)
    (pc : Api.main_pc) : world :=
  {| gen_todo := gen_todo w; stream_queue := stream_queue w;
     stream_log := stream_log w; main := pc;
     output_queue := output_queue w ++ [chunk];
     output_log := output_log w ++ [chunk];
     client := client w; store := store w |}.

(** One step of the main thread of [worker_process]:
    [[
    try:
        if not bot.model or not bot.tokenizer:
            bot.load_model()
        ...
        for chunk in bot.generate_stream(stream_queue, thinking):
            output_queue.put(chunk)
        output_queue.put(None)  # Signal done
    except Exception as e:
        output_queue.put(f"data: ERROR: {str(e)}\n\n")
        output_queue.put(None)
        raise
    ]]
    with the loop of [generate_stream], which starts the thread of
    [run_generate] and then reads the stream queue:
    [[
    while True:
        token = q.get()
        if token is None:
            break
        text = token.replace("\n", "\\n")
        yield f"data: {text}\n\n"
    ]]
    A [q.get()] on an empty queue blocks: the step changes nothing. *)
Definition worker_process_step (w : world) : world :=
  match main w with
  | Api.MLoad =>
      match load_error sc with
      | Some error => set_main w (Api.MExcept error)
      | None =>
          {| gen_todo := Bot.run_generate (engine sc);
             stream_queue := stream_queue w; stream_log := stream_log w;
             main := Api.MGet;
             output_queue := output_queue w; output_log := output_log w;
             client := client w; store := store w |}
      end
  | Api.MGet =>
      match stream_queue w with
      | [] => w
      | token :: rest =>
          {| gen_todo := gen_todo w; stream_queue := rest;
             stream_log := stream_log w;
             main := Api.MPut (Bot.sse_frame <$> token);
             output_queue := output_queue w; output_log := output_log w;
             client := client w; store := store w |}
      end
  | Api.MPut (Some chunk) => put_output w (Some chunk) Api.MGet
  | Api.MPut None => put_output w None Api.MReturned
  | Api.MExcept error =>
      put_output w (Some (Api.error_frame error)) Api.MExceptEnd
  | Api.MExceptEnd => put_output w None Api.MRaised
  | Api.MReturned | Api.MRaised => w
  end.

(** One step of [event_generator] in the HTTP process. *)
Definition client_step (w : world) : world :=
  let r := Api.event_generator_step (worker_alive w) (output_queue w)
             (client w) in
  {| gen_todo := gen_todo w; stream_queue := stream_queue w;
     stream_log := stream_log w; main := main w;
     output_queue := r.1; output_log := output_log w;
     client := r.2; store := store w |}.

Definition step (w : world) (a : actor) : world :=
  match a with
  | Generator => run_generate_step w
  | Main => worker_process_step w
  | Consumer => client_step w
  end.

(** The state after the actors have taken their steps in the order of the
    schedule. *)
Definition run (schedule : list actor) (w : world) : world :=
  foldl step w schedule.

(** Everything the worker puts on [output_queue] in a run that is not
    cut short. *)
Definition channel_contents : Bot.queue :=
  match load_error sc with
  | Some error => [Some (Api.error_frame error); None]
  | None => Api.relay (Bot.streamed (Bot.calls_of (engine sc)))
  end.

(** What the main thread of the worker will still put on [output_queue]. *)
Definition main_rest (w : world) : Bot.queue :=
  match main w with
  | Api.MLoad => channel_contents
  | Api.MGet => Api.relay (stream_queue w ++ gen_puts (gen_todo w))
  | Api.MPut (Some chunk) =>
      Some chunk :: Api.relay (stream_queue w ++ gen_puts (gen_todo w))
  | Api.MPut None => [None]
  | Api.MExcept error => [Some (Api.error_frame error); None]
  | Api.MExceptEnd => [None]
  | Api.MReturned | Api.MRaised => []
  end.

(** The invariant of the relay: what was put on [output_queue] and what
    will still be put make up [channel_contents]; what the consumer has
    yielded and what it will still yield make up the deliveries of
    [channel_contents]; the pending items were put; the main thread ends,
    and the consumer leaves its loop, only after the sentinel was put. *)
Definition relay_inv (w : world) : Prop :=
  output_log w ++ main_rest w = channel_contents
  /\ (main w = Api.MLoad ->
      gen_todo w = [] /\ stream_queue w = [] /\ output_log w = [])
  /\ (if Api.closed (client w)
      then Api.delivered (client w) = Api.deliveries channel_contents
      else Api.delivered (client w)
           ++ Api.deliveries (output_queue w ++ main_rest w)
           = Api.deliveries channel_contents)
  /\ (forall item, item ∈ output_queue w -> item ∈ output_log w)
  /\ (Api.main_ended (main w) = true -> None ∈ output_log w)
  /\ (Api.closed (client w) = true -> None ∈ output_log w).

(** The store once the user turn of the request is written to [st0], and
    once the assistant turn is written after it. *)
Definition store_after_user (st0 : DB.db) : DB.db :=
  (DB.add_message st0 (session_id sc) "user" (prompt sc) None).1.

Definition store_after_assistant (st0 : DB.db) (response_ids : list Z)
    : DB.db :=
  match Splitter.split_output decode response_ids with
  | Return (thinking_content, content) =>
      (DB.add_message (store_after_user st0) (session_id sc) "assistant"
         content (Some thinking_content)).1
  | Raise _ => store_after_user st0
  end.

(** What [run_generate] does once [model.generate] is over. *)
Definition after_generate (e : Bot.engine_run) : list Bot.gen_action :=
  match e with
  | Bot.Completes _ response_ids =>
      [Bot.GAddUser; Bot.GAddAssistant response_ids]
  | Bot.Fails _ _ => []
  end.

(** The invariant of the persistence, for a request that starts on the store
    [st0]: the store is untouched while the thread of [run_generate] has not
    started or is still streaming; it holds the user turn, and then both
    turns, only once everything was streamed and the engine has completed. *)
Definition persist_inv (st0 : DB.db) (w : world) : Prop :=
  (store w = st0 /\
   ((gen_todo w = [] /\ stream_log w = []
     /\ (main w = Api.MLoad \/ load_error sc <> None))
    \/ (main w <> Api.MLoad /\ load_error sc = None /\
        exists items,
          stream_log w ++ items = Bot.streamed (Bot.calls_of (engine sc))
          /\ gen_todo w = map Bot.GPut items ++ after_generate (engine sc))))
  \/ (exists calls response_ids,
        engine sc = Bot.Completes calls response_ids
        /\ load_error sc = None
        /\ main w <> Api.MLoad
        /\ stream_log w = Bot.streamed calls
        /\ ((store w = store_after_user st0
             /\ gen_todo w = [Bot.GAddAssistant response_ids])
            \/ (store w = store_after_assistant st0 response_ids
                /\ gen_todo w = []))).

(** The row [add_message] stores for the user turn at time [t]. *)
Definition user_row (t : nat) : DB.message :=
  {| DB.session_id := session_id sc; DB.role := "user";
     DB.content := prompt sc; DB.reasoning := EmptyString;
     DB.timestamp := t |}.

(** The row [add_message] stores for the assistant turn at time [t], from
    the full output [response_ids]. *)
Definition assistant_row (response_ids : list Z) (t : nat) : DB.message :=
  {| DB.session_id := session_id sc; DB.role := "assistant";
     DB.content :=
       match Splitter.split_output decode response_ids with
       | Return r => r.2
       | Raise _ => EmptyString
       end;
     DB.reasoning :=
       match Splitter.split_output decode response_ids with
       | Return r => r.1
       | Raise _ => EmptyString
       end;
     DB.timestamp := t |}.

End WithTokenizer.

End Session.

(** * Properties of the content splitter *)

Import Splitter.

Lemma elem_of_rev (x : Z) (l : list Z) : x ∈ rev l <-> x ∈ l.
Proof. rewrite !list_elem_of_In. symmetry. apply in_rev. Qed.

Lemma py_index_app_r x l1 l2 :
  x ∉ l1 -> py_index x (l1 ++ x :: l2) = Return (length l1).
Proof.
  induction l1 as [|y l1 IH]; intros Hnot; simpl.
  - by rewrite Z.eqb_refl.
  - apply not_elem_of_cons in Hnot as [Hne Hnot].
    destruct (Z.eqb_spec y x) as [->|_]; [done|].
    by rewrite IH.
Qed.

Lemma py_index_absent x l :
  x ∉ l -> exists msg, py_index x l = Raise (ValueError msg).
Proof.
  induction l as [|y l IH]; intros Hnot; simpl; [by eexists|].
  apply not_elem_of_cons in Hnot as [Hne Hnot].
  destruct (Z.eqb_spec y x) as [->|_]; [done|].
  destruct (IH Hnot) as [msg ->]. by eexists.
Qed.

(** Every list that holds the marker has a last marker, and the list splits
    around it. *)
Lemma last_occurrence (x : Z) (l : list Z) :
  x ∈ l -> exists l1 l2, l = l1 ++ x :: l2 /\ x ∉ l2.
Proof.
  induction l as [|y l IH]; intros Hin; [by apply elem_of_nil in Hin|].
  destruct (decide (x ∈ l)) as [Hl|Hl].
  - destruct (IH Hl) as (l1 & l2 & -> & Hnot). by exists (y :: l1), l2.
  - apply elem_of_cons in Hin as [->|Hin]; [|done]. by exists [], l.
Qed.

Lemma last_marker_split ids p :
  last_marker_at ids p ->
  ids = take p ids ++ END_OF_REASONING :: drop (S p) ids /\
  END_OF_REASONING ∉ drop (S p) ids.
Proof.
  intros [Hp Hlast]. split.
  - by rewrite <-(take_drop_middle ids p END_OF_REASONING) at 1.
  - intros Hin. apply list_elem_of_lookup in Hin as [i Hi].
    rewrite lookup_drop in Hi. apply (Hlast (S p + i)); [lia|done].
Qed.

Lemma split_index_last_marker ids p :
  last_marker_at ids p ->
  py_index END_OF_REASONING (rev ids) = Return (length ids - 1 - p) /\
  split_index ids = Return (S p).
Proof.
  intros Hp. pose proof Hp as [Hlook _].
  apply lookup_lt_Some in Hlook.
  destruct (last_marker_split ids p Hp) as [Heq Hnot].
  assert (Hidx : py_index END_OF_REASONING (rev ids)
                 = Return (length ids - 1 - p)).
  { rewrite Heq at 1. rewrite rev_app_distr. simpl. rewrite <-app_assoc. simpl.
    rewrite py_index_app_r.
    - rewrite length_rev, length_drop. f_equal. lia.
    - by rewrite elem_of_rev. }
  split; [done|]. unfold split_index. rewrite Hidx. f_equal. lia.
Qed.

(** C1. When the end-of-reasoning marker (151668) occurs in the raw output,
    it has a last occurrence at some position [p]; the reverse scan finds it
    at reverse index [r = length - 1 - p], the split index is
    [length - r = p + 1], the reasoning text is the decoding of the tokens
    [0..p] and the answer text is the decoding of the tokens after [p]. *)
Theorem split_at_last_marker (decode : list Z -> string) (ids : list Z) :
  END_OF_REASONING ∈ ids ->
  exists p r,
    last_marker_at ids p /\
    py_index END_OF_REASONING (rev ids) = Return r /\
    r = length ids - 1 - p /\
    split_index ids = Return (length ids - r) /\
    length ids - r = p + 1 /\
    split_output decode ids
    = Return (strip_newlines (decode (take (p + 1) ids)),
              strip_newlines (decode (drop (p + 1) ids))).
Proof.
  intros Hin.
  destruct (last_occurrence _ _ Hin) as (l1 & l2 & Heq & Hnot).
  assert (Hp : last_marker_at ids (length l1)).
  { split.
    - rewrite Heq. by apply list_lookup_middle.
    - intros q Hq Hlook. apply Hnot. apply list_elem_of_lookup.
      exists (q - S (length l1)). rewrite Heq in Hlook.
      rewrite lookup_app_r in Hlook by lia.
      replace (q - length l1) with (S (q - S (length l1))) in Hlook by lia.
      done. }
  destruct (split_index_last_marker ids _ Hp) as [Hidx Hsplit].
  assert (Hlen : length l1 < length ids).
  { rewrite Heq, length_app. simpl. lia. }
  exists (length l1), (length ids - 1 - length l1).
  split; [exact Hp|]. split; [exact Hidx|]. split; [reflexivity|].
  split; [rewrite Hsplit; f_equal; lia|]. split; [lia|].
  unfold split_output. rewrite Hsplit.
  by replace (length l1 + 1) with (S (length l1)) by lia.
Qed.

Lemma split_at_last_marker_witness :
  exists p r,
    last_marker_at [5; 151668; 7; 151668; 9]%Z p /\
    py_index END_OF_REASONING (rev [5; 151668; 7; 151668; 9]%Z) = Return r /\
    r = length [5; 151668; 7; 151668; 9]%Z - 1 - p /\
    split_index [5; 151668; 7; 151668; 9]%Z
    = Return (length [5; 151668; 7; 151668; 9]%Z - r) /\
    length [5; 151668; 7; 151668; 9]%Z - r = p + 1 /\
    split_output (fun _ => EmptyString) [5; 151668; 7; 151668; 9]%Z
    = Return (strip_newlines EmptyString, strip_newlines EmptyString).
Proof.
  apply (split_at_last_marker (fun _ => EmptyString) [5; 151668; 7; 151668; 9]%Z).
  unfold END_OF_REASONING. apply list_elem_of_In. simpl. tauto.
Defined.

(** C2. When the marker does not occur in the raw output, the lookup's
    [ValueError] is caught: the split index is 0, the reasoning text is the
    (stripped) decoding of no token, which is empty for a tokenizer that
    decodes the empty sequence to the empty string, and the answer text is
    the decoding of the whole sequence.  The splitter returns; it does not
    raise. *)
Theorem split_without_marker (decode : list Z -> string) (ids : list Z) :
  END_OF_REASONING ∉ ids ->
  decode [] = EmptyString ->
  split_index ids = Return 0 /\
  split_output decode ids = Return (EmptyString, strip_newlines (decode ids)).
Proof.
  intros Hnot Hdec.
  assert (Hidx : split_index ids = Return 0).
  { unfold split_index.
    destruct (py_index_absent END_OF_REASONING (rev ids)) as [msg ->]; [|done].
    by rewrite elem_of_rev. }
  split; [done|].
  unfold split_output. rewrite Hidx, take_0, drop_0, Hdec. done.
Qed.

Lemma split_without_marker_witness :
  split_index [1; 2; 3]%Z = Return 0 /\
  split_output (fun ids => match ids with [] => EmptyString | _ => "ok" end)
               [1; 2; 3]%Z
  = Return (EmptyString, strip_newlines "ok").
Proof.
  apply split_without_marker; [|reflexivity].
  unfold END_OF_REASONING. rewrite list_elem_of_In. simpl. lia.
Defined.

(** * Properties of the conversation store *)

Lemma string_length_append (a b : string) :
  String.length (a +:+ b) = String.length a + String.length b.
Proof. induction a as [|c a IH]; [done|]. simpl. by rewrite <-IH. Qed.

Lemma string_length_prefix (n : nat) (s : string) :
  n <= String.length s -> String.length (String.substring 0 n s) = n.
Proof.
  revert s. induction n as [|n IH]; intros s Hle.
  - by destruct s.
  - destruct s as [|c s]; simpl in *; [lia|]. rewrite IH; [done|lia].
Qed.

Lemma derived_title_length (s : string) :
  String.length (DB.derived_title s)
  = if 100 <? String.length s then 103 else String.length s.
Proof.
  unfold DB.derived_title. destruct (Nat.ltb_spec 100 (String.length s)); [|done].
  rewrite string_length_append, string_length_prefix by lia. done.
Qed.

Lemma derived_title_fits (s : string) :
  (255 <? String.length (DB.derived_title s)) = false.
Proof.
  apply Nat.ltb_ge. rewrite derived_title_length.
  destruct (Nat.ltb_spec 100 (String.length s)); lia.
Qed.

Lemma count_messages_snoc (st : DB.db) (sid : string) (m : DB.message) :
  DB.session_id m = sid ->
  DB.count_messages
    (DB.set_conversation_details st (DB.conversation_details st ++ [m])) sid
  = S (DB.count_messages st sid).
Proof.
  intros Hm. unfold DB.count_messages. simpl.
  rewrite filter_app, length_app, filter_cons_True by done. simpl. lia.
Qed.

Lemma update_title_stored (st : DB.db) (sid t : string) :
  DB.stored_title (DB.update_conversation_title st sid t).1 sid
  = if DB.connection st
    then (fun _ => DB.fitted_title t) <$> DB.stored_title st sid
    else DB.stored_title st sid.
Proof.
  unfold DB.update_conversation_title, DB.stored_title.
  destruct (DB.connection st); simpl; [|done].
  destruct (DB.conversations st !! sid) as [c|] eqn:Hc; simpl.
  - by rewrite lookup_insert_eq.
  - by rewrite Hc.
Qed.

(** C10. [update_conversation_title] never rejects a long title: it reports
    success exactly when it is connected and the session exists, and the
    title it then stores is the given one when that has at most 255
    characters, and otherwise its first 252 characters followed by ["..."],
    which makes exactly 255 characters. *)
Theorem title_update_truncates (st : DB.db) (sid t : string) :
  let r := DB.update_conversation_title st sid t in
  let stored :=
    if 255 <? String.length t then String.substring 0 252 t +:+ "..." else t in
  r.2 = DB.connection st && bool_decide (is_Some (DB.conversations st !! sid))
  /\ DB.stored_title r.1 sid
     = (if DB.connection st then (fun _ => stored) <$> DB.stored_title st sid
        else DB.stored_title st sid)
  /\ String.length stored
     = (if 255 <? String.length t then 255 else String.length t).
Proof.
  simpl. split; [|split].
  - unfold DB.update_conversation_title.
    destruct (DB.connection st); simpl; [|done].
    by destruct (DB.conversations st !! sid).
  - apply update_title_stored.
  - destruct (Nat.ltb_spec 255 (String.length t)); [|done].
    rewrite string_length_append, string_length_prefix by lia. done.
Qed.

Lemma add_message_title (st : DB.db) (sid role content : string)
    (reasoning : option string) :
  DB.stored_title (DB.add_message st sid role content reasoning).1 sid
  = if DB.connection st && DB.insert_accepted st sid role
       && String.eqb role "user" && (DB.count_messages st sid =? 0)
    then Some (DB.derived_title content)
    else DB.stored_title st sid.
Proof.
  unfold DB.add_message.
  destruct (DB.connection st) eqn:Hconn; simpl; [|done].
  destruct (DB.insert_accepted st sid role) eqn:Hacc; simpl; [|done].
  destruct (String.eqb role "user") eqn:Hrole; simpl; [|done].
  rewrite count_messages_snoc by done.
  destruct (Nat.eqb_spec (DB.count_messages st sid) 0) as [->|Hne]; simpl.
  - pose proof (update_title_stored
      (DB.set_conversation_details st
         (DB.conversation_details st ++
            [{| DB.session_id := sid; DB.role := role; DB.content := content;
                DB.reasoning := default EmptyString reasoning;
                DB.timestamp := DB.now st |}]))
      sid (DB.derived_title content)) as Hup.
    simpl in Hup. rewrite Hconn in Hup.
    unfold DB.stored_title in *. simpl. rewrite Hup.
    unfold DB.fitted_title. rewrite derived_title_fits.
    unfold DB.insert_accepted in Hacc. apply andb_prop in Hacc as [Hsome _].
    apply bool_decide_eq_true in Hsome as [c Hc]. simpl. by rewrite Hc.
  - destruct (DB.count_messages st sid) as [|n]; [done|]. done.
Qed.

(** C9 (as the code has it). The derived title is the input when that has at
    most 100 characters and otherwise its first 100 characters followed by
    ["..."], 103 characters in all.  [create_conversation] stores the title
    derived from its prompt, where a missing or empty prompt counts as
    ["New Conversation"].  [add_message] replaces the title of the
    conversation by the title derived from the content exactly when the
    message is accepted, has role user and is the first message of the
    conversation, whatever the title was before; in every other case the
    title stays. *)
Theorem title_derivation (st : DB.db) (uuid4 sid role content s : string)
    (p reasoning : option string) :
  DB.derived_title s
  = (if 100 <? String.length s then String.substring 0 100 s +:+ "..." else s)
  /\ String.length (DB.derived_title s)
     = (if 100 <? String.length s then 103 else String.length s)
  /\ DB.stored_title (DB.create_conversation uuid4 st p).1 uuid4
     = (if DB.connection st
           && bool_decide (DB.conversations st !! uuid4 = None)
        then Some (DB.derived_title (DB.prompt_or_default p))
        else DB.stored_title st uuid4)
  /\ DB.stored_title (DB.add_message st sid role content reasoning).1 sid
     = (if DB.connection st && DB.insert_accepted st sid role
           && String.eqb role "user" && (DB.count_messages st sid =? 0)
        then Some (DB.derived_title content)
        else DB.stored_title st sid).
Proof.
  split; [done|]. split; [apply derived_title_length|].
  split; [|apply add_message_title].
  unfold DB.create_conversation, DB.stored_title.
  destruct (DB.connection st); simpl; [|done].
  destruct (DB.conversations st !! uuid4) as [c|] eqn:Hc; simpl.
  - by rewrite Hc.
  - by rewrite lookup_insert_eq.
Qed.

(** C9, as stated, fails: a title that was set explicitly is replaced when
    the first user message arrives, and an empty initial prompt is not kept
    as the title. *)
Lemma explicit_title_overwritten :
  let st1 := (DB.create_conversation "s1" DB.empty_db None).1 in
  let st2 := (DB.update_conversation_title st1 "s1" "Pinned title").1 in
  let st3 := (DB.add_message st2 "s1" "user" "hello" None).1 in
  DB.stored_title st2 "s1" = Some "Pinned title"
  /\ DB.stored_title st3 "s1" = Some "hello"
  /\ DB.stored_title
       (DB.create_conversation "s2" DB.empty_db (Some EmptyString)).1 "s2"
     = Some "New Conversation".
Proof. vm_compute. done. Qed.

(** * Properties of the wire framing *)

Lemma string_app_cons (x : ascii) (a b : string) :
  String x a +:+ b = String x (a +:+ b).
Proof. reflexivity. Qed.

Lemma string_app_assoc (a b c : string) : (a +:+ b) +:+ c = a +:+ b +:+ c.
Proof.
  induction a as [|x a IH]; [done|]. by rewrite !string_app_cons, IH.
Qed.

Lemma has_newline_app (a b : string) :
  has_newline (a +:+ b) = has_newline a || has_newline b.
Proof.
  induction a as [|c a IH]; [done|].
  rewrite string_app_cons. simpl. by rewrite IH, orb_assoc.
Qed.

Lemma escape_newlines_app (a b : string) :
  Bot.escape_newlines (a +:+ b)
  = Bot.escape_newlines a +:+ Bot.escape_newlines b.
Proof.
  induction a as [|c a IH]; [done|].
  rewrite string_app_cons. simpl. rewrite IH.
  destruct (Ascii.eqb c LF); [|done].
  by rewrite string_app_assoc.
Qed.

Lemma escape_newlines_clean (token : string) :
  has_newline (Bot.escape_newlines token) = false.
Proof.
  induction token as [|c token IH]; simpl; [done|].
  destruct (Ascii.eqb c LF) eqn:Hc; simpl; [done|]. by rewrite Hc.
Qed.

Lemma split_lines_clean (a : string) :
  has_newline a = false -> split_lines a = [a].
Proof.
  induction a as [|c a IH]; simpl; [done|]. intros Hno.
  apply orb_false_iff in Hno as [-> Ha]. by rewrite IH.
Qed.

Lemma split_lines_break (a b : string) :
  has_newline a = false ->
  split_lines (a +:+ String LF b) = a :: split_lines b.
Proof.
  induction a as [|c a IH]; [done|]. rewrite string_app_cons. simpl.
  intros Hno. apply orb_false_iff in Hno as [-> Ha]. by rewrite IH.
Qed.

(** [worker_process] relays the frames [generate_stream] yields, and then
    the sentinel if the loop of [generate_stream] has ended. *)
Lemma relay_generate_stream (items : list (option string)) :
  Api.relay items
  = map Some (Bot.generate_stream items)
    ++ (if bool_decide (None ∈ items) then [None] else []).
Proof.
  induction items as [|[token|] items IH].
  - done.
  - change (Api.relay (Some token :: items))
      with (Some (Bot.sse_frame token) :: Api.relay items).
    change (Bot.generate_stream (Some token :: items))
      with (Bot.sse_frame token :: Bot.generate_stream items).
    assert (bool_decide (None ∈ Some token :: items)
            = bool_decide (None ∈ items)) as ->.
    { apply bool_decide_ext. rewrite elem_of_cons.
      split; [by intros [?|?]|by right]. }
    by rewrite IH.
  - rewrite bool_decide_eq_true_2; [done|]. by left.
Qed.

Lemma generate_stream_texts (texts : list string) (rest : Bot.queue) :
  Bot.generate_stream (map Some texts ++ None :: rest)
  = map Bot.sse_frame texts.
Proof. induction texts as [|t texts IH]; simpl; [done|]. by rewrite IH. Qed.

Lemma deliveries_relay_texts (texts : list string) (rest : Bot.queue) :
  Api.deliveries (Api.relay (map Some texts ++ None :: rest))
  = map (fun t => Api.response (Bot.sse_frame t)) texts.
Proof. induction texts as [|t texts IH]; simpl; [done|]. by rewrite IH. Qed.

(** * Properties of the consumer loop *)

Lemma channel_run_cons ev evs ch :
  Api.channel_run (ev :: evs) ch = Api.channel_run evs (Api.channel_step ev ch).
Proof. reflexivity. Qed.

Lemma channel_run_app evs1 evs2 ch :
  Api.channel_run (evs1 ++ evs2) ch
  = Api.channel_run evs2 (Api.channel_run evs1 ch).
Proof. apply foldl_app. Qed.

(** A step leaves the loop exactly when it is a consumer step whose exit
    condition holds. *)
Lemma channel_step_closed ev ch :
  Api.closed (Api.reader (Api.channel_step ev ch))
  = Api.closed (Api.reader ch)
    || (match ev with Api.Poll => true | _ => false end && Api.exit_enabled ch).
Proof.
  destruct ch as [al q [pc dl tm]].
  destruct ev as [item| |]; simpl.
  - destruct al; simpl; by rewrite orb_false_r.
  - by rewrite orb_false_r.
  - unfold Api.event_generator_step, Api.exit_enabled, Api.closed. simpl.
    destruct pc as [| |why]; simpl.
    + by destruct (negb al && bool_decide (q = [])).
    + destruct q as [|[chunk|] q]; simpl; try done.
    + done.
Qed.

Lemma channel_run_closed_stable evs ch :
  Api.closed (Api.reader ch) = true ->
  Api.closed (Api.reader (Api.channel_run evs ch)) = true.
Proof.
  revert ch. induction evs as [|ev evs IH]; intros ch Hc; [done|].
  rewrite channel_run_cons. apply IH. by rewrite channel_step_closed, Hc.
Qed.

Lemma channel_run_closed evs ch :
  Api.closed (Api.reader (Api.channel_run evs ch)) = true <->
  Api.closed (Api.reader ch) = true \/
  exists evs1 evs2,
    evs = evs1 ++ Api.Poll :: evs2 /\
    Api.exit_enabled (Api.channel_run evs1 ch) = true.
Proof.
  split.
  - revert ch. induction evs as [|ev evs IH]; intros ch Hc; [by left|].
    rewrite channel_run_cons in Hc. destruct (IH _ Hc) as [Hs|Hs].
    + rewrite channel_step_closed in Hs.
      apply orb_true_iff in Hs as [Hs|Hs]; [by left|].
      apply andb_true_iff in Hs as [Hev Hen]. right.
      exists [], evs. by destruct ev.
    + destruct Hs as (evs1 & evs2 & -> & Hen). right.
      by exists (ev :: evs1), evs2.
  - intros [Hc|(evs1 & evs2 & -> & Hen)].
    + by apply channel_run_closed_stable.
    + rewrite channel_run_app, channel_run_cons.
      apply channel_run_closed_stable.
      rewrite channel_step_closed, Hen. apply orb_true_r.
Qed.

Lemma dead_step_progress ev ch :
  Api.alive ch = false ->
  (Api.alive (Api.channel_step ev ch) = false /\
   Api.polls_left (Api.channel_step ev ch) + Api.polls [ev]
   <= Api.polls_left ch)
  \/ Api.polls_left ch = 0.
Proof.
  destruct ch as [al q [pc dl tm]]. simpl. intros ->.
  destruct ev as [item| |]; unfold Api.polls_left; simpl.
  - left. split; [done|lia].
  - left. split; [done|lia].
  - destruct pc as [| |why]; simpl.
    + left. split; [done|]. destruct q as [|x q]; simpl; lia.
    + left. split; [done|]. destruct q as [|[chunk|] [|y q]]; simpl; lia.
    + by right.
Qed.

Lemma dead_run_closes evs ch :
  Api.alive ch = false ->
  Api.polls_left ch <= Api.polls evs ->
  Api.closed (Api.reader (Api.channel_run evs ch)) = true.
Proof.
  revert ch. induction evs as [|ev evs IH]; intros ch Hdead Hle.
  - simpl in Hle. destruct ch as [al q [pc dl tm]].
    unfold Api.polls_left in Hle. simpl in *.
    destruct pc as [| |why]; [lia| |done].
    destruct q; simpl in Hle; lia.
  - rewrite channel_run_cons.
    destruct (dead_step_progress ev ch Hdead) as [[Hdead' Hstep]|Hzero].
    + apply IH; [done|].
      assert (Api.polls (ev :: evs) = Api.polls [ev] + Api.polls evs)
        by (by destruct ev).
      lia.
    + apply channel_run_closed_stable. rewrite channel_step_closed.
      destruct ch as [al q [pc dl tm]]. unfold Api.polls_left in Hzero.
      simpl in *. destruct pc as [| |why]; [lia| |done].
      destruct q; simpl in Hzero; lia.
Qed.

Lemma dead_run_timeouts evs ch :
  Api.alive ch = false ->
  Api.timeouts (Api.reader (Api.channel_run evs ch))
  <= Api.timeouts (Api.reader ch) + Api.timeouts_left ch.
Proof.
  revert ch. induction evs as [|ev evs IH]; intros ch Hdead; [simpl; lia|].
  rewrite channel_run_cons.
  assert (Hstep : Api.alive (Api.channel_step ev ch) = false /\
    Api.timeouts (Api.reader (Api.channel_step ev ch))
    + Api.timeouts_left (Api.channel_step ev ch)
    <= Api.timeouts (Api.reader ch) + Api.timeouts_left ch).
  { destruct ch as [al q [pc dl tm]]. simpl in Hdead. subst al.
    destruct ev as [item| |]; unfold Api.timeouts_left; simpl; [done|done|].
    split; [done|].
    destruct pc as [| |why]; simpl; [|destruct q as [|[chunk|] q]; simpl|lia].
    - destruct q; simpl; lia.
    - lia.
    - destruct q; simpl; lia.
    - lia. }
  destruct Hstep as [Hdead' Hstep]. specialize (IH _ Hdead'). lia.
Qed.

Lemma drained_step total ev ch :
  Api.drained_to total ch -> Api.drained_to total (Api.channel_step ev ch).
Proof.
  destruct ch as [al q [pc dl tm]]. unfold Api.drained_to. simpl.
  intros (-> & Hnone & Htot & Hwhy).
  destruct ev as [item| |]; simpl; [done|done|].
  destruct pc as [| |why]; simpl.
  - destruct q as [|x q]; simpl; [|done].
    split; [done|]. split; [done|]. split; [done|].
    intros why [= <-]. done.
  - destruct q as [|[chunk|] q]; simpl.
    + split; [done|]. split; [done|]. split; [done|]. done.
    + apply not_elem_of_cons in Hnone as [_ Hnone].
      split; [done|]. split; [done|]. split; [|done].
      by rewrite <-app_assoc.
    + exfalso. apply Hnone. by left.
  - done.
Qed.

Lemma drained_run total evs ch :
  Api.drained_to total ch -> Api.drained_to total (Api.channel_run evs ch).
Proof.
  revert ch. induction evs as [|ev evs IH]; intros ch H; [done|].
  rewrite channel_run_cons. by apply IH, drained_step.
Qed.

(** C3. The loop of [event_generator] is left exactly at a consumer step that
    receives the sentinel or finds the producer dead and the queue empty,
    whatever the producer does in between.  When the producer dies with no
    sentinel pending, the loop is left for the dead producer after at most
    [2 * pending + 2] further consumer steps; every pending chunk is
    delivered first, in order, and at most one more [get] times out (one
    poll interval: the [get] that was already waiting on the empty queue). *)
Theorem consumer_loop_termination (evs : list Api.event) (ch : Api.channel) :
  (Api.closed (Api.reader (Api.channel_run evs ch)) = true <->
   Api.closed (Api.reader ch) = true \/
   exists evs1 evs2,
     evs = evs1 ++ Api.Poll :: evs2 /\
     Api.exit_enabled (Api.channel_run evs1 ch) = true)
  /\ (Api.closed (Api.reader ch) = false ->
      None ∉ Api.pending ch ->
      2 * length (Api.pending ch) + 2 <= Api.polls evs ->
      let after := Api.channel_run evs (Api.channel_step Api.Die ch) in
      Api.pc (Api.reader after) = Api.Closed Api.ProducerGone
      /\ Api.timeouts (Api.reader after) <= Api.timeouts (Api.reader ch) + 1
      /\ Api.delivered (Api.reader after)
         = Api.delivered (Api.reader ch) ++ Api.deliveries (Api.pending ch)).
Proof.
  split; [apply channel_run_closed|].
  intros Hopen Hnone Hpolls after.
  set (dead := Api.channel_step Api.Die ch) in *.
  assert (Hdead : Api.alive dead = false) by done.
  assert (Hclosed : Api.closed (Api.reader after) = true).
  { apply dead_run_closes; [done|]. subst dead.
    destruct ch as [al q [pc dl tm]]. unfold Api.polls_left. simpl in *.
    destruct pc as [| |why]; [lia| |lia]. destruct q; simpl in *; lia. }
  assert (Hinv : Api.drained_to
            (Api.delivered (Api.reader ch) ++ Api.deliveries (Api.pending ch))
            after).
  { apply drained_run. split; [done|]. split; [done|]. split; [done|].
    intros why Hwhy. simpl in Hwhy. unfold Api.closed in Hopen.
    by rewrite Hwhy in Hopen. }
  destruct Hinv as (_ & _ & Htot & Hwhy).
  unfold Api.closed in Hclosed.
  destruct (Api.pc (Api.reader after)) as [| |why] eqn:Hpc; [done|done|].
  destruct (Hwhy why eq_refl) as [-> Hempty].
  split; [done|]. split.
  - pose proof (dead_run_timeouts evs dead Hdead) as Ht. fold after in Ht.
    assert (Api.timeouts_left dead <= 1).
    { unfold Api.timeouts_left. repeat case_match; lia. }
    simpl in Ht. lia.
  - rewrite Hempty in Htot. simpl in Htot. by rewrite app_nil_r in Htot.
Qed.

Lemma consumer_loop_termination_witness :
  let ch := {| Api.alive := true; Api.pending := [Some "data: a"];
               Api.reader := Api.new_consumer |} in
  let evs := [Api.Poll; Api.Poll; Api.Poll; Api.Poll] in
  let after := Api.channel_run evs (Api.channel_step Api.Die ch) in
  Api.pc (Api.reader after) = Api.Closed Api.ProducerGone
  /\ Api.timeouts (Api.reader after) <= Api.timeouts (Api.reader ch) + 1
  /\ Api.delivered (Api.reader after)
     = Api.delivered (Api.reader ch) ++ Api.deliveries (Api.pending ch).
Proof.
  intros ch evs.
  apply (proj2 (consumer_loop_termination evs ch)).
  - reflexivity.
  - intros Hin. apply list_elem_of_singleton in Hin. discriminate.
  - simpl. lia.
Defined.

(** * Properties of one streaming request *)

Lemma py_index_outcome (x : Z) (l : list Z) :
  (exists i, py_index x l = Return i)
  \/ (exists msg, py_index x l = Raise (ValueError msg)).
Proof.
  induction l as [|y l IH]; simpl; [right; by eexists|].
  destruct (Z.eqb y x); [left; by eexists|].
  destruct IH as [[i ->]|[msg ->]]; [left|right]; by eexists.
Qed.

(** The splitter returns on every output. *)
Lemma split_output_returns (decode : list Z -> string) (ids : list Z) :
  exists r, split_output decode ids = Return r.
Proof.
  unfold split_output, split_index.
  destruct (py_index_outcome END_OF_REASONING (rev ids)) as [[i ->]|[msg ->]];
    by eexists.
Qed.

Lemma relay_streamed (calls : list (string * bool)) :
  Api.relay (Bot.streamed calls)
  = map (fun text => Some (Bot.sse_frame text)) (Bot.emitted calls)
    ++ (if Bot.ended calls then [None] else []).
Proof.
  induction calls as [|[text stream_end] calls IH]; [done|].
  unfold Bot.streamed, Bot.ended in *. simpl.
  destruct stream_end; simpl; [done|]. by rewrite IH.
Qed.

Lemma deliveries_chunks (chunks : list string) (tail : Bot.queue) :
  head tail = None \/ head tail = Some None ->
  Api.deliveries (map Some chunks ++ tail) = map Api.response chunks.
Proof.
  intros Htail. induction chunks as [|c chunks IH]; simpl.
  - by destruct Htail as [H|H], tail as [|[x|] tail]; simplify_eq/=.
  - by rewrite IH.
Qed.

Lemma relay_sentinel_last (items : Bot.queue) (i : nat) :
  Api.relay items !! i = Some None -> length (Api.relay items) = S i.
Proof.
  revert i. induction items as [|[token|] items IH]; intros i Hi.
  - done.
  - destruct i as [|i]; simpl in *; [done|]. by rewrite (IH i).
  - destruct i as [|[|i]]; simpl in *; done.
Qed.

Lemma gen_puts_puts (items : Bot.queue) (todo : list Bot.gen_action) :
  Session.gen_puts (map Bot.GPut items ++ todo) = items ++ Session.gen_puts todo.
Proof. induction items as [|x items IH]; simpl; [done|]. by rewrite IH. Qed.

Lemma gen_puts_run_generate (e : Bot.engine_run) :
  Session.gen_puts (Bot.run_generate e) = Bot.streamed (Bot.calls_of e).
Proof.
  destruct e as [calls ids|calls err]; simpl.
  - rewrite gen_puts_puts. simpl. by rewrite app_nil_r.
  - rewrite <-(app_nil_r (map Bot.GPut _)), gen_puts_puts. simpl.
    by rewrite app_nil_r.
Qed.

Section Relay.

Variable decode : list Z -> string.
Variable sc : Session.scenario.

Abbreviation gen_step := (Session.run_generate_step decode sc).
Abbreviation main_step := (Session.worker_process_step sc).
Abbreviation client_step := Session.client_step.
Abbreviation step := (Session.step decode sc).
Abbreviation run := (Session.run decode sc).
Abbreviation main_rest := (Session.main_rest sc).
Abbreviation relay_inv := (Session.relay_inv sc).

Lemma run_cons a schedule w : run (a :: schedule) w = run schedule (step w a).
Proof. reflexivity. Qed.

(** The generation thread touches neither the main thread nor the output
    queue nor the consumer, and what is upstream of the main thread stays. *)
Lemma gen_step_frame w :
  Session.main (gen_step w) = Session.main w
  /\ Session.output_queue (gen_step w) = Session.output_queue w
  /\ Session.output_log (gen_step w) = Session.output_log w
  /\ Session.client (gen_step w) = Session.client w
  /\ Session.stream_queue (gen_step w)
     ++ Session.gen_puts (Session.gen_todo (gen_step w))
     = Session.stream_queue w ++ Session.gen_puts (Session.gen_todo w).
Proof.
  unfold Session.run_generate_step.
  destruct (Session.gen_todo w) as [|[item| |ids] rest] eqn:Htodo; simpl.
  - by rewrite Htodo.
  - by rewrite <-app_assoc.
  - done.
  - destruct (split_output_returns decode ids) as [[reasoning content] ->].
    done.
Qed.

Lemma gen_step_main_rest w : main_rest (gen_step w) = main_rest w.
Proof.
  destruct (gen_step_frame w) as (Hm & _ & _ & _ & Hup).
  unfold Session.main_rest. by rewrite Hm, Hup.
Qed.

Lemma gen_step_inv w : relay_inv w -> relay_inv (gen_step w).
Proof.
  intros (I1 & I2 & I3 & I4 & I5 & I6).
  pose proof (gen_step_main_rest w) as Hrest.
  destruct (gen_step_frame w) as (Hm & Hq & Hl & Hc & _).
  unfold Session.relay_inv. rewrite Hrest, Hm, Hq, Hl, Hc.
  split; [done|]. split; [|done].
  intros HL. destruct (I2 HL) as (Htodo & Hsq & Hlog).
  unfold Session.run_generate_step. by rewrite Htodo.
Qed.

(** A step of the main thread either puts nothing, or puts the next item it
    had to put. *)
Lemma main_step_shape w :
  (Session.main w = Api.MLoad ->
   Session.gen_todo w = [] /\ Session.stream_queue w = []) ->
  Session.client (main_step w) = Session.client w /\
  Session.main (main_step w) <> Api.MLoad /\
  ((Session.output_log (main_step w) = Session.output_log w
    /\ Session.output_queue (main_step w) = Session.output_queue w
    /\ main_rest (main_step w) = main_rest w
    /\ (Api.main_ended (Session.main (main_step w)) = true ->
        Api.main_ended (Session.main w) = true))
   \/ exists item,
       Session.output_log (main_step w) = Session.output_log w ++ [item]
       /\ Session.output_queue (main_step w) = Session.output_queue w ++ [item]
       /\ main_rest w = item :: main_rest (main_step w)
       /\ (Api.main_ended (Session.main (main_step w)) = true -> item = None)).
Proof.
  intros I2. unfold Session.worker_process_step, Session.main_rest.
  destruct (Session.main w) as [| |[chunk|]|error| | |] eqn:Hmain.
  - destruct (I2 eq_refl) as [Htodo Hsq].
    unfold Session.channel_contents.
    destruct (Session.load_error sc) as [error|] eqn:Hload; simpl.
    + split; [done|]. split; [done|]. left. by rewrite ?Hmain.
    + split; [done|]. split; [done|]. left.
      by rewrite ?Hsq, gen_puts_run_generate.
  - destruct (Session.stream_queue w) as [|[token|] rest] eqn:Hsq; simpl.
    + rewrite ?Hmain, ?Hsq. split; [done|]. split; [done|]. left.
      by rewrite ?Hmain, ?Hsq.
    + split; [done|]. split; [done|]. by left.
    + split; [done|]. split; [done|]. by left.
  - simpl. split; [done|]. split; [done|]. right. by exists (Some chunk).
  - simpl. split; [done|]. split; [done|]. right. by exists None.
  - simpl. split; [done|]. split; [done|]. right.
    by exists (Some (Api.error_frame error)).
  - simpl. split; [done|]. split; [done|]. right. by exists None.
  - rewrite ?Hmain. split; [done|]. split; [done|]. left. by rewrite ?Hmain.
  - rewrite ?Hmain. split; [done|]. split; [done|]. left. by rewrite ?Hmain.
Qed.

Lemma main_step_inv w : relay_inv w -> relay_inv (main_step w).
Proof.
  intros (I1 & I2 & I3 & I4 & I5 & I6).
  destruct (main_step_shape w) as (Hc & HnL & Hshape).
  { intros HL. by destruct (I2 HL) as (? & ? & ?). }
  unfold Session.relay_inv. rewrite Hc.
  destruct Hshape as [(Hl & Hq & Hr & He)|(item & Hl & Hq & Hr & He)].
  - rewrite Hl, Hq, Hr. split; [done|]. split; [done|]. split; [done|].
    split; [done|]. split; [|done]. intros H. by apply I5, He.
  - rewrite Hl, Hq. rewrite Hr in I1, I3.
    split; [by rewrite <-app_assoc|]. split; [done|].
    split; [destruct (Api.closed (Session.client w)); [done|];
            by rewrite <-app_assoc|].
    split; [|split].
    + intros x Hx. apply elem_of_app in Hx as [Hx|Hx]; apply elem_of_app;
        [left; by apply I4|by right].
    + intros H. rewrite (He H). apply elem_of_app. right. by left.
    + intros H. apply elem_of_app. left. by apply I6.
Qed.

Lemma main_ended_rest w :
  Api.main_ended (Session.main w) = true -> main_rest w = [].
Proof.
  unfold Session.main_rest. by destruct (Session.main w) as [| |[?|]| | | |].
Qed.

Lemma client_step_inv w : relay_inv w -> relay_inv (client_step w).
Proof.
  intros (I1 & I2 & I3 & I4 & I5 & I6).
  unfold Session.relay_inv, Session.client_step, Session.main_rest. simpl.
  fold (main_rest w).
  split; [done|]. split; [done|].
  unfold Api.event_generator_step, Api.closed in *.
  destruct (Api.pc (Session.client w)) as [| |why] eqn:Hpc; simpl.
  - destruct (negb (Session.worker_alive w)
              && bool_decide (Session.output_queue w = [])) eqn:Hexit; simpl.
    + apply andb_true_iff in Hexit as [Hdead Hempty].
      apply bool_decide_eq_true in Hempty.
      unfold Session.worker_alive in Hdead. rewrite negb_involutive in Hdead.
      apply andb_true_iff in Hdead as [Hended _].
      rewrite Hempty, (main_ended_rest w Hended) in I3. simpl in I3.
      rewrite app_nil_r in I3.
      split; [done|]. split; [done|]. split; [done|]. intros _. by apply I5.
    + done.
  - destruct (Session.output_queue w) as [|[chunk|] rest] eqn:Hq; simpl.
    + done.
    + split; [by rewrite <-app_assoc|].
      split; [|done]. intros x Hx. apply I4. by right.
    + simpl in I3. rewrite app_nil_r in I3.
      split; [done|]. split; [|split; [done|]].
      * intros x Hx. apply I4. by right.
      * intros _. apply I4. by left.
  - rewrite Hpc. simpl. done.
Qed.

Lemma relay_inv_init st : relay_inv (Session.init st).
Proof.
  unfold Session.relay_inv, Session.main_rest. simpl.
  split; [done|]. split; [done|]. split; [done|].
  split; [intros x Hx; by apply elem_of_nil in Hx|]. done.
Qed.

Lemma relay_inv_run schedule w : relay_inv w -> relay_inv (run schedule w).
Proof.
  revert w. induction schedule as [|a schedule IH]; intros w Hw; [done|].
  rewrite run_cons. apply IH. destruct a; simpl.
  - by apply gen_step_inv.
  - by apply main_step_inv.
  - by apply client_step_inv.
Qed.

End Relay.

Lemma channel_contents_eq (sc : Session.scenario) :
  Session.channel_contents sc
  = match Session.load_error sc with
    | Some error => [Some (Api.error_frame error); None]
    | None =>
        map (fun text => Some (Bot.sse_frame text))
            (Bot.emitted (Bot.calls_of (Session.engine sc)))
        ++ (if Bot.ended (Bot.calls_of (Session.engine sc)) then [None] else [])
    end.
Proof.
  unfold Session.channel_contents.
  destruct (Session.load_error sc); [done|]. apply relay_streamed.
Qed.

Lemma channel_contents_sentinel_last (sc : Session.scenario) (i : nat) :
  Session.channel_contents sc !! i = Some None ->
  length (Session.channel_contents sc) = S i.
Proof.
  unfold Session.channel_contents.
  destruct (Session.load_error sc); [|apply relay_sentinel_last].
  by destruct i as [|[|i]].
Qed.

Lemma prefix_of_total {A} (l rest total : list A) :
  l ++ rest = total -> l `prefix_of` total.
Proof. intros <-. by apply prefix_app_r. Qed.

(** C4. Whatever the interleaving of the generation thread, the main thread
    of the worker and the consumer: the items put on [output_queue] so far
    are a prefix of the frames of the texts in the order the engine emitted
    them, closed by the sentinel (or, when the model fails to load, of the
    error frame and the sentinel); a sentinel in it is its last item; the
    responses the consumer has yielded are a prefix of the responses for the
    same frames in the same order, and all of them once the consumer has left
    its loop. *)
Theorem channel_order (decode : list Z -> string) (sc : Session.scenario)
    (st0 : DB.db) (schedule : list Session.actor) :
  let w := Session.run decode sc schedule (Session.init st0) in
  Session.output_log w `prefix_of` Session.channel_contents sc
  /\ (forall i, Session.output_log w !! i = Some None ->
                length (Session.output_log w) = S i)
  /\ Api.delivered (Session.client w)
     `prefix_of` Api.deliveries (Session.channel_contents sc)
  /\ (Api.closed (Session.client w) = true ->
      Api.delivered (Session.client w)
      = Api.deliveries (Session.channel_contents sc))
  /\ Session.channel_contents sc
     = match Session.load_error sc with
       | Some error => [Some (Api.error_frame error); None]
       | None =>
           map (fun text => Some (Bot.sse_frame text))
               (Bot.emitted (Bot.calls_of (Session.engine sc)))
           ++ (if Bot.ended (Bot.calls_of (Session.engine sc))
               then [None] else [])
       end
  /\ Api.deliveries (Session.channel_contents sc)
     = match Session.load_error sc with
       | Some error => [Api.response (Api.error_frame error)]
       | None =>
           map (fun text => Api.response (Bot.sse_frame text))
               (Bot.emitted (Bot.calls_of (Session.engine sc)))
       end.
Proof.
  intros w.
  destruct (relay_inv_run decode sc schedule _ (relay_inv_init sc st0))
    as (I1 & _ & I3 & _).
  fold w in I1, I3.
  assert (Hpre : Session.output_log w `prefix_of` Session.channel_contents sc)
    by exact (prefix_of_total _ _ _ I1).
  split; [done|].
  split; [|split; [|split; [|split; [apply channel_contents_eq|]]]].
  - intros i Hi.
    pose proof (prefix_lookup_Some _ _ _ _ Hi Hpre) as Hfull.
    apply channel_contents_sentinel_last in Hfull.
    apply prefix_length in Hpre. apply lookup_lt_Some in Hi. lia.
  - destruct (Api.closed (Session.client w)); [by rewrite I3|].
    exact (prefix_of_total _ _ _ I3).
  - intros Hclosed. by rewrite Hclosed in I3.
  - rewrite channel_contents_eq.
    destruct (Session.load_error sc); [done|].
    rewrite <-(map_map Bot.sse_frame Some), deliveries_chunks, map_map; [done|].
    destruct (Bot.ended _); [by right|by left].
Qed.

(** * Properties of the wire format *)

Lemma delivered_responses (decode : list Z -> string) (sc : Session.scenario)
    (st0 : DB.db) (schedule : list Session.actor) (r : string) :
  r ∈ Api.delivered
        (Session.client (Session.run decode sc schedule (Session.init st0))) ->
  r ∈ Api.deliveries (Session.channel_contents sc).
Proof.
  destruct (relay_inv_run decode sc schedule _ (relay_inv_init sc st0))
    as (_ & _ & I3 & _).
  intros Hr.
  destruct (Api.closed (Session.client _)); [by rewrite <-I3|].
  rewrite <-I3. apply elem_of_app. by left.
Qed.

(** C7 (as the code has it). In every interleaving, a response delivered to
    the client is the response for the frame of a text the streamer emitted,
    or the response for the error fragment of a failed load.  In the frame
    of a text every line feed of the text is replaced by the two characters
    backslash and n, and nothing else changes: the escaped text holds no
    line feed.  The frame [generate_stream] yields is the line
    [data: <escaped text>] followed by one empty line; the response
    [event_generator] sends for it is that frame, then the line made of the
    four characters backslash n backslash n, then one more empty line.  The
    sentinel yields no frame and ends the stream: for a stream of texts
    followed by the sentinel, [generate_stream] yields one frame per text
    and the client is sent one response per text, whatever follows the
    sentinel. *)
Theorem wire_framing (decode : list Z -> string) (sc : Session.scenario)
    (st0 : DB.db) (schedule : list Session.actor) (token a b : string)
    (c : ascii) (texts : list string) (rest : Bot.queue) :
  let w := Session.run decode sc schedule (Session.init st0) in
  (forall r, r ∈ Api.delivered (Session.client w) ->
     (Session.load_error sc = None
      /\ exists text,
           text ∈ Bot.emitted (Bot.calls_of (Session.engine sc))
           /\ r = Api.response (Bot.sse_frame text))
     \/ (exists error,
           Session.load_error sc = Some error
           /\ r = Api.response (Api.error_frame error)))
  /\ has_newline (Bot.escape_newlines token) = false
  /\ Bot.escape_newlines (a +:+ b)
     = Bot.escape_newlines a +:+ Bot.escape_newlines b
  /\ Bot.escape_newlines (String c EmptyString)
     = (if Ascii.eqb c LF then backslash_n else String c EmptyString)
  /\ split_lines (Bot.sse_frame token)
     = ["data: " +:+ Bot.escape_newlines token; EmptyString; EmptyString]
  /\ split_lines (Api.response (Bot.sse_frame token))
     = ["data: " +:+ Bot.escape_newlines token; EmptyString;
        backslash_n +:+ backslash_n; EmptyString; EmptyString]
  /\ Bot.generate_stream (map Some texts ++ None :: rest)
     = map Bot.sse_frame texts
  /\ Api.deliveries (Api.relay (map Some texts ++ None :: rest))
     = map (fun t => Api.response (Bot.sse_frame t)) texts.
Proof.
  intros w.
  assert (Hdata : has_newline ("data: " +:+ Bot.escape_newlines token) = false).
  { rewrite has_newline_app, escape_newlines_clean. done. }
  split.
  { intros r Hr. apply delivered_responses in Hr.
    rewrite channel_contents_eq in Hr.
    destruct (Session.load_error sc) as [error|].
    - right. exists error. split; [done|]. simpl in Hr.
      by apply list_elem_of_singleton in Hr.
    - left. split; [done|].
      rewrite <-(map_map Bot.sse_frame Some), deliveries_chunks, map_map in Hr.
      + apply list_elem_of_fmap in Hr as (text & -> & Htext). by exists text.
      + destruct (Bot.ended _); [by right|by left]. }
  split; [apply escape_newlines_clean|].
  split; [apply escape_newlines_app|].
  split; [simpl; by destruct (Ascii.eqb c LF)|].
  split; [|split; [|split; [apply generate_stream_texts
                              |apply deliveries_relay_texts]]].
  - unfold Bot.sse_frame, LFLF. rewrite <-string_app_assoc.
    rewrite (split_lines_break _ _ Hdata). reflexivity.
  - unfold Api.response, Bot.sse_frame, LFLF.
    rewrite <-(string_app_assoc "data: "), string_app_assoc.
    rewrite (string_app_cons LF), (split_lines_break _ _ Hdata). reflexivity.
Qed.

(** C7, as stated, fails.  When the model fails to load with a message that
    holds a line feed, the client is delivered the error fragment with the
    line feed in it: the line of the event is cut after [a].  And for a text
    fragment the client is delivered, after the empty line that ends the
    event, a line of the four characters backslash n backslash n and a
    second empty line. *)
Lemma error_fragment_unescaped :
  let failing := {| Session.session_id := "s1"; Session.prompt := "2+2?";
                    Session.thinking := false;
                    Session.load_error := Some (String "a" (String LF "b"));
                    Session.engine := Bot.Completes [] [] |} in
  let loading := {| Session.session_id := "s1"; Session.prompt := "2+2?";
                    Session.thinking := false; Session.load_error := None;
                    Session.engine := Bot.Completes [("hi", true)] [19%Z] |} in
  let w1 := Session.run (fun _ => EmptyString) failing
              [Session.Main; Session.Main; Session.Main; Session.Consumer;
               Session.Consumer; Session.Consumer; Session.Consumer]
              (Session.init DB.empty_db) in
  let w2 := Session.run (fun _ => EmptyString) loading
              [Session.Main; Session.Generator; Session.Generator;
               Session.Main; Session.Main; Session.Main; Session.Main;
               Session.Consumer; Session.Consumer; Session.Consumer;
               Session.Consumer]
              (Session.init DB.empty_db) in
  split_lines <$> Api.delivered (Session.client w1)
  = [["data: ERROR: a"; "b"; EmptyString; backslash_n +:+ backslash_n;
      EmptyString; EmptyString]]
  /\ split_lines <$> Api.delivered (Session.client w2)
     = [["data: hi"; EmptyString; backslash_n +:+ backslash_n; EmptyString;
         EmptyString]].
Proof. vm_compute. done. Qed.

Lemma emitted_open (calls : list (string * bool)) :
  Bot.ended calls = false -> Bot.emitted calls = map fst calls.
Proof.
  unfold Bot.ended. induction calls as [|[text stream_end] calls IH]; [done|].
  simpl. intros H. apply orb_false_iff in H as [-> H]. by rewrite IH.
Qed.

(** C6, where the code departs from it. When [model.generate] raises before
    its streamer ends the stream, in the thread of [run_generate], nothing
    reports it: in every interleaving the worker only ever puts frames of the
    texts streamed before the failure, no error frame and no sentinel; its
    main thread never ends; and the consumer never leaves its loop. *)
Theorem generation_failure_unreported (decode : list Z -> string)
    (sc : Session.scenario) (st0 : DB.db) (schedule : list Session.actor)
    (calls : list (string * bool)) (error : string) :
  Session.load_error sc = None ->
  Session.engine sc = Bot.Fails calls error ->
  Bot.ended calls = false ->
  let w := Session.run decode sc schedule (Session.init st0) in
  Session.output_log w
    `prefix_of` map (fun c => Some (Bot.sse_frame c.1)) calls
  /\ (None ∉ Session.output_log w)
  /\ Api.main_ended (Session.main w) = false
  /\ Api.closed (Session.client w) = false.
Proof.
  intros Hload Hengine Hopen w.
  destruct (relay_inv_run decode sc schedule _ (relay_inv_init sc st0))
    as (I1 & _ & _ & _ & I5 & I6).
  fold w in I1, I5, I6.
  assert (Hcc : Session.channel_contents sc
                = map (fun c => Some (Bot.sse_frame c.1)) calls).
  { rewrite channel_contents_eq, Hload, Hengine. simpl.
    rewrite Hopen, app_nil_r, emitted_open, map_map by done. done. }
  assert (Hpre : Session.output_log w
                 `prefix_of` map (fun c => Some (Bot.sse_frame c.1)) calls).
  { rewrite <-Hcc. exact (prefix_of_total _ _ _ I1). }
  assert (Hnone : None ∉ Session.output_log w).
  { intros Hin. apply (elem_of_prefix _ _ _ Hin) in Hpre.
    apply list_elem_of_fmap in Hpre as (c & Hc & _). done. }
  split; [done|]. split; [done|]. split.
  - destruct (Api.main_ended (Session.main w)) eqn:He; [|done].
    exfalso. by apply Hnone, I5.
  - destruct (Api.closed (Session.client w)) eqn:He; [|done].
    exfalso. by apply Hnone, I6.
Qed.

Lemma generation_failure_unreported_witness :
  let sc := {| Session.session_id := "s1"; Session.prompt := "2+2?";
               Session.thinking := false; Session.load_error := None;
               Session.engine := Bot.Fails [("The", false)] "CUDA error" |} in
  let w := Session.run (fun _ => EmptyString) sc
             [Session.Main; Session.Generator; Session.Main; Session.Main;
              Session.Consumer; Session.Consumer; Session.Main;
              Session.Consumer; Session.Consumer]
             (Session.init DB.empty_db) in
  Session.output_log w
    `prefix_of` map (fun c => Some (Bot.sse_frame c.1)) [("The", false)]
  /\ (None ∉ Session.output_log w)
  /\ Api.main_ended (Session.main w) = false
  /\ Api.closed (Session.client w) = false.
Proof.
  intros sc.
  apply (generation_failure_unreported (fun _ => EmptyString) sc DB.empty_db
           _ [("The", false)] "CUDA error"); reflexivity.
Defined.

(** X16. When [bot.load_model()] raises in the worker process, the worker
    puts the error frame and then the sentinel on the output queue, and ends
    by re-raising, as soon as its main thread has taken three steps. *)
Lemma load_failure_reported (decode : list Z -> string)
    (sc : Session.scenario) (st0 : DB.db) (schedule : list Session.actor)
    (error : string) :
  Session.load_error sc = Some error ->
  3 <= Session.main_steps schedule ->
  let w := Session.run decode sc schedule (Session.init st0) in
  Session.output_log w = [Some (Api.error_frame error); None]
  /\ Session.main w = Api.MRaised.
Proof.
  intros Hload Hsteps w.
  assert (Hprogress : forall schedule w0,
    (Session.main w0 = Api.MLoad /\ 3 <= Session.main_steps schedule)
    \/ (Session.main w0 = Api.MExcept error
        /\ 2 <= Session.main_steps schedule)
    \/ (Session.main w0 = Api.MExceptEnd /\ 1 <= Session.main_steps schedule)
    \/ Session.main w0 = Api.MRaised ->
    Session.main (Session.run decode sc schedule w0) = Api.MRaised).
  { clear schedule Hsteps w. induction schedule as [|a schedule IH]; intros w0 H.
    - simpl in H. destruct H as [[_ ?]|[[_ ?]|[[_ ?]|?]]]; [lia|lia|lia|done].
    - change (Session.run decode sc (a :: schedule) w0)
        with (Session.run decode sc schedule (Session.step decode sc w0 a)).
      apply IH. destruct a; simpl in *.
      + destruct (gen_step_frame decode sc w0) as [Hm _]. rewrite Hm.
        destruct H as [[? ?]|[[? ?]|[[? ?]|?]]]; auto.
      + unfold Session.worker_process_step.
        destruct H as [[Hm ?]|[[Hm ?]|[[Hm ?]|Hm]]]; rewrite Hm; simpl.
        * rewrite Hload. simpl. right. left. split; [done|lia].
        * right. right. left. split; [done|lia].
        * right. right. right. done.
        * right. right. right. done.
      + destruct H as [[? ?]|[[? ?]|[[? ?]|?]]]; auto. }
  assert (Hmain : Session.main w = Api.MRaised).
  { apply Hprogress. left. by split. }
  split; [|done].
  destruct (relay_inv_run decode sc schedule _ (relay_inv_init sc st0))
    as (I1 & _).
  fold w in I1. unfold Session.main_rest in I1. rewrite Hmain in I1.
  rewrite app_nil_r in I1. rewrite I1. unfold Session.channel_contents.
  by rewrite Hload.
Qed.

(** * Properties of the persistence *)

(** An accepted [add_message] appends one row, stamped with the time of its
    transaction, and leaves the store connected with the session in place at
    a later time. *)
Lemma add_message_row (st : DB.db) (sid role content : string)
    (reasoning : option string) (c : DB.conversation) :
  DB.connection st = true ->
  DB.conversations st !! sid = Some c ->
  role = "user" \/ role = "assistant" ->
  let st' := (DB.add_message st sid role content reasoning).1 in
  DB.conversation_details st'
  = DB.conversation_details st
    ++ [{| DB.session_id := sid; DB.role := role; DB.content := content;
           DB.reasoning := default EmptyString reasoning;
           DB.timestamp := DB.now st |}]
  /\ DB.now st < DB.now st'
  /\ DB.connection st' = true
  /\ is_Some (DB.conversations st' !! sid).
Proof.
  intros Hconn Hc Hrole. unfold DB.add_message. rewrite Hconn. simpl.
  assert (Hacc : DB.insert_accepted st sid role = true).
  { unfold DB.insert_accepted. rewrite Hc.
    rewrite bool_decide_eq_true_2 by by eexists.
    by destruct Hrole as [-> | ->]. }
  rewrite Hacc.
  destruct (String.eqb role "user"); [|simpl; rewrite Hc; eauto 10 with lia].
  destruct (_ =? 1); [|simpl; rewrite Hc; eauto 10 with lia].
  unfold DB.update_conversation_title. simpl. rewrite Hconn, Hc. simpl.
  rewrite lookup_insert_eq. eauto 10 with lia.
Qed.

Lemma run_generate_eq (e : Bot.engine_run) :
  Bot.run_generate e
  = map Bot.GPut (Bot.streamed (Bot.calls_of e)) ++ Session.after_generate e.
Proof. destruct e; simpl; [done|]. by rewrite app_nil_r. Qed.

Lemma streamed_sentinel (calls : list (string * bool)) :
  Bot.ended calls = true -> None ∈ Bot.streamed calls.
Proof.
  unfold Bot.ended, Bot.streamed.
  induction calls as [|[text stream_end] calls IH]; simpl; [done|].
  intros H. apply elem_of_cons. right.
  destruct stream_end; simpl in *; [by left|].
  by apply IH.
Qed.

Section Persistence.

Variable decode : list Z -> string.
Variable sc : Session.scenario.
Variable st0 : DB.db.

Abbreviation persist_inv := (Session.persist_inv decode sc st0).

Lemma gen_step_persist w :
  persist_inv w -> persist_inv (Session.run_generate_step decode sc w).
Proof.
  destruct (gen_step_frame decode sc w) as [Hmain _].
  unfold Session.persist_inv. rewrite Hmain. clear Hmain.
  unfold Session.run_generate_step.
  intros [[Hst [(Htodo & Hlog & Hm)|(Hm & Hload & items & Hitems & Htodo)]]
         |(calls & ids & He & Hload & Hm & Hlog & [[Hst Htodo]|[Hst Htodo]])];
    rewrite Htodo.
  - left. split; [done|]. left. done.
  - destruct items as [|item items]; simpl.
    + rewrite app_nil_r in Hitems.
      destruct (Session.engine sc) as [calls ids|calls err] eqn:He; simpl.
      * right. exists calls, ids. split; [done|]. split; [done|].
        split; [done|]. split; [done|]. left. simpl. split; [|done].
        unfold Session.store_after_user. by rewrite Hst.
      * left. split; [done|]. right. split; [done|]. split; [done|].
        exists []. by rewrite app_nil_r.
    + left. split; [done|]. right. split; [done|]. split; [done|].
      exists items. simpl. split; [|done]. by rewrite <-app_assoc.
  - right. exists calls, ids. split; [done|]. split; [done|]. split; [done|].
    unfold Session.store_after_assistant.
    destruct (split_output_returns decode ids) as [[reasoning content] ->].
    simpl. split; [done|]. right. by rewrite Hst.
  - right. exists calls, ids. split; [done|]. split; [done|]. split; [done|].
    split; [done|]. right. done.
Qed.

Lemma main_step_persist w :
  persist_inv w -> persist_inv (Session.worker_process_step sc w).
Proof.
  intros H.
  assert (Session.main w = Api.MLoad \/ Session.main w <> Api.MLoad)
    as [HL|HnL] by (destruct (Session.main w); (by left) || (by right)).
  - unfold Session.persist_inv in *. unfold Session.worker_process_step. rewrite HL.
    destruct H as [[Hst [(Htodo & Hlog & Hm)|(Hm & _)]]
                  |(calls & ids & He & Hload & Hm & _)]; [|done|done].
    destruct (Session.load_error sc) as [error|] eqn:Hload; simpl.
    + left. split; [done|]. left. split; [done|]. split; [done|]. by right.
    + left. split; [done|]. right. split; [done|]. split; [done|].
      exists (Bot.streamed (Bot.calls_of (Session.engine sc))).
      rewrite Hlog. split; [done|]. apply run_generate_eq.
  - assert (Hframe :
      Session.store (Session.worker_process_step sc w) = Session.store w
      /\ Session.gen_todo (Session.worker_process_step sc w) = Session.gen_todo w
      /\ Session.stream_log (Session.worker_process_step sc w) = Session.stream_log w
      /\ Session.main (Session.worker_process_step sc w) <> Api.MLoad).
    { unfold Session.worker_process_step.
      destruct (Session.main w) as [| |[chunk|]|error| | |] eqn:Hmain;
        simpl; try done.
      - destruct (Session.stream_queue w) as [|token rest]; simpl; [|done].
        by rewrite Hmain.
      - by rewrite Hmain.
      - by rewrite Hmain. }
    destruct Hframe as (Hs & Ht & Hl & Hm').
    unfold Session.persist_inv in *. rewrite Hs, Ht, Hl.
    destruct H as [[Hst [(Htodo & Hlog & [Hm|Hm])|(Hm & Hrest)]]
                  |(calls & ids & He & Hload & Hm & Hrest)].
    + done.
    + left. split; [done|]. left. split; [done|]. split; [done|]. by right.
    + left. split; [done|]. right. done.
    + right. exists calls, ids. done.
Qed.

Lemma client_step_persist w :
  persist_inv w -> persist_inv (Session.client_step w).
Proof. done. Qed.

Lemma persist_inv_init : persist_inv (Session.init st0).
Proof. left. split; [done|]. left. split; [done|]. split; [done|]. by left. Qed.

Lemma persist_inv_run schedule w :
  persist_inv w -> persist_inv (Session.run decode sc schedule w).
Proof.
  revert w. induction schedule as [|a schedule IH]; intros w Hw; [done|].
  change (persist_inv (Session.run decode sc schedule
                         (Session.step decode sc w a))).
  apply IH. destruct a; simpl.
  - by apply gen_step_persist.
  - by apply main_step_persist.
  - by apply client_step_persist.
Qed.

(** Once the main thread has started it, the thread of [run_generate] takes
    its actions one per step, whatever the other actors do. *)
Lemma thread_started schedule w :
  Session.main w <> Api.MLoad ->
  let w' := Session.run decode sc schedule w in
  Session.main w' <> Api.MLoad
  /\ Session.gen_todo w'
     = drop (Session.generator_steps schedule) (Session.gen_todo w).
Proof.
  cbv zeta. revert w.
  induction schedule as [|a schedule IH]; intros w Hm; [done|].
  change (Session.run decode sc (a :: schedule) w)
    with (Session.run decode sc schedule (Session.step decode sc w a)).
  destruct a; cbn [Session.step Session.generator_steps].
  - destruct (gen_step_frame decode sc w) as [Hmain _].
    destruct (IH (Session.run_generate_step decode sc w)) as [Hm' Htodo];
      [by rewrite Hmain|].
    split; [done|]. rewrite Htodo.
    unfold Session.run_generate_step.
    destruct (Session.gen_todo w) as [|[item| |ids] rest] eqn:Hw; simpl.
    + by rewrite Hw, !drop_nil.
    + done.
    + done.
    + by destruct (split_output_returns decode ids) as [[reasoning content] ->].
  - assert (Hstep : Session.main (Session.worker_process_step sc w)
                    <> Api.MLoad
                    /\ Session.gen_todo (Session.worker_process_step sc w)
                       = Session.gen_todo w).
    { unfold Session.worker_process_step.
      destruct (Session.main w) as [| |[chunk|]|error| | |] eqn:Hw;
        try done; try by rewrite Hw.
      destruct (Session.stream_queue w); [by rewrite Hw|done]. }
    destruct Hstep as [Hmain Htodo].
    destruct (IH _ Hmain) as [Hm' Htodo']. split; [done|].
    by rewrite Htodo', Htodo.
  - by apply (IH (Session.client_step w)).
Qed.

(** From the start of the request: either the main thread has taken no step
    and the thread of [run_generate] does not exist, or that thread has taken
    the first [thread_steps schedule] of its actions. *)
Lemma thread_progress schedule w :
  Session.load_error sc = None ->
  Session.main w = Api.MLoad ->
  Session.gen_todo w = [] ->
  let w' := Session.run decode sc schedule w in
  (Session.main w' = Api.MLoad /\ Session.thread_steps schedule = 0)
  \/ (Session.main w' <> Api.MLoad
      /\ Session.gen_todo w'
         = drop (Session.thread_steps schedule)
             (Bot.run_generate (Session.engine sc))).
Proof.
  intros Hload. cbv zeta. revert w.
  induction schedule as [|a schedule IH]; intros w Hm Htodo; [by left|].
  change (Session.run decode sc (a :: schedule) w)
    with (Session.run decode sc schedule (Session.step decode sc w a)).
  destruct a; cbn [Session.step Session.thread_steps].
  - assert (Hsame : Session.run_generate_step decode sc w = w).
    { unfold Session.run_generate_step. by rewrite Htodo. }
    rewrite Hsame. by apply IH.
  - right. unfold Session.worker_process_step. rewrite Hm, Hload.
    by apply (thread_started schedule).
  - by apply (IH (Session.client_step w)).
Qed.

End Persistence.

(** C5 (as the code has it). For a successful generation (the model
    loads, [model.generate] returns and its streamer has ended the stream)
    on an existing session of a connected store, in every interleaving of
    the threads.  The two appends are the last two actions of the generation
    thread, after the puts of the streamer: while that thread has taken at
    most as many steps as the streamer puts items, no row is added; with
    one step more the user row is added, stamped with the time the request
    found; with a further step the assistant row follows it, stamped
    strictly later and carrying the answer and the reasoning split from the
    complete output, and nothing is added after it.  So a row is in the
    store only after every item of the stream, the terminal sentinel
    included, has been put on the stream queue.  The steps of the main
    thread and of the consumer, and so the delivery of the sentinel, do not
    enter into it. *)
Theorem persistence_ordering (decode : list Z -> string)
    (sc : Session.scenario) (st0 : DB.db) (schedule : list Session.actor)
    (conv : DB.conversation) (calls : list (string * bool))
    (response_ids : list Z) :
  DB.connection st0 = true ->
  DB.conversations st0 !! Session.session_id sc = Some conv ->
  Session.load_error sc = None ->
  Session.engine sc = Bot.Completes calls response_ids ->
  Bot.ended calls = true ->
  let w := Session.run decode sc schedule (Session.init st0) in
  let steps := Session.thread_steps schedule in
  let puts := length (Bot.streamed calls) in
  exists t',
    DB.now st0 < t'
    /\ DB.conversation_details (Session.store w)
       = DB.conversation_details st0
         ++ match steps - puts with
            | 0 => []
            | 1 => [Session.user_row sc (DB.now st0)]
            | _ => [Session.user_row sc (DB.now st0);
                    Session.assistant_row decode sc response_ids t']
            end
    /\ Session.stream_log w = take steps (Bot.streamed calls)
    /\ (DB.conversation_details (Session.store w)
        <> DB.conversation_details st0 ->
        Session.stream_log w = Bot.streamed calls
        /\ None ∈ Session.stream_log w).
Proof.
  intros Hconn Hconv Hload He Hended w steps puts.
  pose proof (persist_inv_run decode sc st0 schedule _
                (persist_inv_init decode sc st0)) as Hinv.
  pose proof (thread_progress decode sc schedule (Session.init st0) Hload
                eq_refl eq_refl) as Hprogress.
  fold w in Hinv. cbv zeta in Hprogress. fold w steps in Hprogress.
  rewrite He in Hprogress. simpl in Hprogress.
  destruct (add_message_row st0 (Session.session_id sc) "user"
              (Session.prompt sc) None conv Hconn Hconv (or_introl eq_refl))
    as (Hrows1 & Hnow1 & Hconn1 & [conv1 Hconv1]).
  fold (Session.store_after_user sc st0) in Hrows1, Hnow1, Hconn1, Hconv1.
  exists (DB.now (Session.store_after_user sc st0)). split; [exact Hnow1|].
  assert (Hlen : forall k,
    length (drop k (map Bot.GPut (Bot.streamed calls)
                    ++ [Bot.GAddUser; Bot.GAddAssistant response_ids]))
    = puts + 2 - k).
  { intros k. rewrite length_drop, length_app, length_map. done. }
  assert (Hrows :
    DB.conversation_details (Session.store w)
    = DB.conversation_details st0
      ++ match steps - puts with
         | 0 => []
         | 1 => [Session.user_row sc (DB.now st0)]
         | _ => [Session.user_row sc (DB.now st0);
                 Session.assistant_row decode sc response_ids
                   (DB.now (Session.store_after_user sc st0))]
         end
    /\ Session.stream_log w = take steps (Bot.streamed calls)
    /\ (steps <= puts \/ Session.stream_log w = Bot.streamed calls)).
  { destruct Hinv as [[Hst Hcase]
      |(calls' & ids' & He' & _ & Hm & Hlog & Hcase)].
    - rewrite Hst.
      destruct Hcase as [(_ & Hlog & [Hm|Hm])
                        |(Hm & _ & items & Hitems & Htodo)].
      + destruct Hprogress as [[_ Hsteps]|[Hm' _]]; [|done].
        rewrite Hsteps, Hlog. simpl. rewrite app_nil_r, take_0.
        split; [done|]. split; [done|]. left. lia.
      + done.
      + destruct Hprogress as [[Hm' _]|[_ Hdrop]]; [done|].
        rewrite He in Htodo. simpl in Htodo. rewrite Htodo in Hdrop.
        apply (f_equal length) in Hdrop.
        rewrite Hlen, length_app, length_map in Hdrop. simpl in Hdrop.
        apply (f_equal length) in Hitems as Hn. rewrite length_app in Hn.
        rewrite He in Hn. simpl in Hn. fold puts in Hn.
        replace (steps - puts) with 0 by lia. rewrite app_nil_r.
        split; [done|]. split; [|left; lia].
        rewrite He in Hitems. simpl in Hitems. rewrite <-Hitems.
        replace steps with (length (Session.stream_log w)) by lia.
        by rewrite take_app_length.
    - rewrite He in He'. injection He' as <- <-.
      destruct Hprogress as [[Hm' _]|[_ Hdrop]]; [done|].
      apply (f_equal length) in Hdrop. rewrite Hlen in Hdrop.
      assert (Hall : take steps (Bot.streamed calls) = Bot.streamed calls).
      { apply take_ge. fold puts.
        destruct Hcase as [[_ Htodo]|[_ Htodo]]; rewrite Htodo in Hdrop;
          simpl in Hdrop; lia. }
      rewrite Hall.
      destruct Hcase as [[Hst Htodo]|[Hst Htodo]]; rewrite Htodo in Hdrop;
        simpl in Hdrop; rewrite Hst.
      + replace (steps - puts) with 1 by lia. rewrite Hrows1.
        split; [done|]. split; [done|]. by right.
      + destruct (steps - puts) as [|[|j]] eqn:Hj; [lia|lia|].
        unfold Session.store_after_assistant, Session.assistant_row.
        destruct (split_output_returns decode response_ids)
          as [[reasoning content] Hs].
        rewrite Hs.
        destruct (add_message_row (Session.store_after_user sc st0)
                    (Session.session_id sc) "assistant" content
                    (Some reasoning) conv1 Hconn1 Hconv1 (or_intror eq_refl))
          as (Hrows2 & _).
        rewrite Hrows2, Hrows1, <-app_assoc.
        split; [done|]. split; [done|]. by right. }
  destruct Hrows as (Hrows & Hlog & Hall).
  split; [exact Hrows|]. split; [exact Hlog|].
  intros Hnew.
  destruct Hall as [Hfew|Hall].
  - exfalso. apply Hnew. rewrite Hrows.
    replace (steps - puts) with 0 by lia. by rewrite app_nil_r.
  - split; [done|]. rewrite Hall. by apply streamed_sentinel.
Qed.

Lemma persistence_ordering_witness :
  let decode := fun ids : list Z =>
                  match ids with [] => EmptyString | _ => "4" end in
  let sc := {| Session.session_id := "s1"; Session.prompt := "2+2?";
               Session.thinking := false; Session.load_error := None;
               Session.engine := Bot.Completes [("4", true)] [19%Z] |} in
  let st0 := (DB.create_conversation "s1" DB.empty_db None).1 in
  let schedule := [Session.Main; Session.Generator; Session.Generator;
                   Session.Main; Session.Generator; Session.Consumer;
                   Session.Generator] in
  let w := Session.run decode sc schedule (Session.init st0) in
  let steps := Session.thread_steps schedule in
  let puts := length (Bot.streamed [("4", true)]) in
  exists t',
    DB.now st0 < t'
    /\ DB.conversation_details (Session.store w)
       = DB.conversation_details st0
         ++ match steps - puts with
            | 0 => []
            | 1 => [Session.user_row sc (DB.now st0)]
            | _ => [Session.user_row sc (DB.now st0);
                    Session.assistant_row decode sc [19%Z] t']
            end
    /\ Session.stream_log w = take steps (Bot.streamed [("4", true)])
    /\ (DB.conversation_details (Session.store w)
        <> DB.conversation_details st0 ->
        Session.stream_log w = Bot.streamed [("4", true)]
        /\ None ∈ Session.stream_log w).
Proof.
  intros decode sc st0 schedule.
  apply (persistence_ordering decode sc st0 schedule
           {| DB.title := "New Conversation"; DB.created_at := 0;
              DB.updated_at := 0 |} [("4", true)] [19%Z]); reflexivity.
Defined.

(** C5, as stated, fails: when the generation thread runs ahead of the main
    thread of the worker, both messages are in the store while nothing, and
    so no sentinel, has been put on the output queue or received by the
    consumer. *)
Lemma persisted_before_sentinel_relayed :
  let decode := fun ids : list Z =>
                  match ids with [] => EmptyString | _ => "4" end in
  let sc := {| Session.session_id := "s1"; Session.prompt := "2+2?";
               Session.thinking := false; Session.load_error := None;
               Session.engine := Bot.Completes [("4", true)] [19%Z] |} in
  let st0 := (DB.create_conversation "s1" DB.empty_db None).1 in
  let w := Session.run decode sc
             [Session.Main; Session.Generator; Session.Generator;
              Session.Generator; Session.Generator; Session.Consumer;
              Session.Consumer]
             (Session.init st0) in
  DB.conversation_details (Session.store w)
  = [Session.user_row sc 1; Session.assistant_row decode sc [19%Z] 3]
  /\ Session.output_log w = []
  /\ Api.delivered (Session.client w) = []
  /\ Api.closed (Session.client w) = false.
Proof. vm_compute. done. Qed.

(** * Properties of the endpoints *)

(** C8, where the code departs from it. For a session identifier that
    [uuid.UUID] rejects, the handlers of get, title update, delete and add
    message answer 400 without any effect on the store or any other effect;
    [stream_response] also stops before any effect, but its only handler
    clause catches the 400 and answers 500. *)
Theorem invalid_session_id_replies (uuid_ok : string -> bool)
    (str_exn : exn -> string) (st : DB.db)
    (session_id title role content prompt : string) (thinking : bool) :
  uuid_ok session_id = false ->
  let invalid := HTTPException 400 "Invalid session ID format" in
  let untouched (e : exn) :=
    {| Api.result := Raise e; Api.store_after := st; Api.effects := [] |} in
  Api.get_conversation uuid_ok str_exn st session_id = untouched invalid
  /\ Api.update_conversation_title uuid_ok str_exn st session_id title
     = untouched invalid
  /\ Api.delete_conversation uuid_ok str_exn st session_id = untouched invalid
  /\ Api.add_message uuid_ok str_exn st session_id role content
     = untouched invalid
  /\ Api.stream_response uuid_ok str_exn st session_id prompt thinking
     = untouched (HTTPException 500 (str_exn invalid)).
Proof.
  intros Hbad invalid untouched.
  unfold Api.get_conversation, Api.update_conversation_title,
    Api.delete_conversation, Api.add_message, Api.stream_response,
    Api.validate.
  rewrite Hbad. done.
Qed.

Lemma invalid_session_id_replies_witness :
  let invalid := HTTPException 400 "Invalid session ID format" in
  let untouched (e : exn) :=
    {| Api.result := Raise e; Api.store_after := DB.empty_db;
       Api.effects := [] |} in
  Api.get_conversation Api.canonical_uuid Api.message_of DB.empty_db
    "not-a-uuid" = untouched invalid
  /\ Api.update_conversation_title Api.canonical_uuid Api.message_of
       DB.empty_db "not-a-uuid" "t" = untouched invalid
  /\ Api.delete_conversation Api.canonical_uuid Api.message_of DB.empty_db
       "not-a-uuid" = untouched invalid
  /\ Api.add_message Api.canonical_uuid Api.message_of DB.empty_db
       "not-a-uuid" "user" "hi" = untouched invalid
  /\ Api.stream_response Api.canonical_uuid Api.message_of DB.empty_db
       "not-a-uuid" "hi" false
     = untouched (HTTPException 500 (Api.message_of invalid)).
Proof.
  apply (invalid_session_id_replies Api.canonical_uuid Api.message_of
           DB.empty_db "not-a-uuid" "t" "user" "hi" "hi" false).
  reflexivity.
Defined.

(** * A complete run *)

(** The request of the end-to-end scenario, run to its end: the frames reach
    the consumer, the sentinel closes the stream, and the store holds the
    user turn and then the assistant turn. *)
Example complete_run :
  let decode := fun ids : list Z =>
                  match ids with [] => EmptyString | _ => "4" end in
  let sc := {| Session.session_id := "s1"; Session.prompt := "2+2?";
               Session.thinking := false; Session.load_error := None;
               Session.engine :=
                 Bot.Completes [("", false); ("4", true)] [19%Z] |} in
  let st0 := (DB.create_conversation "s1" DB.empty_db None).1 in
  let w := Session.run decode sc
             (Session.Main :: replicate 5 Session.Generator
              ++ replicate 6 Session.Main ++ replicate 6 Session.Consumer)
             (Session.init st0) in
  Session.output_log w
  = [Some (Bot.sse_frame ""); Some (Bot.sse_frame "4"); None]
  /\ Api.delivered (Session.client w)
     = [Api.response (Bot.sse_frame ""); Api.response (Bot.sse_frame "4")]
  /\ Api.pc (Session.client w) = Api.Closed Api.SentinelReceived
  /\ Session.main w = Api.MReturned
  /\ Session.worker_alive w = false
  /\ DB.conversation_details (Session.store w)
     = [Session.user_row sc 1; Session.assistant_row decode sc [19%Z] 3]
  /\ DB.stored_title (Session.store w) "s1" = Some "2+2?".
Proof. vm_compute. done. Qed.

(** * Every stream can be delivered in full *)

Section Delivery.

Variable decode : list Z -> string.
Variable sc : Session.scenario.

Abbreviation run := (Session.run decode sc).

Lemma run_app s1 s2 w : run (s1 ++ s2) w = run s2 (run s1 w).
Proof. apply foldl_app. Qed.

Lemma run_replicate_S n a w :
  run (replicate (S n) a) w = run (replicate n a) (Session.step decode sc w a).
Proof. reflexivity. Qed.

(** Left alone, the generation thread takes all its steps: everything it
    had to put is then on the stream queue. *)
Lemma generator_phase n w :
  length (Session.gen_todo w) <= n ->
  let w' := run (replicate n Session.Generator) w in
  Session.gen_todo w' = []
  /\ Session.main w' = Session.main w
  /\ Session.stream_queue w'
     = Session.stream_queue w ++ Session.gen_puts (Session.gen_todo w).
Proof.
  revert w. induction n as [|n IH]; intros w Hlen.
  - destruct (Session.gen_todo w) eqn:Htodo; simpl in *; [|lia].
    by rewrite Htodo, app_nil_r.
  - rewrite run_replicate_S. simpl.
    destruct (gen_step_frame decode sc w) as (Hm & _ & _ & _ & Hup).
    assert (Hshort : length (Session.gen_todo
                               (Session.run_generate_step decode sc w)) <= n).
    { unfold Session.run_generate_step.
      destruct (Session.gen_todo w) as [|[item| |ids] rest] eqn:Htodo;
        simpl in *; try lia.
      - rewrite Htodo. simpl. lia.
      - destruct (split_output decode ids) as [[? ?]|]; simpl; lia. }
    destruct (IH _ Hshort) as (Htodo & Hmain & Hsq).
    split; [done|]. split; [by rewrite Hmain|]. by rewrite Hsq.
Qed.

Lemma worker_process_step_frame w :
  Session.main w <> Api.MLoad ->
  Session.gen_todo (Session.worker_process_step sc w) = Session.gen_todo w
  /\ Session.main (Session.worker_process_step sc w) <> Api.MLoad.
Proof.
  intros Hm. unfold Session.worker_process_step.
  destruct (Session.main w) as [| |[chunk|]|error| | |] eqn:Hmain;
    simpl; try done.
  - destruct (Session.stream_queue w) as [|token rest]; simpl; [|done].
    by rewrite Hmain.
  - by rewrite Hmain.
  - by rewrite Hmain.
Qed.

Lemma worker_process_step_progress w :
  Session.sentinel_ahead w ->
  Api.main_ended (Session.main w) = true
  \/ (Session.sentinel_ahead (Session.worker_process_step sc w)
      /\ S (Session.main_left (Session.worker_process_step sc w))
         <= Session.main_left w).
Proof.
  unfold Session.sentinel_ahead, Session.main_left,
    Session.worker_process_step.
  destruct (Session.main w) as [| |[chunk|]|error| | |] eqn:Hmain; simpl;
    intros Hahead; try done; try (by left); try (right; split; [done|lia]).
  destruct (Session.stream_queue w) as [|[token|] rest] eqn:Hsq; simpl.
  - by apply elem_of_nil in Hahead.
  - right. apply elem_of_cons in Hahead as [?|Hahead]; [done|].
    split; [done|lia].
  - right. split; [done|lia].
Qed.

(** Left alone with the sentinel ahead of it, the main thread of the worker
    comes to its end. *)
Lemma main_phase n w :
  Session.sentinel_ahead w ->
  Session.main_left w <= n ->
  let w' := run (replicate n Session.Main) w in
  Api.main_ended (Session.main w') = true
  /\ Session.gen_todo w' = Session.gen_todo w.
Proof.
  revert w. induction n as [|n IH]; intros w Hahead Hleft.
  - simpl. split; [|done].
    unfold Session.sentinel_ahead, Session.main_left in *.
    destruct (Session.main w) as [| |[chunk|]|error| | |]; simpl in *;
      try done; try lia.
    destruct (Session.stream_queue w); simpl in *; [|lia].
    by apply elem_of_nil in Hahead.
  - rewrite run_replicate_S. simpl.
    assert (Hstarted : Session.main w <> Api.MLoad).
    { unfold Session.sentinel_ahead in Hahead. intros HL.
      by rewrite HL in Hahead. }
    destruct (worker_process_step_frame w Hstarted) as [Htodo _].
    destruct (worker_process_step_progress w Hahead) as [Hended|[Hahead' Hless]].
    + assert (Hsame : Session.worker_process_step sc w = w).
      { unfold Session.worker_process_step.
        by destruct (Session.main w) as [| |[chunk|]|error| | |]. }
      rewrite Hsame. apply IH; [done|].
      unfold Session.main_left.
      destruct (Session.main w) as [| |[chunk|]|error| | |]; simpl in *;
        try done; lia.
    + destruct (IH _ Hahead') as [Hend Hsame]; [lia|].
      split; [done|]. by rewrite Hsame.
Qed.

Lemma consumer_phase n w :
  Session.view (run (replicate n Session.Consumer) w)
  = Api.channel_run (replicate n Api.Poll) (Session.view w)
  /\ Session.main (run (replicate n Session.Consumer) w) = Session.main w.
Proof.
  revert w. induction n as [|n IH]; intros w; [done|].
  rewrite run_replicate_S. simpl.
  destruct (IH (Session.client_step w)) as [-> ->]. done.
Qed.

Lemma polls_replicate n : Api.polls (replicate n Api.Poll) = n.
Proof. induction n as [|n IH]; simpl; [done|]. by rewrite IH. Qed.

(** X17. For every request whose model loads and whose engine ends its
    stream, some schedule runs the request to the end: all of the channel's
    contents are put on the output queue, the consumer yields a response for
    each frame and leaves its loop. *)
Lemma complete_delivery_reachable (st0 : DB.db) :
  Session.load_error sc = None ->
  Bot.ended (Bot.calls_of (Session.engine sc)) = true ->
  exists schedule,
    let w := run schedule (Session.init st0) in
    Session.output_log w = Session.channel_contents sc
    /\ Api.delivered (Session.client w)
       = Api.deliveries (Session.channel_contents sc)
    /\ Api.closed (Session.client w) = true.
Proof.
  intros Hload Hended.
  set (w1 := Session.step decode sc (Session.init st0) Session.Main).
  set (g := length (Session.gen_todo w1)).
  set (w2 := run (replicate g Session.Generator) w1).
  set (m := Session.main_left w2).
  set (w3 := run (replicate m Session.Main) w2).
  set (c := Api.polls_left (Session.view w3)).
  exists (Session.Main :: replicate g Session.Generator
          ++ replicate m Session.Main ++ replicate c Session.Consumer).
  intros w.
  assert (Hw : w = run (replicate c Session.Consumer) w3).
  { unfold w. change (run (Session.Main :: ?s) ?x)
      with (run s (Session.step decode sc x Session.Main)).
    by rewrite !run_app. }
  assert (Hw1 : Session.main w1 = Api.MGet
                /\ Session.stream_queue w1 = []
                /\ Session.gen_todo w1 = Bot.run_generate (Session.engine sc)).
  { unfold w1. simpl. unfold Session.worker_process_step. simpl.
    by rewrite Hload. }
  destruct Hw1 as (Hm1 & Hsq1 & Htodo1).
  destruct (generator_phase g w1) as (Htodo2 & Hm2 & Hsq2); [done|].
  fold w2 in Htodo2, Hm2, Hsq2.
  rewrite Hsq1, Htodo1, gen_puts_run_generate in Hsq2. simpl in Hsq2.
  destruct (main_phase m w2) as [Hend3 Htodo3]; [|done|].
  { unfold Session.sentinel_ahead. rewrite Hm2, Hm1, Hsq2.
    by apply streamed_sentinel. }
  fold w3 in Hend3, Htodo3.
  destruct (consumer_phase c w3) as [Hview Hm4]. rewrite <-Hw in Hview, Hm4.
  assert (Hclosed : Api.closed (Session.client w) = true).
  { change (Session.client w) with (Api.reader (Session.view w)).
    rewrite Hview. apply dead_run_closes.
    - simpl. unfold Session.worker_alive. by rewrite Hend3, Htodo3, Htodo2.
    - by rewrite polls_replicate. }
  destruct (relay_inv_run decode sc
              (Session.Main :: replicate g Session.Generator
               ++ replicate m Session.Main ++ replicate c Session.Consumer)
              _ (relay_inv_init sc st0))
    as (I1 & _ & I3 & _).
  fold w in I1, I3. rewrite Hclosed in I3.
  rewrite (main_ended_rest sc w), app_nil_r in I1 by by rewrite Hm4.
  done.
Qed.

End Delivery.

(** * The store along any history of calls *)

Lemma consistent_step (st st' : DB.db) :
  DB.consistent st ->
  (forall sid, is_Some (DB.conversations st !! sid) ->
               is_Some (DB.conversations st' !! sid)) ->
  DB.conversation_details st' = DB.conversation_details st ->
  DB.consistent st'.
Proof.
  unfold DB.consistent. intros Hst Hkeys ->.
  eapply Forall_impl; [exact Hst|]. intros m [Hm Hrole]. split; [|done].
  by apply Hkeys.
Qed.

Lemma update_title_keys (st : DB.db) (sid title other : string) :
  is_Some (DB.conversations st !! other) ->
  is_Some (DB.conversations (DB.update_conversation_title st sid title).1
           !! other).
Proof.
  unfold DB.update_conversation_title.
  destruct (DB.connection st); simpl; [|done].
  destruct (DB.conversations st !! sid) as [c|] eqn:Hc; simpl; [|done].
  intros Hother. apply lookup_insert_is_Some'. by right.
Qed.

Lemma update_title_details (st : DB.db) (sid title : string) :
  DB.conversation_details (DB.update_conversation_title st sid title).1
  = DB.conversation_details st.
Proof.
  unfold DB.update_conversation_title.
  destruct (DB.connection st); simpl; [|done].
  by destruct (DB.conversations st !! sid).
Qed.

Lemma perform_consistent (st : DB.db) (c : DB.call) :
  DB.consistent st -> DB.consistent (DB.perform st c).
Proof.
  intros Hst. destruct c as [uuid4 p|sid title|sid role content reasoning|sid| |];
    simpl.
  - unfold DB.create_conversation.
    destruct (DB.connection st); simpl; [|done].
    destruct (DB.conversations st !! uuid4) eqn:Hc; simpl; [done|].
    apply (consistent_step st); [done| |done]. simpl.
    intros sid Hsid. apply lookup_insert_is_Some'. by right.
  - apply (consistent_step st); [done| |apply update_title_details].
    intros other. apply update_title_keys.
  - unfold DB.add_message.
    destruct (DB.connection st); simpl; [|done].
    destruct (DB.insert_accepted st sid role) eqn:Hacc; simpl; [|done].
    set (row := {| DB.session_id := sid; DB.role := role;
                   DB.content := content;
                   DB.reasoning := default EmptyString reasoning;
                   DB.timestamp := DB.now st |}).
    set (st1 := DB.set_conversation_details st
                  (DB.conversation_details st ++ [row])).
    assert (Hst1 : DB.consistent st1).
    { unfold DB.consistent. simpl. apply Forall_app. split; [done|].
      apply Forall_singleton. simpl.
      unfold DB.insert_accepted in Hacc.
      apply andb_true_iff in Hacc as [Hkey Hrole].
      apply bool_decide_eq_true in Hkey. split; [done|].
      apply orb_true_iff in Hrole as [Hrole|Hrole];
        [apply orb_true_iff in Hrole as [Hrole|Hrole]|];
        apply String.eqb_eq in Hrole; auto. }
    destruct (String.eqb role "user"); [|done].
    destruct (DB.count_messages st1 sid =? 1); [|done].
    apply (consistent_step st1); [done| |].
    + intros other Hother. simpl. by apply update_title_keys.
    + simpl. apply update_title_details.
  - unfold DB.delete_conversation.
    destruct (DB.connection st); simpl; [|done].
    destruct (DB.conversations st !! sid) eqn:Hc; simpl; [|done].
    unfold DB.consistent in *. simpl.
    apply Forall_forall. intros m Hm.
    apply list_elem_of_filter in Hm as [Hne Hm].
    rewrite Forall_forall in Hst. destruct (Hst m Hm) as [Hkey Hrole].
    split; [|done]. by rewrite lookup_delete_ne.
  - done.
  - done.
Qed.

Lemma history_snoc (calls : list DB.call) (c : DB.call) :
  DB.history (calls ++ [c]) = DB.perform (DB.history calls) c.
Proof. unfold DB.history. by rewrite foldl_app. Qed.

(** X1. Along every history of calls on the store, every stored message
    belongs to a stored conversation and has one of the roles user, assistant
    and system. *)
Theorem history_consistent (calls : list DB.call) :
  DB.consistent (DB.history calls).
Proof.
  induction calls as [|c calls IH] using rev_ind.
  - by apply Forall_nil.
  - rewrite history_snoc. by apply perform_consistent.
Qed.

Lemma strongly_sorted_sublist {A} (R : relation A) (l1 l2 : list A) :
  l1 `sublist_of` l2 -> StronglySorted R l2 -> StronglySorted R l1.
Proof.
  induction 1 as [|x l1 l2 Hsub IH|x l1 l2 Hsub IH]; intros Hsorted.
  - constructor.
  - apply StronglySorted_cons in Hsorted as [Hall Hsorted].
    apply StronglySorted_cons. split; [|by apply IH].
    rewrite Forall_forall in *. intros y Hy. apply Hall.
    by eapply elem_of_sublist.
  - apply StronglySorted_cons in Hsorted as [_ Hsorted]. by apply IH.
Qed.

Lemma update_title_lookup (st : DB.db) (sid title other : string)
    (c' : DB.conversation) :
  DB.conversations (DB.update_conversation_title st sid title).1 !! other
  = Some c' ->
  DB.conversations st !! other = Some c'
  \/ (other = sid /\ DB.connection st = true /\
      exists c, DB.conversations st !! sid = Some c
                /\ DB.title c' = DB.fitted_title title
                /\ DB.created_at c' = DB.created_at c
                /\ DB.updated_at c' = DB.now st).
Proof.
  unfold DB.update_conversation_title.
  destruct (DB.connection st); simpl; [|by left].
  destruct (DB.conversations st !! sid) as [c|] eqn:Hc; simpl; [|by left].
  destruct (decide (sid = other)) as [<-|Hne].
  - rewrite lookup_insert_eq. intros [= <-]. right. eauto 10.
  - rewrite lookup_insert_ne by done. by left.
Qed.

Lemma update_title_now (st : DB.db) (sid title : string) :
  DB.now (DB.update_conversation_title st sid title).1
  = if DB.connection st then S (DB.now st) else DB.now st.
Proof.
  unfold DB.update_conversation_title.
  destruct (DB.connection st); simpl; [|done].
  by destruct (DB.conversations st !! sid).
Qed.

(** A transaction that appends rows stamped with its time, and leaves every
    conversation as it was or updated at its time, keeps the order of
    time. *)
Lemma chronological_step (st st' : DB.db) (extra : list DB.message) :
  DB.chronological st ->
  DB.conversation_details st' = DB.conversation_details st ++ extra ->
  Forall (fun m => DB.timestamp m = DB.now st) extra ->
  DB.now st < DB.now st' ->
  (forall sid c', DB.conversations st' !! sid = Some c' ->
     DB.conversations st !! sid = Some c'
     \/ (DB.created_at c' <= DB.updated_at c'
         /\ DB.updated_at c' <= DB.now st)) ->
  DB.chronological st'.
Proof.
  intros (Hrows & Hconvs & Hsorted) Hdetails Hextra Hnow Hkeys.
  unfold DB.chronological. rewrite Hdetails.
  rewrite Forall_forall in Hrows, Hextra.
  split; [|split].
  - apply Forall_app. split; apply Forall_forall; intros m Hm.
    + specialize (Hrows m Hm). lia.
    + specialize (Hextra m Hm). lia.
  - intros sid c' Hc'. destruct (Hkeys sid c' Hc') as [Hold|[H1 H2]].
    + destruct (Hconvs sid c' Hold). lia.
    + lia.
  - apply StronglySorted_app_2; [|done|].
    + intros m1 m2 H1 H2. specialize (Hrows m1 H1). specialize (Hextra m2 H2).
      lia.
    + clear Hdetails. induction extra as [|m extra IH]; constructor.
      * apply IH. intros x Hx. apply Hextra. by right.
      * apply Forall_forall. intros x Hx.
        rewrite (Hextra m), (Hextra x); [done|by right|by left].
Qed.

Lemma perform_chronological (st : DB.db) (c : DB.call) :
  DB.chronological st -> DB.chronological (DB.perform st c).
Proof.
  intros Hst.
  destruct c as [uuid4 p|sid title|sid role content reasoning|sid| |]; simpl.
  - unfold DB.create_conversation.
    destruct (DB.connection st); simpl; [|done].
    destruct (DB.conversations st !! uuid4) eqn:Hc; simpl.
    + apply (chronological_step st _ []); simpl; auto using app_nil_r.
    + apply (chronological_step st _ []); simpl; auto using app_nil_r.
      intros sid c'. destruct (decide (uuid4 = sid)) as [<-|Hne].
      * rewrite lookup_insert_eq. intros [= <-]. right. simpl. lia.
      * rewrite lookup_insert_ne by done. by left.
  - destruct (DB.connection st) eqn:Hconn.
    + apply (chronological_step st _ []).
      * done.
      * by rewrite update_title_details, app_nil_r.
      * done.
      * rewrite update_title_now, Hconn. lia.
      * intros other c' Hc'.
        apply update_title_lookup in Hc' as [?|(_ & _ & c & Hc & _ & H1 & H2)];
          [by left|right].
        destruct Hst as (_ & Hconvs & _). destruct (Hconvs sid c Hc). lia.
    + unfold DB.update_conversation_title. by rewrite Hconn.
  - unfold DB.add_message.
    destruct (DB.connection st) eqn:Hconn; simpl; [|done].
    destruct (DB.insert_accepted st sid role) eqn:Hacc; simpl.
    2:{ apply (chronological_step st _ []); simpl; auto using app_nil_r. }
    set (row := {| DB.session_id := sid; DB.role := role;
                   DB.content := content;
                   DB.reasoning := default EmptyString reasoning;
                   DB.timestamp := DB.now st |}).
    set (st1 := DB.set_conversation_details st
                  (DB.conversation_details st ++ [row])).
    assert (Hplain : DB.chronological (DB.end_transaction st1)).
    { apply (chronological_step st _ [row]); simpl; auto;
        by apply Forall_singleton. }
    destruct (String.eqb role "user"); [|done].
    destruct (DB.count_messages st1 sid =? 1); [|done].
    apply (chronological_step st _ [row]).
    + done.
    + simpl. by rewrite update_title_details.
    + by apply Forall_singleton.
    + simpl. rewrite update_title_now. simpl. rewrite Hconn. lia.
    + simpl. intros other c' Hc'.
      apply update_title_lookup in Hc' as [?|(_ & _ & c & Hc & _ & H1 & H2)];
        [by left|right]. simpl in *.
      destruct Hst as (_ & Hconvs & _). destruct (Hconvs sid c Hc). lia.
  - unfold DB.delete_conversation.
    destruct (DB.connection st); simpl; [|done].
    destruct (DB.conversations st !! sid) eqn:Hc; simpl.
    + destruct Hst as (Hrows & Hconvs & Hsorted).
      unfold DB.chronological. simpl. split; [|split].
      * apply Forall_forall. intros m Hm.
        apply list_elem_of_filter in Hm as [_ Hm].
        rewrite Forall_forall in Hrows. specialize (Hrows m Hm). lia.
      * intros other c' Hc'. apply lookup_delete_Some in Hc' as [_ Hc'].
        destruct (Hconvs other c' Hc'). lia.
      * eapply strongly_sorted_sublist; [apply sublist_filter|done].
    + apply (chronological_step st _ []); simpl; auto using app_nil_r.
  - done.
  - done.
Qed.

Lemma empty_chronological : DB.chronological DB.empty_db.
Proof.
  split; [by apply Forall_nil|]. split; [|constructor].
  intros sid c Hc. simpl in Hc. by rewrite lookup_empty in Hc.
Qed.

(** Rows that are stored by increasing timestamp are listed by
    [ORDER BY timestamp ASC] in the order they are stored in. *)
Lemma order_by_timestamp_sorted (rows : list DB.message) :
  StronglySorted (fun a b => DB.timestamp a <= DB.timestamp b) rows ->
  DB.order_by_timestamp rows = rows.
Proof.
  induction 1 as [|m rows Hrows IH Hm]; [done|].
  unfold DB.order_by_timestamp in *. simpl. rewrite IH.
  destruct rows as [|x rest]; [done|]. simpl.
  apply Forall_cons in Hm as [Hx _]. by rewrite decide_True.
Qed.

Lemma session_rows_ordered (st : DB.db) (sid : string) :
  DB.chronological st ->
  DB.order_by_timestamp
    (filter (fun m => DB.session_id m = sid) (DB.conversation_details st))
  = filter (fun m => DB.session_id m = sid) (DB.conversation_details st).
Proof.
  intros (_ & _ & Hsorted). apply order_by_timestamp_sorted.
  eapply strongly_sorted_sublist; [apply sublist_filter|done].
Qed.

(** X2. Along every history of calls on the store: every stored time is
    earlier than the time of the next transaction, no conversation is
    updated before it was created, and the messages are stored in the order
    of their timestamps, so that the messages [get_conversation] lists for a
    session are in timestamp order, as its [ORDER BY timestamp ASC] asks. *)
Theorem history_chronological (calls : list DB.call) (sid : string) :
  DB.chronological (DB.history calls)
  /\ match DB.get_conversation (DB.history calls) sid with
     | Some (c, messages) =>
         StronglySorted (fun a b => DB.timestamp a <= DB.timestamp b) messages
     | None => True
     end.
Proof.
  assert (Hchron : DB.chronological (DB.history calls)).
  { induction calls as [|c calls IH] using rev_ind.
    - apply empty_chronological.
    - rewrite history_snoc. by apply perform_chronological. }
  split; [done|]. unfold DB.get_conversation.
  destruct (DB.connection _); simpl; [|done].
  destruct (DB.conversations _ !! sid); [|done].
  rewrite (session_rows_ordered _ sid Hchron).
  destruct Hchron as (_ & _ & Hsorted).
  eapply strongly_sorted_sublist; [apply sublist_filter|done].
Qed.

(** * What each call on the store changes *)

Lemma update_title_others (st : DB.db) (sid title other : string) :
  other <> sid ->
  DB.conversations (DB.update_conversation_title st sid title).1 !! other
  = DB.conversations st !! other.
Proof.
  intros Hne. unfold DB.update_conversation_title.
  destruct (DB.connection st); simpl; [|done].
  destruct (DB.conversations st !! sid); simpl; [|done].
  by rewrite lookup_insert_ne.
Qed.

Lemma update_title_connection (st : DB.db) (sid title : string) :
  DB.connection (DB.update_conversation_title st sid title).1
  = DB.connection st.
Proof.
  unfold DB.update_conversation_title.
  destruct (DB.connection st) eqn:Hconn; simpl; [|done].
  by destruct (DB.conversations st !! sid).
Qed.

Lemma add_message_connection (st : DB.db) (sid role content : string)
    (reasoning : option string) :
  DB.connection (DB.add_message st sid role content reasoning).1
  = DB.connection st.
Proof.
  unfold DB.add_message.
  destruct (DB.connection st) eqn:Hconn; simpl; [|done].
  destruct (DB.insert_accepted st sid role); simpl; [|done].
  destruct (String.eqb role "user"); [|done].
  destruct (_ =? 1); [|done]. simpl. by rewrite update_title_connection.
Qed.

Lemma add_message_result (st : DB.db) (sid role content : string)
    (reasoning : option string) :
  (DB.add_message st sid role content reasoning).2
  = DB.connection st && DB.insert_accepted st sid role.
Proof.
  unfold DB.add_message.
  destruct (DB.connection st); simpl; [|done].
  by destruct (DB.insert_accepted st sid role).
Qed.

Lemma add_message_rows (st : DB.db) (sid role content : string)
    (reasoning : option string) :
  DB.conversation_details (DB.add_message st sid role content reasoning).1
  = DB.conversation_details st
    ++ (if DB.connection st && DB.insert_accepted st sid role
        then [{| DB.session_id := sid; DB.role := role;
                 DB.content := content;
                 DB.reasoning := default EmptyString reasoning;
                 DB.timestamp := DB.now st |}]
        else []).
Proof.
  unfold DB.add_message.
  destruct (DB.connection st); simpl; [|by rewrite app_nil_r].
  destruct (DB.insert_accepted st sid role); simpl; [|by rewrite app_nil_r].
  destruct (String.eqb role "user"); [|done].
  destruct (_ =? 1); [|done]. simpl. by rewrite update_title_details.
Qed.

Lemma add_message_others (st : DB.db) (sid role content other : string)
    (reasoning : option string) :
  other <> sid ->
  DB.conversations (DB.add_message st sid role content reasoning).1 !! other
  = DB.conversations st !! other.
Proof.
  intros Hne. unfold DB.add_message.
  destruct (DB.connection st); simpl; [|done].
  destruct (DB.insert_accepted st sid role); simpl; [|done].
  destruct (String.eqb role "user"); [|done].
  destruct (_ =? 1); [|done]. simpl. by rewrite update_title_others.
Qed.

(** X3. [add_message] answers [True] exactly when it is connected and the
    database accepts the row (known session, allowed role).  It only ever
    appends: an accepted call adds its one row, stamped with the time of the
    transaction and with an empty reasoning when none is given, after the
    rows that were there; a rejected call leaves rows and conversations as
    they were; and no call touches another conversation. *)
Theorem add_message_effect (st : DB.db) (sid role content : string)
    (reasoning : option string) :
  let r := DB.add_message st sid role content reasoning in
  let row := {| DB.session_id := sid; DB.role := role; DB.content := content;
                DB.reasoning := default EmptyString reasoning;
                DB.timestamp := DB.now st |} in
  r.2 = DB.connection st && DB.insert_accepted st sid role
  /\ DB.conversation_details r.1
     = DB.conversation_details st ++ (if r.2 then [row] else [])
  /\ (r.2 = false -> DB.conversations r.1 = DB.conversations st)
  /\ (forall other, other <> sid ->
        DB.conversations r.1 !! other = DB.conversations st !! other).
Proof.
  simpl. split; [apply add_message_result|].
  split; [rewrite add_message_result; apply add_message_rows|].
  split; [|intros other; apply add_message_others].
  unfold DB.add_message.
  destruct (DB.connection st); simpl; [|done].
  by destruct (DB.insert_accepted st sid role).
Qed.

Lemma get_conversation_eq (st st' : DB.db) (sid : string) :
  DB.connection st' = DB.connection st ->
  DB.conversations st' !! sid = DB.conversations st !! sid ->
  filter (fun m => DB.session_id m = sid) (DB.conversation_details st')
  = filter (fun m => DB.session_id m = sid) (DB.conversation_details st) ->
  DB.get_conversation st' sid = DB.get_conversation st sid.
Proof.
  intros Hconn Hconv Hrows. unfold DB.get_conversation.
  by rewrite Hconn, Hconv, Hrows.
Qed.

(** X4. A conversation created under a fresh identifier on a connected,
    consistent store can be read back at once: [create_conversation] returns
    the identifier, and [get_conversation] finds the conversation with the
    derived title, created and updated at the time of the transaction, and
    no message; every other conversation reads as before. *)
Theorem create_then_get (st : DB.db) (uuid4 : string)
    (initial_prompt : option string) :
  DB.connection st = true ->
  DB.conversations st !! uuid4 = None ->
  DB.consistent st ->
  let r := DB.create_conversation uuid4 st initial_prompt in
  r.2 = Return uuid4
  /\ DB.get_conversation r.1 uuid4
     = Some ({| DB.title :=
                  DB.derived_title (DB.prompt_or_default initial_prompt);
                DB.created_at := DB.now st; DB.updated_at := DB.now st |},
             [])
  /\ (forall other, other <> uuid4 ->
        DB.get_conversation r.1 other = DB.get_conversation st other).
Proof.
  intros Hconn Hfresh Hcons. simpl. unfold DB.create_conversation.
  rewrite Hconn, Hfresh. simpl. split; [done|]. split.
  - unfold DB.get_conversation. simpl. rewrite Hconn, lookup_insert_eq. simpl.
    do 2 f_equal.
    assert (Hnone : forall m, m ∈ DB.conversation_details st ->
                              DB.session_id m <> uuid4).
    { intros m Hm Heq. unfold DB.consistent in Hcons.
      rewrite Forall_forall in Hcons. destruct (Hcons m Hm) as [[c Hc] _].
      rewrite Heq, Hfresh in Hc. done. }
    induction (DB.conversation_details st) as [|m l IH]; [done|].
    rewrite filter_cons_False; [|apply Hnone; by left].
    apply IH. intros x Hx. apply Hnone. by right.
  - intros other Hne. apply get_conversation_eq; simpl; [done| |done].
    by rewrite lookup_insert_ne.
Qed.

Lemma create_then_get_witness :
  let r := DB.create_conversation "s1" DB.empty_db (Some "hello") in
  r.2 = Return "s1"
  /\ DB.get_conversation r.1 "s1"
     = Some ({| DB.title :=
                  DB.derived_title (DB.prompt_or_default (Some "hello"));
                DB.created_at := DB.now DB.empty_db;
                DB.updated_at := DB.now DB.empty_db |},
             [])
  /\ (forall other, other <> "s1" ->
        DB.get_conversation r.1 other = DB.get_conversation DB.empty_db other).
Proof.
  apply (create_then_get DB.empty_db "s1" (Some "hello"));
    [reflexivity|reflexivity|apply Forall_nil; exact I].
Defined.

(** X5. On a store whose times are in order, a message added with an
    allowed role to a conversation that [get_conversation] finds is read
    back as the last message of that conversation, after the messages it
    had: its timestamp, the time of the transaction, is later than theirs.
    The conversation keeps its creation time, and every other conversation
    reads as before. *)
Theorem add_then_get (st : DB.db) (sid role content : string)
    (reasoning : option string) (c : DB.conversation)
    (messages : list DB.message) :
  DB.chronological st ->
  DB.get_conversation st sid = Some (c, messages) ->
  role = "user" \/ role = "assistant" \/ role = "system" ->
  let r := DB.add_message st sid role content reasoning in
  let row := {| DB.session_id := sid; DB.role := role; DB.content := content;
                DB.reasoning := default EmptyString reasoning;
                DB.timestamp := DB.now st |} in
  r.2 = true
  /\ (exists c', DB.get_conversation r.1 sid = Some (c', messages ++ [row])
                 /\ DB.created_at c' = DB.created_at c)
  /\ (forall other, other <> sid ->
        DB.get_conversation r.1 other = DB.get_conversation st other).
Proof.
  intros Hchron Hget Hrole. simpl.
  pose proof (add_message_result st sid role content reasoning) as Hres.
  pose proof (add_message_rows st sid role content reasoning) as Hrows.
  unfold DB.get_conversation in Hget.
  destruct (DB.connection st) eqn:Hconn; simpl in Hget; [|done].
  destruct (DB.conversations st !! sid) as [c0|] eqn:Hc; [|done].
  rewrite (session_rows_ordered st sid Hchron) in Hget.
  injection Hget as -> <-.
  assert (Hacc : DB.insert_accepted st sid role = true).
  { unfold DB.insert_accepted. rewrite Hc.
    rewrite bool_decide_eq_true_2 by by eexists.
    by destruct Hrole as [-> |[-> | ->]]. }
  rewrite Hacc in Hres, Hrows. simpl in Hres, Hrows.
  split; [done|]. split.
  - assert (Hc' : exists c',
        DB.conversations (DB.add_message st sid role content reasoning).1
        !! sid = Some c' /\ DB.created_at c' = DB.created_at c).
    { unfold DB.add_message. rewrite Hconn, Hacc. simpl.
      destruct (String.eqb role "user"); [|by exists c].
      destruct (_ =? 1); [|by exists c]. simpl.
      unfold DB.update_conversation_title. simpl. rewrite Hconn, Hc. simpl.
      rewrite lookup_insert_eq. by eexists. }
    destruct Hc' as (c' & Hc' & Hcreated). exists c'. split; [|done].
    unfold DB.get_conversation.
    rewrite add_message_connection, Hconn, Hc', Hrows. simpl.
    rewrite filter_app, filter_cons_True, filter_nil by done.
    rewrite order_by_timestamp_sorted; [done|].
    destruct Hchron as (Hbefore & _ & Hsorted).
    apply StronglySorted_app_2.
    + intros m1 m2 Hm1 Hm2. apply list_elem_of_singleton in Hm2 as ->.
      simpl. apply list_elem_of_filter in Hm1 as [_ Hm1].
      rewrite Forall_forall in Hbefore. specialize (Hbefore _ Hm1). lia.
    + eapply strongly_sorted_sublist; [apply sublist_filter|done].
    + repeat constructor.
  - intros other Hne. apply get_conversation_eq.
    + apply add_message_connection.
    + by apply add_message_others.
    + rewrite Hrows, filter_app, filter_cons_False, filter_nil, app_nil_r;
        [done|]. simpl. congruence.
Qed.

Lemma add_then_get_witness :
  let st := (DB.create_conversation "s1" DB.empty_db None).1 in
  let r := DB.add_message st "s1" "system" "be brief" None in
  let row := {| DB.session_id := "s1"; DB.role := "system";
                DB.content := "be brief";
                DB.reasoning := default EmptyString None;
                DB.timestamp := DB.now st |} in
  r.2 = true
  /\ (exists c', DB.get_conversation r.1 "s1" = Some (c', [] ++ [row])
                 /\ DB.created_at c'
                    = DB.created_at {| DB.title := "New Conversation";
                                       DB.created_at := 0;
                                       DB.updated_at := 0 |})
  /\ (forall other, other <> "s1" ->
        DB.get_conversation r.1 other = DB.get_conversation st other).
Proof.
  intros st.
  apply (add_then_get st "s1" "system" "be brief" None
           {| DB.title := "New Conversation"; DB.created_at := 0;
              DB.updated_at := 0 |} []);
    [|reflexivity|right; right; reflexivity].
  exact (perform_chronological DB.empty_db (DB.CreateConversation "s1" None)
           empty_chronological).
Defined.

(** X6. [delete_conversation] answers [True] exactly when it is connected
    and the conversation exists.  Afterwards the conversation cannot be read
    and, when it was deleted, none of its messages is left; every other
    conversation reads as before with all its messages; and deleting again
    answers [False]. *)
Theorem delete_effect (st : DB.db) (sid : string) :
  let r := DB.delete_conversation st sid in
  r.2 = DB.connection st && bool_decide (is_Some (DB.conversations st !! sid))
  /\ DB.get_conversation r.1 sid = None
  /\ (r.2 = true -> DB.count_messages r.1 sid = 0)
  /\ (forall other, other <> sid ->
        DB.get_conversation r.1 other = DB.get_conversation st other)
  /\ (DB.delete_conversation r.1 sid).2 = false.
Proof.
  simpl. unfold DB.delete_conversation, DB.get_conversation.
  destruct (DB.connection st) eqn:Hconn; simpl.
  { destruct (DB.conversations st !! sid) as [c|] eqn:Hc; simpl.
    - rewrite Hconn, lookup_delete_eq. simpl.
      split; [done|]. split; [done|]. split; [|split; [|done]].
      + intros _. unfold DB.count_messages. simpl.
        rewrite list_filter_filter.
        induction (DB.conversation_details st) as [|m l IH]; [done|].
        rewrite filter_cons_False; [done|]. intros [H1 H2]. done.
      + intros other Hne. rewrite lookup_delete_ne by done.
        destruct (DB.conversations st !! other); [|done].
        do 3 f_equal. rewrite list_filter_filter.
        induction (DB.conversation_details st) as [|m l IH]; [done|].
        destruct (decide (DB.session_id m = other)) as [Hm|Hm].
        * rewrite !filter_cons_True; [by rewrite IH|done|].
          split; [done|]. congruence.
        * rewrite !filter_cons_False; [done|done|]. by intros [? _].
    - rewrite Hconn, Hc. simpl. done. }
  rewrite Hconn. done.
Qed.

(** X7. [update_conversation_title] changes nothing but the one
    conversation: the messages and every other conversation stay; the
    conversation, when it exists on a connected store, gets the fitted title
    and the time of the transaction as its update time and keeps its
    creation time; and when the answer is [False] no conversation
    changed. *)
Theorem update_title_effect (st : DB.db) (sid title : string) :
  let r := DB.update_conversation_title st sid title in
  DB.conversation_details r.1 = DB.conversation_details st
  /\ (forall other, other <> sid ->
        DB.conversations r.1 !! other = DB.conversations st !! other)
  /\ (forall c, DB.connection st = true ->
        DB.conversations st !! sid = Some c ->
        r.2 = true
        /\ DB.conversations r.1 !! sid
           = Some {| DB.title := DB.fitted_title title;
                     DB.created_at := DB.created_at c;
                     DB.updated_at := DB.now st |})
  /\ (r.2 = false -> DB.conversations r.1 = DB.conversations st).
Proof.
  simpl. split; [apply update_title_details|].
  split; [intros other; apply update_title_others|].
  unfold DB.update_conversation_title. split.
  - intros c -> ->. simpl. by rewrite lookup_insert_eq.
  - destruct (DB.connection st); simpl; [|done].
    by destruct (DB.conversations st !! sid).
Qed.

(** X8. Once [close] was called, the object does nothing to the database
    until [connect] is called: whatever calls follow, the store stays as
    [close] left it, and on it [create_conversation] answers the empty
    string, the title update, the insert and the delete answer [False],
    [get_conversation] answers [None] and [list_conversations] answers the
    list of one empty dictionary. *)
Theorem closed_store_inert (st : DB.db) (calls : list DB.call)
    (uuid4 sid title role content : string)
    (initial_prompt reasoning : option string) (limit offset : Z) :
  Forall (fun c => c <> DB.Connect) calls ->
  let closed := foldl DB.perform (DB.close st) calls in
  closed = DB.close st
  /\ DB.create_conversation uuid4 closed initial_prompt
     = (closed, Return EmptyString)
  /\ DB.update_conversation_title closed sid title = (closed, false)
  /\ DB.add_message closed sid role content reasoning = (closed, false)
  /\ DB.delete_conversation closed sid = (closed, false)
  /\ DB.get_conversation closed sid = None
  /\ DB.list_conversations closed limit offset = [DB.EmptyDict].
Proof.
  intros Hcalls.
  assert (Hsame : foldl DB.perform (DB.close st) calls = DB.close st).
  { induction calls as [|c calls IH] using rev_ind; [done|].
    apply Forall_app in Hcalls as [Hcalls Hc].
    rewrite Forall_singleton in Hc.
    rewrite foldl_app, IH by done. simpl.
    by destruct c. }
  simpl. rewrite Hsame. done.
Qed.

Lemma closed_store_inert_witness :
  let closed :=
    foldl DB.perform (DB.close DB.empty_db)
      [DB.CreateConversation "s1" None; DB.AddMessage "s1" "user" "hi" None;
       DB.DeleteConversation "s1"] in
  closed = DB.close DB.empty_db
  /\ DB.create_conversation "s2" closed None = (closed, Return EmptyString)
  /\ DB.update_conversation_title closed "s1" "t" = (closed, false)
  /\ DB.add_message closed "s1" "user" "hi" None = (closed, false)
  /\ DB.delete_conversation closed "s1" = (closed, false)
  /\ DB.get_conversation closed "s1" = None
  /\ DB.list_conversations closed 20 0 = [DB.EmptyDict].
Proof.
  apply (closed_store_inert DB.empty_db
           [DB.CreateConversation "s1" None;
            DB.AddMessage "s1" "user" "hi" None; DB.DeleteConversation "s1"]
           "s2" "s1" "t" "user" "hi" None None 20 0).
  repeat constructor; discriminate.
Defined.

(** * Listing the conversations *)

Global Instance newer_first_total : Total DB.newer_first.
Proof. intros a b. unfold DB.newer_first. lia. Qed.

Global Instance newer_first_trans : Transitive DB.newer_first.
Proof. intros a b c. unfold DB.newer_first. lia. Qed.

(** X9. On a connected store, [list_conversations] with a [limit] and an
    [offset] that are not negative returns the summaries of
    [min limit (n - offset)] of the [n] stored conversations, each with its
    stored title and times and none twice, the most recently updated first.
    With no offset and a limit of at least [n], every conversation is
    listed. *)
Theorem list_conversations_page (st : DB.db) (limit offset : Z) :
  DB.connection st = true ->
  (0 <= limit)%Z ->
  (0 <= offset)%Z ->
  exists rows,
    DB.list_conversations st limit offset = DB.summary_of <$> rows
    /\ length rows
       = min (Z.to_nat limit) (size (DB.conversations st) - Z.to_nat offset)
    /\ StronglySorted DB.newer_first rows
    /\ NoDup rows.*1
    /\ (forall row, row ∈ rows -> DB.conversations st !! row.1 = Some row.2)
    /\ (offset = 0%Z -> size (DB.conversations st) <= Z.to_nat limit ->
        rows ≡ₚ map_to_list (DB.conversations st)).
Proof.
  intros Hconn Hlimit Hoffset.
  set (sorted := merge_sort DB.newer_first (map_to_list (DB.conversations st))).
  assert (Hperm : sorted ≡ₚ map_to_list (DB.conversations st))
    by apply merge_sort_Permutation.
  assert (Hsub : take (Z.to_nat limit) (drop (Z.to_nat offset) sorted)
                 `sublist_of` sorted).
  { etrans; [apply sublist_take|apply sublist_drop]. }
  exists (take (Z.to_nat limit) (drop (Z.to_nat offset) sorted)).
  split; [|split; [|split; [|split; [|split]]]].
  - unfold DB.list_conversations. rewrite Hconn. simpl.
    destruct (Z.ltb_spec limit 0); [lia|].
    destruct (Z.ltb_spec offset 0); [lia|]. done.
  - rewrite length_take, length_drop, Hperm, length_map_to_list. done.
  - eapply strongly_sorted_sublist; [exact Hsub|].
    apply StronglySorted_merge_sort; apply _.
  - eapply sublist_NoDup; [|apply fmap_sublist, Hsub].
    rewrite Hperm. apply NoDup_fst_map_to_list.
  - intros [sid c] Hrow. simpl. apply elem_of_map_to_list.
    rewrite <-Hperm. by eapply elem_of_sublist.
  - intros -> Hall. simpl. rewrite drop_0, take_ge; [done|].
    by rewrite Hperm, length_map_to_list.
Qed.

Lemma list_conversations_page_witness :
  exists rows,
    DB.list_conversations (DB.create_conversation "s1" DB.empty_db None).1
      20 0 = DB.summary_of <$> rows
    /\ length rows
       = min (Z.to_nat 20)
           (size (DB.conversations
                    (DB.create_conversation "s1" DB.empty_db None).1)
            - Z.to_nat 0)
    /\ StronglySorted DB.newer_first rows
    /\ NoDup rows.*1
    /\ (forall row, row ∈ rows ->
          DB.conversations (DB.create_conversation "s1" DB.empty_db None).1
          !! row.1 = Some row.2)
    /\ (0%Z = 0%Z ->
        size (DB.conversations
                (DB.create_conversation "s1" DB.empty_db None).1)
        <= Z.to_nat 20 ->
        rows ≡ₚ map_to_list
                  (DB.conversations
                     (DB.create_conversation "s1" DB.empty_db None).1)).
Proof.
  apply (list_conversations_page
           (DB.create_conversation "s1" DB.empty_db None).1 20 0);
    [reflexivity|lia|lia].
Defined.

(** * More on the splitter and the framing *)

Lemma last_occurrence_marker (ids l1 l2 : list Z) :
  ids = l1 ++ END_OF_REASONING :: l2 ->
  END_OF_REASONING ∉ l2 ->
  last_marker_at ids (length l1).
Proof.
  intros -> Hnot. split.
  - by apply list_lookup_middle.
  - intros q Hq Hlook. apply Hnot. apply list_elem_of_lookup.
    exists (q - S (length l1)).
    rewrite lookup_app_r in Hlook by lia.
    replace (q - length l1) with (S (q - S (length l1))) in Hlook by lia.
    done.
Qed.

(** X10. On every output the split index is a position of the output, so
    the reasoning tokens followed by the answer tokens are the whole output.
    The answer tokens never hold the marker; the reasoning tokens are empty
    exactly when the output holds no marker, and otherwise end with the
    marker. *)
Theorem split_partition (ids : list Z) :
  exists index,
    split_index ids = Return index
    /\ index <= length ids
    /\ take index ids ++ drop index ids = ids
    /\ (END_OF_REASONING ∉ drop index ids)
    /\ (index = 0 <-> END_OF_REASONING ∉ ids)
    /\ (index <> 0 -> last (take index ids) = Some END_OF_REASONING).
Proof.
  destruct (decide (END_OF_REASONING ∈ ids)) as [Hin|Hnot].
  - destruct (last_occurrence _ _ Hin) as (l1 & l2 & Heq & Hl2).
    pose proof (last_occurrence_marker ids l1 l2 Heq Hl2) as Hp.
    destruct (split_index_last_marker ids _ Hp) as [_ Hsplit].
    exists (S (length l1)). split; [done|].
    assert (Htake : take (S (length l1)) ids = l1 ++ [END_OF_REASONING]).
    { rewrite Heq, (cons_middle _ l1 l2), app_assoc.
      rewrite take_app_length'; [done|]. rewrite length_app. simpl. lia. }
    assert (Hdrop : drop (S (length l1)) ids = l2).
    { rewrite Heq, (cons_middle _ l1 l2), app_assoc.
      rewrite drop_app_length'; [done|]. rewrite length_app. simpl. lia. }
    split; [rewrite Heq, length_app; simpl; lia|].
    split; [apply take_drop|]. split; [by rewrite Hdrop|].
    split; [split; [done|by intros []]|].
    intros _. rewrite Htake. apply last_snoc.
  - exists 0.
    assert (Hsplit : split_index ids = Return 0).
    { unfold split_index.
      destruct (py_index_absent END_OF_REASONING (rev ids)) as [msg ->];
        [by rewrite elem_of_rev|done]. }
    split; [done|]. split; [lia|]. split; [done|].
    split; [by rewrite drop_0|]. split; [done|]. done.
Qed.

Lemma string_length_differs (a b : string) :
  String.length a <> String.length b -> a <> b.
Proof. intros Hlen ->. done. Qed.

(** X11. The escaping of [generate_stream] cannot be undone: a text with a
    line feed and the text that has a backslash and the letter n in its
    place are different texts with the same escaped text, and so the same
    frame. *)
Theorem escape_newlines_ambiguous (a b : string) :
  a +:+ String LF b <> a +:+ backslash_n +:+ b
  /\ Bot.escape_newlines (a +:+ String LF b)
     = Bot.escape_newlines (a +:+ backslash_n +:+ b)
  /\ Bot.sse_frame (a +:+ String LF b)
     = Bot.sse_frame (a +:+ backslash_n +:+ b).
Proof.
  assert (Hesc : Bot.escape_newlines (a +:+ String LF b)
                 = Bot.escape_newlines (a +:+ backslash_n +:+ b)).
  { rewrite !escape_newlines_app. f_equal. }
  split; [|split; [done|]].
  - apply string_length_differs. rewrite !string_length_append. simpl. lia.
  - unfold Bot.sse_frame. by rewrite Hesc.
Qed.

(** * Properties of the [Bot] object *)

Lemma generate_success (decode : list Z -> string) (b : Bot.bot) (st : DB.db) (ids : list Z) :
  Bot.loaded b = true ->
  Bot.messages b <> [] ->
  (Bot.has_db b = true -> is_Some (Bot.session_id b)) ->
  exists thinking answer st',
    split_output decode ids = Return (thinking, answer)
    /\ Bot.generate decode b st ids
       = (Bot.set_answer
            (Bot.record_turn (Bot.record_turn b "user" (Bot.user_input b))
               "assistant" answer)
            thinking answer,
          st', Return tt)
    /\ (Bot.has_db b = false -> st' = st)
    /\ (forall sid, Bot.has_db b = true -> Bot.session_id b = Some sid ->
          st' = (DB.add_message
                   (DB.add_message st sid "user" (Bot.user_input b) None).1
                   sid "assistant" answer (Some thinking)).1).
Proof.
  intros Hloaded Hmsgs Hsession.
  destruct (split_output_returns decode ids) as [[thinking answer] Hsplit].
  exists thinking, answer. unfold Bot.generate. rewrite Hloaded. simpl.
  destruct (Bot.messages b) as [|m ms]; [done|].
  destruct (Bot.has_db b) eqn:Hdb.
  - destruct (Hsession eq_refl) as [sid Hsid]. rewrite Hsid, Hsplit.
    eexists. split; [done|]. split; [done|]. split; [done|].
    by intros sid' _ [= <-].
  - rewrite Hsplit. exists st. split; [done|]. split; [|done].
    by destruct (Bot.session_id b).
Qed.

(** X12. [generate] returns exactly when the model is loaded, a prompt was
    set, and, if the object has a database, its session was set.  When it
    raises, the database, the answer and the reasoning are as before, and
    the history is as before or longer by the user turn (the case of a
    database without a session).  Without a database, [generate] never
    changes the store. *)
Theorem generate_outcome (decode : list Z -> string) (b : Bot.bot) (st : DB.db) (ids : list Z) :
  let r := Bot.generate decode b st ids in
  (r.2 = Return tt <->
   Bot.loaded b = true /\ Bot.messages b <> []
   /\ (Bot.has_db b = true -> is_Some (Bot.session_id b)))
  /\ (r.2 <> Return tt ->
      r.1.2 = st
      /\ Bot.content r.1.1 = Bot.content b
      /\ Bot.thinking_content r.1.1 = Bot.thinking_content b
      /\ (r.1.1 = b \/ r.1.1 = Bot.record_turn b "user" (Bot.user_input b)))
  /\ (Bot.has_db b = false -> r.1.2 = st).
Proof.
  simpl. unfold Bot.generate.
  destruct (split_output_returns decode ids) as [[thinking answer] Hsplit].
  destruct (Bot.loaded b); simpl.
  2:{ split; [split; [done|by intros [? _]]|]. split; [|done]. intros _.
      split; [done|]. split; [done|]. split; [done|]. by left. }
  destruct (Bot.messages b) as [|m ms]; simpl.
  { split; [split; [done|by intros (_ & ? & _)]|]. split; [|done]. intros _.
    split; [done|]. split; [done|]. split; [done|]. by left. }
  destruct (Bot.has_db b); simpl.
  - destruct (Bot.session_id b) as [sid|]; simpl.
    + rewrite Hsplit. split; [split; [eauto|done]|]. split; [|done].
      by intros [].
    + split.
      * split; [done|]. intros (_ & _ & Hs). by destruct (Hs eq_refl).
      * split; [|done]. intros _. split; [done|]. split; [done|].
        split; [done|]. by right.
  - rewrite Hsplit. split; [split; [done|done]|]. split; [by intros []|done].
Qed.

(** X13. On a loaded object without database, [prompt] followed by
    [generate] returns, whatever role the prompt was given: the history
    grows by the prompt, recorded as a user turn, and by the answer as an
    assistant turn; the model was shown the earlier history followed by the
    prompt under the role given; and [get_content] and [get_thinking]
    return the answer and the reasoning split from the output. *)
Theorem prompt_then_generate (decode : list Z -> string) (b : Bot.bot) (st : DB.db) (text role : string)
    (ids : list Z) :
  Bot.loaded b = true ->
  Bot.has_db b = false ->
  let r := Bot.generate decode (Bot.prompt b text role) st ids in
  r.2 = Return tt
  /\ r.1.2 = st
  /\ Bot.history r.1.1 = Bot.history b ++ Bot.transcript decode (text, ids)
  /\ Bot.messages r.1.1
     = Bot.history b ++ [{| Bot.turn_role := role; Bot.turn_content := text |}]
  /\ exists thinking answer,
       split_output decode ids = Return (thinking, answer)
       /\ Bot.get_content r.1.1 = Return answer
       /\ Bot.get_thinking r.1.1 = Return thinking.
Proof.
  intros Hloaded Hdb. simpl.
  destruct (generate_success decode (Bot.prompt b text role) st ids)
    as (thinking & answer & st' & Hsplit & Hgen & Hst & _).
  - done.
  - simpl. by destruct (Bot.history b).
  - simpl. by rewrite Hdb.
  - rewrite Hgen. simpl. split; [done|]. split; [by apply Hst|].
    split; [|split; [done|by exists thinking, answer]].
    unfold Bot.transcript. simpl. by rewrite Hsplit, <-app_assoc.
Qed.

Lemma prompt_then_generate_witness :
  let b := Bot.load_model (Bot.new_bot false) in
  let r := Bot.generate (fun _ => "4") (Bot.prompt b "2+2?" "system")
             DB.empty_db [19%Z] in
  r.2 = Return tt
  /\ r.1.2 = DB.empty_db
  /\ Bot.history r.1.1
     = Bot.history b ++ Bot.transcript (fun _ => "4") ("2+2?", [19%Z])
  /\ Bot.messages r.1.1
     = Bot.history b
       ++ [{| Bot.turn_role := "system"; Bot.turn_content := "2+2?" |}]
  /\ exists thinking answer,
       split_output (fun _ => "4") [19%Z] = Return (thinking, answer)
       /\ Bot.get_content r.1.1 = Return answer
       /\ Bot.get_thinking r.1.1 = Return thinking.
Proof.
  intros b.
  apply (prompt_then_generate (fun _ => "4") b DB.empty_db "2+2?" "system"
           [19%Z]);
    reflexivity.
Defined.

Lemma exchange_step (decode : list Z -> string) (s : Bot.bot * DB.db)
    (round : string * list Z) :
  Bot.loaded s.1 = true ->
  (Bot.has_db s.1 = true -> is_Some (Bot.session_id s.1)) ->
  let s' := Bot.exchange decode s round in
  Bot.history s'.1 = Bot.history s.1 ++ Bot.transcript decode round
  /\ Bot.loaded s'.1 = true
  /\ Bot.has_db s'.1 = Bot.has_db s.1
  /\ Bot.session_id s'.1 = Bot.session_id s.1
  /\ (Bot.has_db s.1 = false -> s'.2 = s.2).
Proof.
  intros Hloaded Hsession. simpl. unfold Bot.exchange.
  destruct (generate_success decode (Bot.prompt s.1 round.1 "user") s.2
              round.2)
    as (thinking & answer & st' & Hsplit & Hgen & Hst & _).
  - done.
  - simpl. by destruct (Bot.history s.1).
  - done.
  - rewrite Hgen. simpl. unfold Bot.transcript. rewrite Hsplit. simpl.
    split; [by rewrite <-app_assoc|]. done.
Qed.

(** X14. A conversation held with a loaded object (one that has no
    database, or has its session set) is recorded in full: after any number
    of exchanges of a prompt and its answer, the history is the history
    from before followed by, for each exchange in order, the prompt as a
    user turn and the answer as an assistant turn, two entries per
    exchange.  Without a database the store is never touched. *)
Theorem conversation_history (decode : list Z -> string) (b : Bot.bot)
    (st : DB.db) (rounds : list (string * list Z)) :
  Bot.loaded b = true ->
  (Bot.has_db b = true -> is_Some (Bot.session_id b)) ->
  let s := foldl (Bot.exchange decode) (b, st) rounds in
  Bot.history s.1
  = Bot.history b ++ flat_map (Bot.transcript decode) rounds
  /\ length (Bot.history s.1) = length (Bot.history b) + 2 * length rounds
  /\ (Bot.has_db b = false -> s.2 = st).
Proof.
  intros Hloaded Hsession. simpl.
  assert (Hinv : let s := foldl (Bot.exchange decode) (b, st) rounds in
    Bot.history s.1
    = Bot.history b ++ flat_map (Bot.transcript decode) rounds
    /\ Bot.loaded s.1 = true
    /\ Bot.has_db s.1 = Bot.has_db b
    /\ Bot.session_id s.1 = Bot.session_id b
    /\ (Bot.has_db b = false -> s.2 = st)).
  { induction rounds as [|round rounds IH] using rev_ind; simpl.
    - by rewrite app_nil_r.
    - rewrite foldl_app. simpl. simpl in IH.
      destruct IH as (Hh & Hl & Hd & Hs & Hst).
      destruct (exchange_step decode
                  (foldl (Bot.exchange decode) (b, st) rounds) round)
        as (Hh' & Hl' & Hd' & Hs' & Hst').
      + done.
      + by rewrite Hd, Hs.
      + simpl in *. rewrite Hh', Hh, flat_map_app. cbn [flat_map].
        rewrite app_nil_r, <-app_assoc.
        split; [done|]. split; [done|]. split; [congruence|].
        split; [congruence|]. intros Hdb.
        rewrite Hst' by congruence. by apply Hst. }
  destruct Hinv as (Hh & _ & _ & _ & Hst). split; [done|]. split; [|done].
  rewrite Hh, length_app. f_equal.
  clear. induction rounds as [|round rounds IH]; simpl; [done|].
  rewrite IH. lia.
Qed.

Lemma conversation_history_witness :
  let decode := fun _ : list Z => "ok" in
  let b := Bot.load_model (Bot.new_bot false) in
  let s := foldl (Bot.exchange decode) (b, DB.empty_db)
             [("hi", [1%Z]); ("again", [2%Z])] in
  Bot.history s.1
  = Bot.history b
    ++ flat_map (Bot.transcript decode) [("hi", [1%Z]); ("again", [2%Z])]
  /\ length (Bot.history s.1)
     = length (Bot.history b)
       + 2 * length [("hi", [1%Z]); ("again", [2%Z])]
  /\ (Bot.has_db b = false -> s.2 = DB.empty_db).
Proof.
  intros decode b.
  apply (conversation_history decode b DB.empty_db
           [("hi", [1%Z]); ("again", [2%Z])]); [reflexivity|discriminate].
Defined.

Lemma fresh_session_rows (st : DB.db) (sid : string) :
  DB.consistent st ->
  DB.conversations st !! sid = None ->
  filter (fun m => DB.session_id m = sid) (DB.conversation_details st) = [].
Proof.
  unfold DB.consistent. intros Hcons Hfresh.
  induction Hcons as [|m l [[c Hc] _] Hl IH]; [done|].
  rewrite filter_cons_False; [done|]. intros Heq.
  rewrite Heq, Hfresh in Hc. done.
Qed.

(** X15. On a loaded object with a database, connected and consistent,
    [start_new_conversation] followed by a prompt and [generate] stores the
    exchange: both calls return, the history holds the exchange, and
    [get_conversation_history] returns the new conversation, titled with
    the title derived from the prompt, with exactly two messages, the user
    turn and then the assistant turn with the answer and the reasoning, the
    second stamped later than the first.  [delete_conversation] then
    answers [True], after which [get_conversation_history] returns the
    empty list. *)
Theorem new_conversation_exchange (decode : list Z -> string) (b : Bot.bot)
    (st : DB.db) (uuid4 text : string) (ids : list Z) :
  Bot.loaded b = true ->
  Bot.has_db b = true ->
  DB.connection st = true ->
  DB.conversations st !! uuid4 = None ->
  DB.consistent st ->
  let s := Bot.start_new_conversation uuid4 b st in
  let r := Bot.generate decode (Bot.prompt s.1.1 text "user") s.1.2 ids in
  let d := Bot.delete_conversation r.1.1 r.1.2 uuid4 in
  s.2 = Return uuid4
  /\ r.2 = Return tt
  /\ Bot.history r.1.1 = Bot.transcript decode (text, ids)
  /\ (exists c thinking answer t1 t2,
        split_output decode ids = Return (thinking, answer)
        /\ t1 < t2
        /\ DB.title c = DB.derived_title text
        /\ Bot.get_conversation_history r.1.1 r.1.2 uuid4
           = Bot.Stored c
               [{| DB.session_id := uuid4; DB.role := "user";
                   DB.content := text; DB.reasoning := EmptyString;
                   DB.timestamp := t1 |};
                {| DB.session_id := uuid4; DB.role := "assistant";
                   DB.content := answer; DB.reasoning := thinking;
                   DB.timestamp := t2 |}])
  /\ d.2 = true
  /\ Bot.get_conversation_history r.1.1 d.1 uuid4 = Bot.EmptyList.
Proof.
  intros Hloaded Hdb Hconn Hfresh Hcons.
  pose proof (fresh_session_rows st uuid4 Hcons Hfresh) as Hnone.
  pose (c0 := {| DB.title := DB.derived_title "New Conversation";
                 DB.created_at := DB.now st; DB.updated_at := DB.now st |}).
  pose (st1 := DB.end_transaction
                 (DB.set_conversations st
                    (<[uuid4:=c0]> (DB.conversations st)))).
  pose (b1 := {| Bot.loaded := Bot.loaded b; Bot.history := [];
                 Bot.user_input := Bot.user_input b;
                 Bot.messages := Bot.messages b; Bot.content := Bot.content b;
                 Bot.thinking_content := Bot.thinking_content b;
                 Bot.has_db := true; Bot.session_id := Some uuid4 |}).
  assert (Hstart : Bot.start_new_conversation uuid4 b st
                   = (b1, st1, Return uuid4)).
  { unfold Bot.start_new_conversation, DB.create_conversation.
    rewrite Hconn, Hfresh. simpl. by rewrite !Hdb. }
  cbv zeta. rewrite Hstart. cbn [fst snd].
  assert (Hconn1 : DB.connection st1 = true) by done.
  assert (Hc1 : DB.conversations st1 !! uuid4 = Some c0)
    by (simpl; apply lookup_insert_eq).
  assert (Hcount1 : DB.count_messages st1 uuid4 = 0).
  { unfold DB.count_messages. simpl. by rewrite Hnone. }
  destruct (generate_success decode (Bot.prompt b1 text "user") st1 ids)
    as (thinking & answer & st' & Hsplit & Hgen & _ & Hst');
    [done|done|by eexists|].
  specialize (Hst' uuid4 eq_refl eq_refl). simpl in Hst'.
  rewrite Hgen. cbn [fst snd].
  set (st2 := (DB.add_message st1 uuid4 "user" text None).1) in *.
  destruct (add_message_row st1 uuid4 "user" text None c0 Hconn1 Hc1
              (or_introl eq_refl))
    as (Hrows2 & Hnow2 & Hconn2 & [c2 Hc2]).
  fold st2 in Hrows2, Hnow2, Hconn2, Hc2.
  destruct (add_message_row st2 uuid4 "assistant" answer (Some thinking) c2
              Hconn2 Hc2 (or_intror eq_refl))
    as (Hrows3 & Hnow3 & Hconn3 & [c3 Hc3]).
  rewrite <-Hst' in Hrows3, Hnow3, Hconn3, Hc3.
  assert (Htitle : DB.title c3 = DB.derived_title text).
  { pose proof (add_message_title st1 uuid4 "user" text None) as H2.
    pose proof (add_message_title st2 uuid4 "assistant" answer
                  (Some thinking)) as H3.
    fold st2 in H2. rewrite <-Hst' in H3.
    rewrite andb_false_r in H3. simpl in H3.
    unfold DB.insert_accepted in H2.
    rewrite Hconn1, Hc1, Hcount1, bool_decide_eq_true_2 in H2 by by eexists.
    simpl in H2. rewrite H2 in H3. unfold DB.stored_title in H3.
    rewrite Hc3 in H3. by injection H3. }
  assert (Hget : DB.get_conversation st' uuid4
                 = Some (c3,
                     [{| DB.session_id := uuid4; DB.role := "user";
                         DB.content := text; DB.reasoning := EmptyString;
                         DB.timestamp := DB.now st1 |};
                      {| DB.session_id := uuid4; DB.role := "assistant";
                         DB.content := answer; DB.reasoning := thinking;
                         DB.timestamp := DB.now st2 |}])).
  { unfold DB.get_conversation. rewrite Hconn3, Hc3. simpl.
    rewrite Hrows3, Hrows2. simpl.
    rewrite !filter_app, Hnone, !filter_cons_True, filter_nil by done.
    rewrite order_by_timestamp_sorted; [done|]. simpl.
    apply SSorted_cons; [apply SSorted_cons; [apply SSorted_nil|]|].
    - by apply Forall_nil.
    - apply Forall_cons.
      split; [exact (Nat.lt_le_incl _ _ Hnow2)|by apply Forall_nil]. }
  split; [done|]. split; [done|].
  split; [unfold Bot.transcript; cbn [fst snd]; by rewrite Hsplit|].
  split; [|split].
  - exists c3, thinking, answer, (DB.now st1), (DB.now st2).
    split; [done|]. split; [done|]. split; [done|].
    unfold Bot.get_conversation_history. simpl. by rewrite Hget.
  - unfold Bot.delete_conversation, DB.delete_conversation. simpl.
    by rewrite Hconn3, Hc3.
  - unfold Bot.get_conversation_history, Bot.delete_conversation,
      DB.delete_conversation, DB.get_conversation. simpl.
    rewrite Hconn3, Hc3. simpl. by rewrite Hconn3, lookup_delete_eq.
Qed.

Lemma new_conversation_exchange_witness :
  let decode := fun ids : list Z =>
                  match ids with [] => EmptyString | _ => "4" end in
  let b := Bot.load_model (Bot.new_bot true) in
  let s := Bot.start_new_conversation "s1" b DB.empty_db in
  let r := Bot.generate decode (Bot.prompt s.1.1 "2+2?" "user") s.1.2
             [19%Z] in
  let d := Bot.delete_conversation r.1.1 r.1.2 "s1" in
  s.2 = Return "s1"
  /\ r.2 = Return tt
  /\ Bot.history r.1.1 = Bot.transcript decode ("2+2?", [19%Z])
  /\ (exists c thinking answer t1 t2,
        split_output decode [19%Z] = Return (thinking, answer)
        /\ t1 < t2
        /\ DB.title c = DB.derived_title "2+2?"
        /\ Bot.get_conversation_history r.1.1 r.1.2 "s1"
           = Bot.Stored c
               [{| DB.session_id := "s1"; DB.role := "user";
                   DB.content := "2+2?"; DB.reasoning := EmptyString;
                   DB.timestamp := t1 |};
                {| DB.session_id := "s1"; DB.role := "assistant";
                   DB.content := answer; DB.reasoning := thinking;
                   DB.timestamp := t2 |}])
  /\ d.2 = true
  /\ Bot.get_conversation_history r.1.1 d.1 "s1" = Bot.EmptyList.
Proof.
  intros decode b.
  apply (new_conversation_exchange decode b DB.empty_db "s1" "2+2?" [19%Z]);
    try reflexivity. apply Forall_nil. exact I.
Defined.

(** * More on one streaming request *)

Lemma load_failure_reported_witness :
  let sc := {| Session.session_id := "s1"; Session.prompt := "2+2?";
               Session.thinking := false;
               Session.load_error := Some "no such file";
               Session.engine := Bot.Completes [] [] |} in
  let w := Session.run (fun _ => EmptyString) sc
             [Session.Main; Session.Consumer; Session.Main; Session.Main;
              Session.Consumer]
             (Session.init DB.empty_db) in
  Session.output_log w = [Some (Api.error_frame "no such file"); None]
  /\ Session.main w = Api.MRaised.
Proof.
  intros sc.
  apply (load_failure_reported (fun _ => EmptyString) sc DB.empty_db _
           "no such file"); [reflexivity|simpl; lia].
Defined.

Lemma complete_delivery_reachable_witness :
  let sc := {| Session.session_id := "s1"; Session.prompt := "2+2?";
               Session.thinking := false; Session.load_error := None;
               Session.engine := Bot.Completes [("4", true)] [19%Z] |} in
  exists schedule,
    let w := Session.run (fun _ => "4") sc schedule
               (Session.init DB.empty_db) in
    Session.output_log w = Session.channel_contents sc
    /\ Api.delivered (Session.client w)
       = Api.deliveries (Session.channel_contents sc)
    /\ Api.closed (Session.client w) = true.
Proof.
  intros sc.
  apply (complete_delivery_reachable (fun _ => "4") sc DB.empty_db);
    reflexivity.
Defined.

(** X18. A generation that fails stores nothing: when [load_model] raises,
    or when [model.generate] raises, the store is untouched in every
    interleaving, so the prompt of the user is not kept. *)
Theorem failure_persists_nothing (decode : list Z -> string)
    (sc : Session.scenario) (st0 : DB.db) (schedule : list Session.actor) :
  Session.load_error sc <> None
  \/ (exists calls error, Session.engine sc = Bot.Fails calls error) ->
  Session.store (Session.run decode sc schedule (Session.init st0)) = st0.
Proof.
  intros Hfail.
  pose proof (persist_inv_run decode sc st0 schedule _
                (persist_inv_init decode sc st0)) as Hinv.
  destruct Hinv as [[Hst _]|(calls & ids & He & Hload & _)]; [done|].
  destruct Hfail as [Hfail|(calls' & error & Hfail)]; [done|congruence].
Qed.

Lemma failure_persists_nothing_witness :
  Session.store
    (Session.run (fun _ => EmptyString)
       {| Session.session_id := "s1"; Session.prompt := "2+2?";
          Session.thinking := false; Session.load_error := None;
          Session.engine := Bot.Fails [("The", false)] "CUDA error" |}
       [Session.Main; Session.Generator; Session.Generator;
        Session.Generator; Session.Main; Session.Consumer]
       (Session.init (DB.create_conversation "s1" DB.empty_db None).1))
  = (DB.create_conversation "s1" DB.empty_db None).1.
Proof.
  apply (failure_persists_nothing (fun _ => EmptyString)
           {| Session.session_id := "s1"; Session.prompt := "2+2?";
              Session.thinking := false; Session.load_error := None;
              Session.engine := Bot.Fails [("The", false)] "CUDA error" |}).
  right. by eexists _, _.
Defined.

Lemma add_message_unknown (st : DB.db) (sid role content : string)
    (reasoning : option string) :
  DB.conversations st !! sid = None ->
  DB.conversations (DB.add_message st sid role content reasoning).1
  = DB.conversations st
  /\ DB.conversation_details (DB.add_message st sid role content reasoning).1
     = DB.conversation_details st.
Proof.
  intros Hnone. unfold DB.add_message, DB.insert_accepted. rewrite Hnone.
  rewrite bool_decide_eq_false_2 by (by intros [? ?]).
  by destruct (DB.connection st).
Qed.

(** X19. [stream_response] does not look the conversation up: for a
    well-formed identifier it starts the worker whether or not the
    conversation exists.  When it does not exist, the two inserts of the
    worker are rejected: in every interleaving the store holds the same
    conversations and the same messages as before, so neither turn of the
    exchange is kept. *)
Theorem unknown_session_stream (uuid_ok : string -> bool)
    (str_exn : exn -> string) (decode : list Z -> string)
    (sc : Session.scenario) (st0 : DB.db) (schedule : list Session.actor) :
  uuid_ok (Session.session_id sc) = true ->
  DB.conversations st0 !! Session.session_id sc = None ->
  let w := Session.run decode sc schedule (Session.init st0) in
  Api.stream_response uuid_ok str_exn st0 (Session.session_id sc)
    (Session.prompt sc) (Session.thinking sc)
  = {| Api.result := Return Api.EventStream; Api.store_after := st0;
       Api.effects :=
         [Api.ManagerStarted;
          Api.WorkerStarted (Session.session_id sc) (Session.prompt sc)
            (Session.thinking sc)] |}
  /\ DB.conversations (Session.store w) = DB.conversations st0
  /\ DB.conversation_details (Session.store w) = DB.conversation_details st0.
Proof.
  intros Hok Hnone w. split.
  { unfold Api.stream_response, Api.validate. by rewrite Hok. }
  pose proof (persist_inv_run decode sc st0 schedule _
                (persist_inv_init decode sc st0)) as Hinv.
  fold w in Hinv.
  destruct (add_message_unknown st0 (Session.session_id sc) "user"
              (Session.prompt sc) None Hnone) as [Hc1 Hd1].
  fold (Session.store_after_user sc st0) in Hc1, Hd1.
  destruct Hinv as [[Hst _]
    |(calls & ids & He & Hload & _ & Hlog & [[Hst _]|[Hst _]])];
    rewrite Hst; [done|done|].
  unfold Session.store_after_assistant.
  destruct (split_output_returns decode ids) as [[reasoning content] ->].
  destruct (add_message_unknown (Session.store_after_user sc st0)
              (Session.session_id sc) "assistant" content (Some reasoning))
    as [Hc2 Hd2]; [by rewrite Hc1|].
  by rewrite Hc2, Hd2.
Qed.

Lemma unknown_session_stream_witness :
  let sc := {| Session.session_id := "123e4567-e89b-12d3-a456-426614174000";
               Session.prompt := "2+2?"; Session.thinking := false;
               Session.load_error := None;
               Session.engine := Bot.Completes [("4", true)] [19%Z] |} in
  let w := Session.run (fun _ => "4") sc
             [Session.Main; Session.Generator; Session.Generator;
              Session.Generator; Session.Generator]
             (Session.init DB.empty_db) in
  Api.stream_response Api.canonical_uuid Api.message_of DB.empty_db
    (Session.session_id sc) (Session.prompt sc) (Session.thinking sc)
  = {| Api.result := Return Api.EventStream; Api.store_after := DB.empty_db;
       Api.effects :=
         [Api.ManagerStarted;
          Api.WorkerStarted (Session.session_id sc) (Session.prompt sc)
            (Session.thinking sc)] |}
  /\ DB.conversations (Session.store w) = DB.conversations DB.empty_db
  /\ DB.conversation_details (Session.store w)
     = DB.conversation_details DB.empty_db.
Proof.
  intros sc.
  apply (unknown_session_stream Api.canonical_uuid Api.message_of
           (fun _ => "4") sc DB.empty_db); reflexivity.
Defined.

(** X20. Streaming to a conversation sets its title only through the first
    message: in every interleaving, the title of an existing conversation
    on a connected store is the title derived from the prompt once a row
    was added to a conversation that had no message, and the title it had
    in every other case. *)
Theorem stream_title (decode : list Z -> string) (sc : Session.scenario)
    (st0 : DB.db) (schedule : list Session.actor) (conv : DB.conversation) :
  DB.connection st0 = true ->
  DB.conversations st0 !! Session.session_id sc = Some conv ->
  let w := Session.run decode sc schedule (Session.init st0) in
  DB.stored_title (Session.store w) (Session.session_id sc)
  = Some (if (DB.count_messages st0 (Session.session_id sc) =? 0)
             && (length (DB.conversation_details st0)
                 <? length (DB.conversation_details (Session.store w)))
          then DB.derived_title (Session.prompt sc)
          else DB.title conv).
Proof.
  intros Hconn Hconv w.
  pose proof (persist_inv_run decode sc st0 schedule _
                (persist_inv_init decode sc st0)) as Hinv.
  fold w in Hinv.
  destruct (add_message_row st0 (Session.session_id sc) "user"
              (Session.prompt sc) None conv Hconn Hconv (or_introl eq_refl))
    as (Hrows1 & _ & Hconn1 & [conv1 Hconv1]).
  pose proof (add_message_title st0 (Session.session_id sc) "user"
                (Session.prompt sc) None) as Htitle1.
  fold (Session.store_after_user sc st0)
    in Hrows1, Hconn1, Hconv1, Htitle1.
  assert (Hacc : DB.insert_accepted st0 (Session.session_id sc) "user" = true).
  { unfold DB.insert_accepted. rewrite Hconv.
    by rewrite bool_decide_eq_true_2 by by eexists. }
  rewrite Hconn, Hacc in Htitle1. simpl in Htitle1.
  assert (Hold : DB.stored_title st0 (Session.session_id sc)
                 = Some (DB.title conv)).
  { unfold DB.stored_title. by rewrite Hconv. }
  destruct Hinv as [[Hst _]
    |(calls & ids & He & Hload & _ & Hlog & [[Hst _]|[Hst _]])];
    rewrite Hst.
  - rewrite Nat.ltb_irrefl, andb_false_r. done.
  - rewrite Htitle1, Hrows1, length_app. simpl.
    replace (length (DB.conversation_details st0)
             <? length (DB.conversation_details st0) + 1) with true
      by (symmetry; apply Nat.ltb_lt; lia).
    rewrite andb_true_r, Hold.
    by destruct (DB.count_messages st0 (Session.session_id sc) =? 0).
  - unfold Session.store_after_assistant.
    destruct (split_output_returns decode ids) as [[reasoning content] ->].
    rewrite add_message_title.
    rewrite andb_false_r. simpl.
    destruct (add_message_row (Session.store_after_user sc st0)
                (Session.session_id sc) "assistant" content (Some reasoning)
                conv1 Hconn1 Hconv1 (or_intror eq_refl)) as (Hrows2 & _).
    rewrite Htitle1, Hrows2, Hrows1, !length_app. simpl.
    replace (length (DB.conversation_details st0)
             <? length (DB.conversation_details st0) + 1 + 1) with true
      by (symmetry; apply Nat.ltb_lt; lia).
    rewrite andb_true_r, Hold.
    by destruct (DB.count_messages st0 (Session.session_id sc) =? 0).
Qed.

Lemma stream_title_witness :
  let decode := fun ids : list Z =>
                  match ids with [] => EmptyString | _ => "4" end in
  let sc := {| Session.session_id := "s1"; Session.prompt := "2+2?";
               Session.thinking := false; Session.load_error := None;
               Session.engine := Bot.Completes [("4", true)] [19%Z] |} in
  let st0 := (DB.create_conversation "s1" DB.empty_db None).1 in
  let w := Session.run decode sc
             [Session.Main; Session.Generator; Session.Generator;
              Session.Generator]
             (Session.init st0) in
  DB.stored_title (Session.store w) (Session.session_id sc)
  = Some (if (DB.count_messages st0 (Session.session_id sc) =? 0)
             && (length (DB.conversation_details st0)
                 <? length (DB.conversation_details (Session.store w)))
          then DB.derived_title (Session.prompt sc)
          else DB.title {| DB.title := "New Conversation";
                           DB.created_at := 0; DB.updated_at := 0 |}).
Proof.
  intros decode sc st0.
  apply (stream_title decode sc st0 _
           {| DB.title := "New Conversation"; DB.created_at := 0;
              DB.updated_at := 0 |}); reflexivity.
Defined.

(** * The endpoints of the conversations *)

Lemma listed_first (st : DB.db) (sid : string) (c : DB.conversation)
    (limit : Z) :
  DB.connection st = true ->
  (0 < limit)%Z ->
  DB.conversations st !! sid = Some c ->
  (forall other c', other <> sid ->
     DB.conversations st !! other = Some c' ->
     DB.updated_at c' < DB.updated_at c) ->
  head (DB.list_conversations st limit 0) = Some (DB.summary_of (sid, c)).
Proof.
  intros Hconn Hlimit Hc Hnewest. unfold DB.list_conversations.
  rewrite Hconn. simpl.
  destruct (Z.ltb_spec limit 0); [lia|]. simpl. rewrite drop_0.
  pose proof (merge_sort_Permutation DB.newer_first
                (map_to_list (DB.conversations st))) as Hperm.
  pose proof (StronglySorted_merge_sort DB.newer_first
                (map_to_list (DB.conversations st))) as Hsorted.
  assert (Hin : (sid, c) ∈ merge_sort DB.newer_first
                             (map_to_list (DB.conversations st))).
  { rewrite Hperm. by apply elem_of_map_to_list. }
  destruct (merge_sort DB.newer_first (map_to_list (DB.conversations st)))
    as [|x rest]; [by apply elem_of_nil in Hin|].
  destruct (Z.to_nat limit) as [|n] eqn:Hn; [lia|]. simpl. do 2 f_equal.
  apply elem_of_cons in Hin as [Hin|Hin]; [done|].
  apply StronglySorted_inv in Hsorted as [_ Hall].
  rewrite Forall_forall in Hall. specialize (Hall _ Hin).
  unfold DB.newer_first in Hall. simpl in Hall.
  assert (Hx : DB.conversations st !! x.1 = Some x.2).
  { apply elem_of_map_to_list. rewrite <-Hperm.
    destruct x. simpl. by left. }
  destruct (decide (x.1 = sid)) as [Heq|Hne].
  - rewrite Heq, Hc in Hx. destruct x. simpl in *. congruence.
  - specialize (Hnewest _ _ Hne Hx). lia.
Qed.

(** X21. A conversation made by [new_conversation] on a connected store
    whose times are in order, under an identifier not in use, is there for
    the other endpoints: [get_conversation] answers with it, titled with the
    title derived from the given one (or from ["New Conversation"] when none
    or an empty one is given) and without messages, and [get_conversations]
    lists it first. *)
Theorem new_conversation_round_trip (uuid_ok : string -> bool)
    (str_exn : exn -> string) (st : DB.db) (uuid4 : string)
    (title : option string) (limit : Z) :
  uuid_ok uuid4 = true ->
  DB.connection st = true ->
  DB.conversations st !! uuid4 = None ->
  DB.consistent st ->
  DB.chronological st ->
  (0 < limit)%Z ->
  let r := Api.new_conversation str_exn uuid4 st title in
  let c := {| DB.title :=
                DB.derived_title
                  (match title with
                   | None | Some EmptyString => "New Conversation"
                   | Some t => t
                   end);
              DB.created_at := DB.now st; DB.updated_at := DB.now st |} in
  r.2 = Return uuid4
  /\ Api.get_conversation uuid_ok str_exn r.1 uuid4
     = {| Api.result := Return (Api.ConversationBody c []);
          Api.store_after := r.1; Api.effects := [Api.StorageAccess] |}
  /\ (exists rest,
        Api.get_conversations r.1 limit 0
        = Return (DB.Summary uuid4 (DB.title c) (DB.now st) (DB.now st)
                  :: rest)).
Proof.
  intros Hok Hconn Hfresh Hcons Hchron Hlimit r c.
  assert (Hprompt : DB.prompt_or_default
                      (Some match title with
                            | None | Some EmptyString => "New Conversation"
                            | Some t => t
                            end)
                    = match title with
                      | None | Some EmptyString => "New Conversation"
                      | Some t => t
                      end).
  { by destruct title as [[|a t]|]. }
  assert (Hr : r = (DB.end_transaction
                      (DB.set_conversations st
                         (<[uuid4 := c]> (DB.conversations st))),
                    Return uuid4)).
  { unfold r, Api.new_conversation, DB.create_conversation.
    rewrite Hprompt, Hconn, Hfresh. done. }
  rewrite Hr. cbn [fst snd]. split; [done|]. split.
  - unfold Api.get_conversation, Api.validate. rewrite Hok.
    unfold DB.get_conversation. simpl. rewrite Hconn, lookup_insert_eq.
    simpl. by rewrite (fresh_session_rows st uuid4 Hcons Hfresh).
  - unfold Api.get_conversations.
    pose proof (listed_first
                  (DB.end_transaction
                     (DB.set_conversations st
                        (<[uuid4 := c]> (DB.conversations st))))
                  uuid4 c limit) as Hhead.
    destruct (DB.list_conversations _ limit 0) as [|x rest].
    + exfalso. simpl in Hhead. rewrite Hconn, lookup_insert_eq in Hhead.
      specialize (Hhead eq_refl Hlimit eq_refl).
      assert (Hnone : @None DB.summary = Some (DB.summary_of (uuid4, c))).
      { apply Hhead. intros other c' Hne Hc'.
        rewrite lookup_insert_ne in Hc' by done.
        destruct Hchron as (_ & Hconv & _). by apply (Hconv other c'). }
      done.
    + exists rest. do 2 f_equal. simpl in Hhead.
      rewrite Hconn, lookup_insert_eq in Hhead.
      specialize (Hhead eq_refl Hlimit eq_refl).
      assert (Hsome : Some x = Some (DB.summary_of (uuid4, c))).
      { apply Hhead. intros other c' Hne Hc'.
        rewrite lookup_insert_ne in Hc' by done.
        destruct Hchron as (_ & Hconv & _). by apply (Hconv other c'). }
      by injection Hsome.
Qed.

Lemma new_conversation_round_trip_witness :
  let st := (DB.create_conversation "s0" DB.empty_db (Some "first")).1 in
  let uuid4 := "123e4567-e89b-12d3-a456-426614174000" in
  let r := Api.new_conversation Api.message_of uuid4 st None in
  let c := {| DB.title := DB.derived_title "New Conversation";
              DB.created_at := DB.now st; DB.updated_at := DB.now st |} in
  r.2 = Return uuid4
  /\ Api.get_conversation Api.canonical_uuid Api.message_of r.1 uuid4
     = {| Api.result := Return (Api.ConversationBody c []);
          Api.store_after := r.1; Api.effects := [Api.StorageAccess] |}
  /\ (exists rest,
        Api.get_conversations r.1 20 0
        = Return (DB.Summary uuid4 (DB.title c) (DB.now st) (DB.now st)
                  :: rest)).
Proof.
  intros st uuid4.
  apply (new_conversation_round_trip Api.canonical_uuid Api.message_of st
           uuid4 None 20); try reflexivity.
  - apply Forall_nil. exact I.
  - exact (perform_chronological DB.empty_db
             (DB.CreateConversation "s0" (Some "first")) empty_chronological).
Defined.

(** X22. Without a connection the endpoints do not say so:
    [new_conversation] answers with success and an empty session
    identifier, [get_conversations] with one empty dictionary,
    [get_conversation] with status 500, and [update_conversation_title] and
    [delete_conversation] with status 404 as if the conversation did not
    exist; nothing is stored. *)
Theorem closed_store_replies (uuid_ok : string -> bool)
    (str_exn : exn -> string) (st : DB.db) (uuid4 sid title : string)
    (given : option string) (limit offset : Z) :
  DB.connection st = false ->
  uuid_ok sid = true ->
  Api.new_conversation str_exn uuid4 st given = (st, Return EmptyString)
  /\ Api.get_conversations st limit offset = Return [DB.EmptyDict]
  /\ Api.get_conversation uuid_ok str_exn st sid
     = {| Api.result :=
            Raise (HTTPException 500
                     (str_exn (TypeError "cannot unpack non-iterable NoneType object")));
          Api.store_after := st; Api.effects := [Api.StorageAccess] |}
  /\ Api.update_conversation_title uuid_ok str_exn st sid title
     = {| Api.result := Raise (HTTPException 404 "Conversation not found");
          Api.store_after := st; Api.effects := [Api.StorageAccess] |}
  /\ Api.delete_conversation uuid_ok str_exn st sid
     = {| Api.result := Raise (HTTPException 404 "Conversation not found");
          Api.store_after := st; Api.effects := [Api.StorageAccess] |}.
Proof.
  intros Hconn Hok.
  unfold Api.new_conversation, Api.get_conversations, Api.get_conversation,
    Api.update_conversation_title, Api.delete_conversation, Api.validate,
    DB.create_conversation, DB.list_conversations, DB.get_conversation,
    DB.update_conversation_title, DB.delete_conversation.
  rewrite Hok, Hconn. done.
Qed.

Lemma closed_store_replies_witness :
  let st := DB.close DB.empty_db in
  let sid := "123e4567-e89b-12d3-a456-426614174000" in
  Api.new_conversation Api.message_of sid st None = (st, Return EmptyString)
  /\ Api.get_conversations st 20 0 = Return [DB.EmptyDict]
  /\ Api.get_conversation Api.canonical_uuid Api.message_of st sid
     = {| Api.result :=
            Raise (HTTPException 500
                     (Api.message_of (TypeError "cannot unpack non-iterable NoneType object")));
          Api.store_after := st; Api.effects := [Api.StorageAccess] |}
  /\ Api.update_conversation_title Api.canonical_uuid Api.message_of st sid
       "t"
     = {| Api.result := Raise (HTTPException 404 "Conversation not found");
          Api.store_after := st; Api.effects := [Api.StorageAccess] |}
  /\ Api.delete_conversation Api.canonical_uuid Api.message_of st sid
     = {| Api.result := Raise (HTTPException 404 "Conversation not found");
          Api.store_after := st; Api.effects := [Api.StorageAccess] |}.
Proof.
  intros st sid.
  apply (closed_store_replies Api.canonical_uuid Api.message_of st sid sid
           "t" None 20 0); reflexivity.
Defined.

(** X23. For a well-formed identifier of no conversation the endpoints
    disagree: [update_conversation_title] and [delete_conversation] answer
    with status 404, [get_conversation] with status 500, its own 404 being
    out of reach because the unpacking of [None] raises first.  None of the
    three changes a conversation or a message. *)
Theorem unknown_conversation_replies (uuid_ok : string -> bool)
    (str_exn : exn -> string) (st : DB.db) (sid title : string) :
  uuid_ok sid = true ->
  DB.conversations st !! sid = None ->
  let unchanged (r : Api.reply) :=
    DB.conversations (Api.store_after r) = DB.conversations st
    /\ DB.conversation_details (Api.store_after r)
       = DB.conversation_details st in
  let found := Api.get_conversation uuid_ok str_exn st sid in
  let renamed := Api.update_conversation_title uuid_ok str_exn st sid title in
  let deleted := Api.delete_conversation uuid_ok str_exn st sid in
  Api.result found
  = Raise (HTTPException 500
             (str_exn (TypeError "cannot unpack non-iterable NoneType object")))
  /\ Api.result renamed = Raise (HTTPException 404 "Conversation not found")
  /\ Api.result deleted = Raise (HTTPException 404 "Conversation not found")
  /\ unchanged found /\ unchanged renamed /\ unchanged deleted.
Proof.
  intros Hok Hnone. cbv zeta.
  unfold Api.get_conversation, Api.update_conversation_title,
    Api.delete_conversation, Api.validate, DB.get_conversation,
    DB.update_conversation_title, DB.delete_conversation.
  rewrite Hok, Hnone. by destruct (DB.connection st).
Qed.

Lemma unknown_conversation_replies_witness :
  let st := DB.empty_db in
  let sid := "123e4567-e89b-12d3-a456-426614174000" in
  let unchanged (r : Api.reply) :=
    DB.conversations (Api.store_after r) = DB.conversations st
    /\ DB.conversation_details (Api.store_after r)
       = DB.conversation_details st in
  let found := Api.get_conversation Api.canonical_uuid Api.message_of st sid in
  let renamed :=
    Api.update_conversation_title Api.canonical_uuid Api.message_of st sid
      "t" in
  let deleted :=
    Api.delete_conversation Api.canonical_uuid Api.message_of st sid in
  Api.result found
  = Raise (HTTPException 500
             (Api.message_of (TypeError "cannot unpack non-iterable NoneType object")))
  /\ Api.result renamed = Raise (HTTPException 404 "Conversation not found")
  /\ Api.result deleted = Raise (HTTPException 404 "Conversation not found")
  /\ unchanged found /\ unchanged renamed /\ unchanged deleted.
Proof.
  intros st sid.
  apply (unknown_conversation_replies Api.canonical_uuid Api.message_of st
           sid "t"); reflexivity.
Defined.

(** X24. The endpoint [add_message] never adds a message: whatever the
    identifier, the role and the content, it answers with status 400 or 500
    and the store is as before.  With a well-formed identifier and an
    allowed role the status is 500, the call of the store's [add_message]
    lacking an argument. *)
Theorem add_message_endpoint_fails (uuid_ok : string -> bool)
    (str_exn : exn -> string) (st : DB.db) (sid role content : string) :
  let r := Api.add_message uuid_ok str_exn st sid role content in
  Api.store_after r = st
  /\ Api.effects r = []
  /\ (exists status detail,
        Api.result r = Raise (HTTPException status detail)
        /\ (status = 400%Z \/ status = 500%Z)
        /\ (status = 500%Z <->
            uuid_ok sid = true
            /\ (role = "user" \/ role = "assistant" \/ role = "system"))).
Proof.
  simpl. unfold Api.add_message, Api.validate.
  destruct (uuid_ok sid); simpl.
  - destruct (String.eqb_spec role "user") as [->|H1]; simpl.
    { split; [done|]. split; [done|]. eexists _, _. split; [done|].
      split; [by right|]. split; [by auto|done]. }
    destruct (String.eqb_spec role "assistant") as [->|H2]; simpl.
    { split; [done|]. split; [done|]. eexists _, _. split; [done|].
      split; [by right|]. split; [by auto|done]. }
    destruct (String.eqb_spec role "system") as [->|H3]; simpl.
    { split; [done|]. split; [done|]. eexists _, _. split; [done|].
      split; [by right|]. split; [by auto|done]. }
    split; [done|]. split; [done|]. eexists _, _. split; [done|].
    split; [by left|]. split; [done|]. intros [_ [?|[?|?]]]; done.
  - split; [done|]. split; [done|]. eexists _, _. split; [done|].
    split; [by left|]. split; [done|]. by intros [? _].
Qed.

(** X25. [update_conversation_title] on a stored conversation of a
    connected store answers with the title as it was given, while
    [get_conversation] afterwards shows the fitted title, with the creation
    time and the messages as before: for a title of more than 255
    characters the answer names a title that is not the stored one. *)
Theorem update_title_endpoint (uuid_ok : string -> bool)
    (str_exn : exn -> string) (st : DB.db) (sid title : string)
    (c : DB.conversation) (messages : list DB.message) :
  uuid_ok sid = true ->
  DB.get_conversation st sid = Some (c, messages) ->
  let r := Api.update_conversation_title uuid_ok str_exn st sid title in
  Api.result r = Return (Api.TitleUpdated sid title)
  /\ Api.result (Api.get_conversation uuid_ok str_exn (Api.store_after r) sid)
     = Return (Api.ConversationBody
                 {| DB.title := DB.fitted_title title;
                    DB.created_at := DB.created_at c;
                    DB.updated_at := DB.now st |}
                 messages)
  /\ (255 < String.length title -> DB.fitted_title title <> title).
Proof.
  intros Hok Hget. cbv zeta.
  unfold DB.get_conversation in Hget.
  destruct (DB.connection st) eqn:Hconn; [|done]. simpl in Hget.
  destruct (DB.conversations st !! sid) as [c0|] eqn:Hc; [|done].
  injection Hget as -> <-.
  unfold Api.update_conversation_title, Api.get_conversation, Api.validate,
    DB.update_conversation_title.
  rewrite Hok, Hconn, Hc. simpl. split; [done|].
  unfold DB.get_conversation. simpl. rewrite Hconn, lookup_insert_eq. simpl.
  split; [done|].
  intros Hlong Heq. apply (f_equal String.length) in Heq.
  unfold DB.fitted_title in Heq.
  destruct (Nat.ltb_spec 255 (String.length title)); [|lia].
  rewrite string_length_append, string_length_prefix in Heq by lia.
  simpl in Heq. lia.
Qed.

Lemma update_title_endpoint_witness :
  let sid := "123e4567-e89b-12d3-a456-426614174000" in
  let st := (DB.create_conversation sid DB.empty_db (Some "first")).1 in
  let r :=
    Api.update_conversation_title Api.canonical_uuid Api.message_of st sid
      "second" in
  Api.result r = Return (Api.TitleUpdated sid "second")
  /\ Api.result (Api.get_conversation Api.canonical_uuid Api.message_of
                   (Api.store_after r) sid)
     = Return (Api.ConversationBody
                 {| DB.title := DB.fitted_title "second";
                    DB.created_at := 0; DB.updated_at := DB.now st |}
                 [])
  /\ (255 < String.length "second" -> DB.fitted_title "second" <> "second").
Proof.
  intros sid st.
  apply (update_title_endpoint Api.canonical_uuid Api.message_of st sid
           "second" {| DB.title := "first"; DB.created_at := 0;
                       DB.updated_at := 0 |} []); reflexivity.
Defined.

(** X26. [delete_conversation] on a stored conversation of a connected
    store answers with success; afterwards none of its messages is stored,
    [get_conversation] answers with status 500 and a second
    [delete_conversation] with status 404. *)
Theorem delete_endpoint (uuid_ok : string -> bool)
    (str_exn : exn -> string) (st : DB.db) (sid : string)
    (c : DB.conversation) (messages : list DB.message) :
  uuid_ok sid = true ->
  DB.get_conversation st sid = Some (c, messages) ->
  let r := Api.delete_conversation uuid_ok str_exn st sid in
  Api.result r = Return (Api.ConversationDeleted sid)
  /\ DB.count_messages (Api.store_after r) sid = 0
  /\ Api.result (Api.get_conversation uuid_ok str_exn (Api.store_after r) sid)
     = Raise (HTTPException 500
                (str_exn (TypeError "cannot unpack non-iterable NoneType object")))
  /\ Api.result (Api.delete_conversation uuid_ok str_exn (Api.store_after r)
                   sid)
     = Raise (HTTPException 404 "Conversation not found").
Proof.
  intros Hok Hget. cbv zeta.
  unfold DB.get_conversation in Hget.
  destruct (DB.connection st) eqn:Hconn; [|done]. simpl in Hget.
  destruct (DB.conversations st !! sid) as [c0|] eqn:Hc; [|done].
  clear Hget.
  unfold Api.delete_conversation, Api.get_conversation, Api.validate,
    DB.delete_conversation.
  rewrite Hok, Hconn, Hc. simpl. split; [done|]. split.
  { unfold DB.count_messages. simpl. rewrite list_filter_filter.
    induction (DB.conversation_details st) as [|m l IH]; [done|].
    rewrite filter_cons_False; [done|]. by intros [? ?]. }
  unfold DB.get_conversation. simpl. rewrite Hconn, lookup_delete_eq. done.
Qed.

Lemma delete_endpoint_witness :
  let sid := "123e4567-e89b-12d3-a456-426614174000" in
  let st := (DB.create_conversation sid DB.empty_db (Some "first")).1 in
  let r := Api.delete_conversation Api.canonical_uuid Api.message_of st sid in
  Api.result r = Return (Api.ConversationDeleted sid)
  /\ DB.count_messages (Api.store_after r) sid = 0
  /\ Api.result (Api.get_conversation Api.canonical_uuid Api.message_of
                   (Api.store_after r) sid)
     = Raise (HTTPException 500
                (Api.message_of (TypeError "cannot unpack non-iterable NoneType object")))
  /\ Api.result (Api.delete_conversation Api.canonical_uuid Api.message_of
                   (Api.store_after r) sid)
     = Raise (HTTPException 404 "Conversation not found").
Proof.
  intros sid st.
  apply (delete_endpoint Api.canonical_uuid Api.message_of st sid
           {| DB.title := "first"; DB.created_at := 0; DB.updated_at := 0 |}
           []); reflexivity.
Defined.

(** X27. A message does not move its conversation in the list: unless it
    is the first message of the conversation and a user's, [add_message]
    leaves every conversation with its title and its update time, and
    [list_conversations] answers as before. *)
Theorem add_message_keeps_listing (st : DB.db) (sid role content : string)
    (reasoning : option string) (limit offset : Z) :
  DB.count_messages st sid <> 0 \/ role <> "user" ->
  let st' := (DB.add_message st sid role content reasoning).1 in
  DB.conversations st' = DB.conversations st
  /\ DB.list_conversations st' limit offset
     = DB.list_conversations st limit offset.
Proof.
  intros Hlater st'.
  assert (Hsame : DB.connection st' = DB.connection st
                  /\ DB.conversations st' = DB.conversations st).
  { unfold st', DB.add_message.
    destruct (DB.connection st) eqn:Hconn; simpl; [|done].
    destruct (DB.insert_accepted st sid role); simpl; [|done].
    destruct (String.eqb_spec role "user") as [->|Hrole]; [|done].
    rewrite count_messages_snoc by done.
    destruct Hlater as [Hcount|Hrole]; [|done].
    destruct (Nat.eqb_spec (S (DB.count_messages st sid)) 1); [lia|done]. }
  destruct Hsame as [Hconn Hconv]. split; [done|].
  unfold DB.list_conversations. by rewrite Hconn, Hconv.
Qed.

Lemma add_message_keeps_listing_witness :
  let st := (DB.create_conversation "s1" DB.empty_db None).1 in
  let st' := (DB.add_message st "s1" "assistant" "hello" None).1 in
  DB.conversations st' = DB.conversations st
  /\ DB.list_conversations st' 20 0 = DB.list_conversations st 20 0.
Proof.
  intros st.
  apply (add_message_keeps_listing st "s1" "assistant" "hello" None 20 0).
  by right.
Defined.
